(** * Live caption backend: translation cache, fan-out, speech sessions and
      the per-meeting orchestrator.

    A shallow embedding of
      - src/translation/translator.js  (translateText, the cache and its
                                        statistics)
      - src/db/transcripts.js          (the transcript and translation tables)
      - src/db/userSettings.js         (language preferences)
      - src/livekit/dataChannel.js     (caption delivery)
      - src/stt/deepgram.js            (recognizer session and its event handlers)
      - src/livekit/agent.js           (starting and stopping, transcript handlers)
      - src/utils/logger.js            (the level test)
      - src/index.js                   (the order of the application stack)
    (the modules as they import each other; in this snapshot translator.js
    is the second and index.js the third part of src/config/env.js, and
    userSettings.js the second part of src/utils/logger.js)
    as state-passing functions in a small state-and-exception monad.  The
    process-wide JavaScript objects (the NodeCache instance, the
    [activeSessions] map, the Supabase tables) are fields of one [State]; the
    outside world (HTTP responses, database faults, transport faults, the
    passing of time) is an oracle [World] indexed by the number of external
    requests made so far.  Every exported function and every event handler
    is run to completion: the interleaving of two asynchronous calls at
    their await points is not part of the model. *)

From Stdlib Require Import String Ascii List NArith ZArith QArith Lia Bool Sorted.
From stdpp Require Import base option list gmap strings pretty.

Local Open Scope string_scope.
Local Open Scope N_scope.

(** ** JavaScript truthiness of the values the code tests *)

(** [if (s)] on a string: the empty string is falsy. *)
Definition truthy (s : string) : bool :=
  match s with
  | EmptyString => false
  | String _ _ => true
  end.

(** [if (x)] on [string | undefined | null]. *)
Definition truthy_opt (o : option string) : bool :=
  match o with
  | Some s => truthy s
  | None => false
  end.

(** [a || b] where [a] is [string | undefined] and [b] a string. *)
Definition or_else (a : option string) (b : string) : string :=
  match a with
  | Some s => if truthy s then s else b
  | None => b
  end.

(** ** The node-cache package, as far as translator.js uses it

    [new NodeCache(options)], [get], [set], [flushAll], [keys], [getStats]
    and the periodic [_checkData] sweep.  A stored value is wrapped with its
    absolute expiry time [t] in milliseconds ([0] means: never expires). *)
Module NodeCache.

Record Options := {
  stdTTL : N;            (* seconds; 0 = unlimited *)
  checkperiod : N;       (* seconds between two sweeps *)
  deleteOnExpire : bool;
  maxKeys : Z            (* -1 = no limit *)
}.

(** The package's defaults, overridden by what the caller passes. *)
Definition defaults : Options :=
  {| stdTTL := 0; checkperiod := 600; deleteOnExpire := true; maxKeys := (-1)%Z |}.

Record Wrapped := { t : N; v : string }.

(** The instance's [data] object and the two counters of [getStats]
    that the code reads. *)
Record Cache := {
  data : gmap string Wrapped;
  hits : nat;
  misses : nat
}.

Definition create : Cache := {| data := ∅; hits := 0; misses := 0 |}.

Definition with_data (c : Cache) (d : gmap string Wrapped) : Cache :=
  {| data := d; hits := hits c; misses := misses c |}.

Definition hit (c : Cache) : Cache :=
  {| data := data c; hits := S (hits c); misses := misses c |}.

Definition miss (c : Cache) : Cache :=
  {| data := data c; hits := hits c; misses := S (misses c) |}.

(** [data.t !== 0 && data.t < Date.now()] *)
Definition expired (now : N) (d : Wrapped) : bool :=
  negb (t d =? 0) && (t d <? now).

Definition del (key : string) (c : Cache) : Cache :=
  with_data c (delete key (data c)).

Section Instance.

(** The options the instance was created with. *)
Context (o : Options).

(** [_wrap(value, ttl)] with no explicit ttl: the standard one. *)
Definition wrap (now : N) (value : string) : Wrapped :=
  {| t := if stdTTL o =? 0 then 0 else now + stdTTL o * 1000; v := value |}.

(** [_check(key, data)]: false when the entry is too old (and then it
    has been deleted, if [deleteOnExpire]). *)
Definition check (now : N) (key : string) (d : Wrapped) (c : Cache) : bool * Cache :=
  if expired now d then
    if deleteOnExpire o then (false, del key c) else (true, c)
  else (true, c).

(** [get(key)]: the value, or [undefined]. *)
Definition get (now : N) (key : string) (c : Cache) : option string * Cache :=
  match data c !! key with
  | Some d =>
      let (ok, c') := check now key d c in
      if ok then (Some (v d), hit c') else (None, miss c')
  | None => (None, miss c)
  end.

(** [set(key, value)]: [None] stands for the thrown ECACHEFULL error. *)
Definition set (now : N) (key value : string) (c : Cache) : option Cache :=
  if ((-1 <? maxKeys o) && (maxKeys o <=? Z.of_nat (size (data c))))%Z
  then None
  else Some (with_data c (<[key := wrap now value]> (data c))).

(** [_checkData()]: the sweep that runs every [checkperiod] seconds. *)
Definition checkData (now : N) (c : Cache) : Cache :=
  if deleteOnExpire o
  then with_data c (filter (λ kv, expired now kv.2 = false) (data c))
  else c.

End Instance.

Definition flushAll (c : Cache) : Cache := create.

Definition keys (c : Cache) : list string := (map_to_list (data c)).*1.

End NodeCache.

(** ** Configuration (src/config/env.js) *)

Record Config := {
  livekit_url : string;
  deepgram_apiKey : option string;
  deepgram_model : string;
  deepgram_language : string;
  translation_service : string;
  translation_libretranslateUrl : string;
  translation_googleApiKey : option string;
  features_transcription : bool;
  features_translation : bool;
  features_cacheTranslations : bool
}.

(** ** Values exchanged with the collaborators *)

(** A recognizer confidence is a JavaScript number in [0, 1]; it is only
    carried around, so a rational stands for it. *)
Definition Confidence := Q.

(** What the recognizer session hands to the orchestrator's callbacks. *)
Record Transcript := {
  text : string;
  confidence : Confidence;
  language : string;
  isFinal : bool
}.

(** The Deepgram [Transcript] event payload: [data.channel?.alternatives?.[0]]
    and [data.is_final]. *)
Record Alternative := {
  alt_transcript : option string;
  alt_confidence : option Confidence
}.

Record DeepgramData := {
  alternative0 : option Alternative;
  is_final : option bool
}.

(** The caption object passed to dataChannel.js; [translatedText] and
    [targetLanguage] may be absent. *)
Record Caption := {
  cap_meetingId : string;
  cap_speakerId : string;
  cap_speakerName : string;
  cap_originalText : string;
  cap_originalLanguage : string;
  cap_translatedText : option string;
  cap_targetLanguage : option string;
  cap_isFinal : bool;
  cap_confidence : Confidence
}.

(** The outbound wire message of type 'caption' (before JSON encoding). *)
Record CaptionMessage := {
  messageId : string;
  meetingId : string;
  speakerId : string;
  speakerName : string;
  originalText : string;
  originalLanguage : string;
  translatedText : option string;
  targetLanguage : option string;
  msg_isFinal : bool;
  msg_confidence : Confidence;
  timestamp : N
}.

Inductive Payload :=
| CaptionPayload (m : CaptionMessage)
| SystemPayload (messageId message : string) (timestamp : N).

(** Rows of the Supabase tables the code reads and writes. *)
Record TranscriptRow := {
  tr_id : string;
  tr_meeting_id : string;
  tr_speaker_id : string;
  tr_speaker_name : string;
  tr_original_text : string;
  tr_detected_language : string;
  tr_confidence : Confidence;
  tr_timestamp_ms : N
}.

Record TranslationRow := {
  tl_transcript_id : string;
  tl_target_language : string;
  tl_translated_text : string;
  tl_translation_service : string
}.

Record ParticipantRow := {
  mp_meeting_id : string;
  mp_user_id : string
}.

Record UserSettingsRow := {
  us_user_id : string;
  us_preferred_language : option string
}.

(** One element of what getMeetingLanguages returns. *)
Record LanguagePreference := { userId : string; pref_language : string }.

(** LiveKit room objects. *)
Inductive TrackKind := Audio | Video.

Record Publication := {
  pub_kind : TrackKind;
  pub_track : option nat        (* the track handle, when subscribed *)
}.

Record Participant := {
  identity : string;
  name : string;
  tracks : list Publication
}.

(** One entry of [activeSessions]: the room handle and the meeting id.  The
    session's [transcriptionSessions] map is mutated in place, so it lives in
    the state, under the room handle (see [State]); its [participantLanguages]
    map is never read or written. *)
Record Session := {
  room : nat;
  s_meetingId : string
}.

(** What the two callbacks that agent.js passes to
    createTranscriptionSession close over: the session object, the
    participant's identity and name. *)
Record Callbacks := {
  cb_session : Session;
  cb_participantId : string;
  cb_participantName : string
}.

(** A recognizer connection: the options and callbacks its handlers were
    registered with. *)
Record Connection := {
  conn_meetingId : string;
  conn_language : option string;
  conn_onTranscript : option Callbacks;
  conn_onFinalTranscript : option Callbacks
}.

(** The [options] argument of createTranscriptionSession. *)
Record SessionOptions := {
  opt_meetingId : string;
  opt_language : option string
}.

(** One element of the list given to sendTranslatedCaptions. *)
Record CaptionTarget := {
  participantIdentity : string;
  ct_language : string;
  ct_translatedText : string
}.

(** The events of a recognizer connection. *)
Inductive LiveTranscriptionEvent :=
| OnOpen
| OnTranscript (data : DeepgramData)
| OnError
| OnClose.

(** The result object of startTranscription / stopTranscription. *)
Record Outcome := { success : bool; message : string }.

(** The result object of checkDeepgramHealth. *)
Record Health := {
  healthy : bool;
  health_message : string;
  health_model : option string
}.

(** ** Observable effects *)

Inductive LogLevel := LError | LWarn | LInfo | LDebug.

Inductive Event :=
| EvLog (level : LogLevel) (msg : string)
| EvAxiosPost (url q : string) (source : option string) (target : string)
              (response : option string)
| EvPublishData (room : nat) (payload : Payload) (destination : option (list string))
                (delivered : bool)
| EvRoomConnect (room : nat) (connected : bool)
| EvRoomDisconnect (room : nat)
| EvListenLive (connection : nat) (language : string)
| EvConnectionSend (connection : nat) (chunk : nat)
| EvConnectionFinish (connection : nat).

(** ** The outside world

    Every external request takes the next index [n] (the number of requests
    made so far) and the world answers it. *)
Record World := {
  (** axios.post with a 5000 ms timeout: the translated text of a good
      response; [None] for a network error, a timeout or a bad answer. *)
  axios_post : nat → string → string → option string → string → option string;
  (** the Supabase request fails with an error that the code does not single out *)
  supabase_error : nat → bool;
  (** gen_random_uuid() of an inserted row *)
  gen_random_uuid : nat → string;
  (** uuidv4() *)
  uuidv4 : nat → string;
  (** publishData throws *)
  publishData_throws : nat → bool;
  (** room.connect: the error message, or the participants already there *)
  room_connect : nat → string + list Participant;
  (** room.disconnect throws *)
  room_disconnect_throws : nat → option string;
  (** deepgramClient.listen.live throws *)
  listen_live_throws : nat → option string;
  (** connection.send / connection.finish throws *)
  connection_throws : nat → bool;
  (** milliseconds the awaited request takes *)
  elapsed : nat → N
}.

(** ** Process state *)

Record State := {
  clock : N;                                   (* Date.now() *)
  requests : nat;                              (* external requests so far *)
  translationCache : NodeCache.Cache;
  meeting_transcripts : list TranscriptRow;
  meeting_translations : list TranslationRow;
  meeting_participants : list ParticipantRow;
  user_settings : list UserSettingsRow;
  deepgramClient : bool;                       (* initialised or still null *)
  connections : gmap nat Connection;
  rooms : nat;                                 (* Room objects created so far *)
  (* session.transcriptionSessions of the session with that room: participant
     identity to recognizer connection, in insertion order; a new Map() is [] *)
  transcriptionSessions : gmap nat (list (string * nat));
  activeSessions : gmap string Session;
  trace : list Event                           (* newest first *)
}.

Definition set_clock (f : N → N) (st : State) : State :=
  {| clock := f (clock st); requests := requests st;
     translationCache := translationCache st;
     meeting_transcripts := meeting_transcripts st;
     meeting_translations := meeting_translations st;
     meeting_participants := meeting_participants st;
     user_settings := user_settings st;
     deepgramClient := deepgramClient st; connections := connections st;
     rooms := rooms st; transcriptionSessions := transcriptionSessions st;
     activeSessions := activeSessions st; trace := trace st |}.

Definition set_requests (f : nat → nat) (st : State) : State :=
  {| clock := clock st; requests := f (requests st);
     translationCache := translationCache st;
     meeting_transcripts := meeting_transcripts st;
     meeting_translations := meeting_translations st;
     meeting_participants := meeting_participants st;
     user_settings := user_settings st;
     deepgramClient := deepgramClient st; connections := connections st;
     rooms := rooms st; transcriptionSessions := transcriptionSessions st;
     activeSessions := activeSessions st; trace := trace st |}.

Definition set_translationCache (f : NodeCache.Cache → NodeCache.Cache) (st : State) : State :=
  {| clock := clock st; requests := requests st;
     translationCache := f (translationCache st);
     meeting_transcripts := meeting_transcripts st;
     meeting_translations := meeting_translations st;
     meeting_participants := meeting_participants st;
     user_settings := user_settings st;
     deepgramClient := deepgramClient st; connections := connections st;
     rooms := rooms st; transcriptionSessions := transcriptionSessions st;
     activeSessions := activeSessions st; trace := trace st |}.

Definition set_meeting_transcripts (f : list TranscriptRow → list TranscriptRow) (st : State) : State :=
  {| clock := clock st; requests := requests st;
     translationCache := translationCache st;
     meeting_transcripts := f (meeting_transcripts st);
     meeting_translations := meeting_translations st;
     meeting_participants := meeting_participants st;
     user_settings := user_settings st;
     deepgramClient := deepgramClient st; connections := connections st;
     rooms := rooms st; transcriptionSessions := transcriptionSessions st;
     activeSessions := activeSessions st; trace := trace st |}.

Definition set_meeting_translations (f : list TranslationRow → list TranslationRow) (st : State) : State :=
  {| clock := clock st; requests := requests st;
     translationCache := translationCache st;
     meeting_transcripts := meeting_transcripts st;
     meeting_translations := f (meeting_translations st);
     meeting_participants := meeting_participants st;
     user_settings := user_settings st;
     deepgramClient := deepgramClient st; connections := connections st;
     rooms := rooms st; transcriptionSessions := transcriptionSessions st;
     activeSessions := activeSessions st; trace := trace st |}.

Definition set_user_settings (f : list UserSettingsRow → list UserSettingsRow) (st : State) : State :=
  {| clock := clock st; requests := requests st;
     translationCache := translationCache st;
     meeting_transcripts := meeting_transcripts st;
     meeting_translations := meeting_translations st;
     meeting_participants := meeting_participants st;
     user_settings := f (user_settings st);
     deepgramClient := deepgramClient st; connections := connections st;
     rooms := rooms st; transcriptionSessions := transcriptionSessions st;
     activeSessions := activeSessions st; trace := trace st |}.

Definition set_deepgramClient (b : bool) (st : State) : State :=
  {| clock := clock st; requests := requests st;
     translationCache := translationCache st;
     meeting_transcripts := meeting_transcripts st;
     meeting_translations := meeting_translations st;
     meeting_participants := meeting_participants st;
     user_settings := user_settings st;
     deepgramClient := b; connections := connections st;
     rooms := rooms st; transcriptionSessions := transcriptionSessions st;
     activeSessions := activeSessions st; trace := trace st |}.

Definition set_connections (f : gmap nat Connection → gmap nat Connection) (st : State) : State :=
  {| clock := clock st; requests := requests st;
     translationCache := translationCache st;
     meeting_transcripts := meeting_transcripts st;
     meeting_translations := meeting_translations st;
     meeting_participants := meeting_participants st;
     user_settings := user_settings st;
     deepgramClient := deepgramClient st; connections := f (connections st);
     rooms := rooms st; transcriptionSessions := transcriptionSessions st;
     activeSessions := activeSessions st; trace := trace st |}.

Definition set_rooms (f : nat → nat) (st : State) : State :=
  {| clock := clock st; requests := requests st;
     translationCache := translationCache st;
     meeting_transcripts := meeting_transcripts st;
     meeting_translations := meeting_translations st;
     meeting_participants := meeting_participants st;
     user_settings := user_settings st;
     deepgramClient := deepgramClient st; connections := connections st;
     rooms := f (rooms st); transcriptionSessions := transcriptionSessions st;
     activeSessions := activeSessions st; trace := trace st |}.

Definition set_transcriptionSessions
    (f : gmap nat (list (string * nat)) → gmap nat (list (string * nat))) (st : State) : State :=
  {| clock := clock st; requests := requests st;
     translationCache := translationCache st;
     meeting_transcripts := meeting_transcripts st;
     meeting_translations := meeting_translations st;
     meeting_participants := meeting_participants st;
     user_settings := user_settings st;
     deepgramClient := deepgramClient st; connections := connections st;
     rooms := rooms st; transcriptionSessions := f (transcriptionSessions st);
     activeSessions := activeSessions st; trace := trace st |}.

Definition set_activeSessions (f : gmap string Session → gmap string Session) (st : State) : State :=
  {| clock := clock st; requests := requests st;
     translationCache := translationCache st;
     meeting_transcripts := meeting_transcripts st;
     meeting_translations := meeting_translations st;
     meeting_participants := meeting_participants st;
     user_settings := user_settings st;
     deepgramClient := deepgramClient st; connections := connections st;
     rooms := rooms st; transcriptionSessions := transcriptionSessions st;
     activeSessions := f (activeSessions st); trace := trace st |}.

Definition set_trace (f : list Event → list Event) (st : State) : State :=
  {| clock := clock st; requests := requests st;
     translationCache := translationCache st;
     meeting_transcripts := meeting_transcripts st;
     meeting_translations := meeting_translations st;
     meeting_participants := meeting_participants st;
     user_settings := user_settings st;
     deepgramClient := deepgramClient st; connections := connections st;
     rooms := rooms st; transcriptionSessions := transcriptionSessions st;
     activeSessions := activeSessions st; trace := f (trace st) |}.

(** ** A state monad with JavaScript exceptions *)

Inductive Result (A : Type) :=
| Return (a : A)
| Throw (error_message : string).
Arguments Return {A} a.
Arguments Throw {A} error_message.

Definition M (A : Type) : Type := State → Result A * State.

Definition ret {A} (a : A) : M A := λ st, (Return a, st).

Definition throw {A} (error_message : string) : M A := λ st, (Throw error_message, st).

Definition bind {A B} (m : M A) (k : A → M B) : M B :=
  λ st, match m st with
        | (Return a, st') => k a st'
        | (Throw e, st') => (Throw e, st')
        end.

(** [try { m } catch (error) { h error.message }] *)
Definition try_catch {A} (m : M A) (h : string → M A) : M A :=
  λ st, match m st with
        | (Return a, st') => (Return a, st')
        | (Throw e, st') => h e st'
        end.

Notation "'let!' x ':=' m 'in' k" := (bind m (λ x, k))
  (at level 10, x name, m at level 100, k at level 200).
Notation "m ';;' k" := (bind m (λ _, k))
  (at level 100, k at level 200, right associativity).

Definition get_state : M State := λ st, (Return st, st).
Definition modify (f : State → State) : M unit := λ st, (Return tt, f st).

(** [for (const x of l) { await f(x) }] *)
Fixpoint for_of {A} (l : list A) (f : A → M unit) : M unit :=
  match l with
  | [] => ret tt
  | x :: l' => f x ;; for_of l' f
  end.

(** [Promise.all(l.map(async x => f(x)))], the calls taken in list order. *)
Fixpoint map_all {A B} (l : list A) (f : A → M B) : M (list B) :=
  match l with
  | [] => ret []
  | x :: l' => let! y := f x in let! ys := map_all l' f in ret (y :: ys)
  end.

Definition emit (e : Event) : M unit := modify (set_trace (cons e)).

(** logger.error / warn / info / debug (src/utils/logger.js); the metadata
    object is left out. *)
Definition logger (level : LogLevel) (msg : string) : M unit := emit (EvLog level msg).

Definition Date_now : M N := λ st, (Return (clock st), st).

(** *** The level test of src/utils/logger.js

    [logger] above records the call; whether the call prints depends on
    [config.logLevel], which is [process.env.LOG_LEVEL || 'info']. *)

(** What the property access [LOG_LEVELS[name]] evaluates to: one of the
    four numbers, a member inherited from [Object.prototype] (a function, or
    the prototype itself for [__proto__]), or [undefined]. *)
Inductive LevelLookup :=
| OwnLevel (n : nat)
| Inherited
| Undefined.

Definition Object_prototype_properties : list string :=
  [ "constructor"; "hasOwnProperty"; "isPrototypeOf"; "propertyIsEnumerable";
    "toLocaleString"; "toString"; "valueOf"; "__proto__";
    "__defineGetter__"; "__defineSetter__"; "__lookupGetter__"; "__lookupSetter__" ].

Definition LOG_LEVELS (name : string) : LevelLookup :=
  if String.eqb name "error" then OwnLevel 0
  else if String.eqb name "warn" then OwnLevel 1
  else if String.eqb name "info" then OwnLevel 2
  else if String.eqb name "debug" then OwnLevel 3
  else if existsb (String.eqb name) Object_prototype_properties then Inherited
  else Undefined.

Definition level_number (level : LogLevel) : nat :=
  match level with
  | LError => 0
  | LWarn => 1
  | LInfo => 2
  | LDebug => 3
  end.

(** [config.logLevel]: [process.env.LOG_LEVEL || 'info'] *)
Definition config_logLevel (LOG_LEVEL : option string) : string :=
  or_else LOG_LEVEL "info".

(** [LOG_LEVELS[config.logLevel] || LOG_LEVELS.info]: the number [0] is
    falsy like [undefined]; an inherited member is truthy and is kept
    ([None]: not a number). *)
Definition currentLevel (logLevel : string) : option nat :=
  match LOG_LEVELS logLevel with
  | OwnLevel 0 => Some 2%nat
  | OwnLevel n => Some n
  | Inherited => None
  | Undefined => Some 2%nat
  end.

(** [currentLevel >= LOG_LEVELS.<level>], the test of each logger method;
    a function or an object compared with a number gives [false]. *)
Definition prints (logLevel : string) (level : LogLevel) : bool :=
  match currentLevel logLevel with
  | Some n => (level_number level <=? n)%nat
  | None => false
  end.

(** A JavaScript [Map] whose iteration order matters: an association list in
    insertion order; [set] on a present key keeps its place. *)
Module JsMap.
Section JsMap.
Context {V : Type}.

Fixpoint set (k : string) (x : V) (m : list (string * V)) : list (string * V) :=
  match m with
  | [] => [(k, x)]
  | (k', x') :: m' =>
      if String.eqb k' k then (k, x) :: m' else (k', x') :: set k x m'
  end.

Fixpoint get (k : string) (m : list (string * V)) : option V :=
  match m with
  | [] => None
  | (k', x') :: m' => if String.eqb k' k then Some x' else get k m'
  end.

Fixpoint delete (k : string) (m : list (string * V)) : list (string * V) :=
  match m with
  | [] => []
  | (k', x') :: m' => if String.eqb k' k then m' else (k', x') :: delete k m'
  end.
End JsMap.
End JsMap.

(** ** The program *)

Section Program.

Context (W : World) (cfg : Config).

(** A call into a collaborator takes the next index ... *)
Definition ask : M nat :=
  λ st, (Return (requests st), set_requests S st).

(** ... and an awaited one also the time the world says it takes. *)
Definition request : M nat :=
  let! n := ask in
  modify (set_clock (λ c, c + elapsed W n)) ;;
  ret n.

(** *** src/db/transcripts.js *)

Definition saveTranscript (meetingId speakerId speakerName text language : string)
    (confidence : Confidence) : M (option TranscriptRow) :=
  let! now := Date_now in
  let! n := request in
  let row := {| tr_id := gen_random_uuid W n; tr_meeting_id := meetingId;
                tr_speaker_id := speakerId; tr_speaker_name := speakerName;
                tr_original_text := text; tr_detected_language := language;
                tr_confidence := confidence; tr_timestamp_ms := now |} in
  let! st := get_state in
  if supabase_error W n
     || existsb (λ r, String.eqb (tr_id r) (tr_id row)) (meeting_transcripts st)
  then
    (* if (error) throw error; caught below *)
    logger LError "Error saving transcript" ;;
    ret None
  else
    modify (set_meeting_transcripts (λ rows, (rows ++ [row])%list)) ;;
    logger LDebug "Transcript saved" ;;
    ret (Some row).

Definition translation_row_matches (transcriptId targetLanguage : string)
    (r : TranslationRow) : bool :=
  String.eqb (tl_transcript_id r) transcriptId
  && String.eqb (tl_target_language r) targetLanguage.

Definition saveTranslation (transcriptId targetLanguage translatedText service : string)
    : M (option TranslationRow) :=
  let! n := request in
  let row := {| tl_transcript_id := transcriptId; tl_target_language := targetLanguage;
                tl_translated_text := translatedText; tl_translation_service := service |} in
  let! st := get_state in
  if supabase_error W n then
    logger LError "Error saving translation" ;;
    ret None
  else if existsb (translation_row_matches transcriptId targetLanguage)
            (meeting_translations st) then
    (* UNIQUE(transcript_id, target_language): error.code === '23505' *)
    logger LDebug "Translation already exists" ;;
    ret None
  else if negb (existsb (λ r, String.eqb (tr_id r) transcriptId) (meeting_transcripts st)) then
    (* transcript_id REFERENCES meeting_transcripts(id) *)
    logger LError "Error saving translation" ;;
    ret None
  else
    modify (set_meeting_translations (λ rows, (rows ++ [row])%list)) ;;
    logger LDebug "Translation saved" ;;
    ret (Some row).

Definition getTranslation (transcriptId targetLanguage : string) : M (option string) :=
  let! n := request in
  let! st := get_state in
  if supabase_error W n then
    logger LError "Error getting translation" ;;
    ret None
  else
    match filter (λ r, translation_row_matches transcriptId targetLanguage r = true)
            (meeting_translations st) with
    | [r] => ret (Some (tl_translated_text r))
    | _ => ret None               (* .single(): error.code === 'PGRST116' *)
    end.

(** [.order('timestamp_ms', { ascending: true })]: rows with equal
    timestamps, among which the database promises no order, stay in table
    order. *)
Fixpoint insert_by_timestamp (row : TranscriptRow) (rows : list TranscriptRow)
    : list TranscriptRow :=
  match rows with
  | [] => [row]
  | r :: rows' =>
      if tr_timestamp_ms row <=? tr_timestamp_ms r then row :: r :: rows'
      else r :: insert_by_timestamp row rows'
  end.

Definition order_by_timestamp (rows : list TranscriptRow) : list TranscriptRow :=
  foldr insert_by_timestamp [] rows.

Definition getMeetingTranscripts (meetingId : string) : M (list TranscriptRow) :=
  let! n := request in
  let! st := get_state in
  if supabase_error W n then
    logger LError "Error getting meeting transcripts" ;;
    ret []
  else
    ret (order_by_timestamp
           (filter (λ r, String.eqb (tr_meeting_id r) meetingId = true)
              (meeting_transcripts st))).

(** The delete removes the meeting's transcripts and, by the schema's
    [transcript_id ... REFERENCES meeting_transcripts(id) ON DELETE CASCADE],
    the translations of those transcripts. *)
Definition deleteMeetingTranscripts (meetingId : string) : M bool :=
  let! n := request in
  let! st := get_state in
  if supabase_error W n then
    logger LError "Error deleting transcripts" ;;
    ret false
  else
    let deleted :=
      filter (λ r, String.eqb (tr_meeting_id r) meetingId = true) (meeting_transcripts st) in
    modify (set_meeting_transcripts
              (filter (λ r, String.eqb (tr_meeting_id r) meetingId = false))) ;;
    modify (set_meeting_translations
              (filter (λ t, existsb (λ r, String.eqb (tr_id r) (tl_transcript_id t)) deleted
                            = false))) ;;
    logger LInfo "Meeting transcripts deleted" ;;
    ret true.

(** *** src/db/userSettings.js *)

Definition getUserLanguage (userId : string) : M string :=
  let! n := request in
  let! st := get_state in
  if supabase_error W n then
    logger LError "Error getting user language" ;;
    ret "en"
  else
    match filter (λ s, String.eqb (us_user_id s) userId = true) (user_settings st) with
    | [s] => ret (or_else (us_preferred_language s) "en")
    | _ => ret "en"                 (* .single(): error.code === 'PGRST116' *)
    end.

(** [.upsert({ user_id, preferred_language, updated_at }, { onConflict: 'user_id' })]:
    the row of the user is updated, or a new one is inserted. *)
Definition upsert_language (userId language : string) (rows : list UserSettingsRow)
    : list UserSettingsRow :=
  let row := {| us_user_id := userId; us_preferred_language := Some language |} in
  if existsb (λ s, String.eqb (us_user_id s) userId) rows
  then map (λ s, if String.eqb (us_user_id s) userId then row else s) rows
  else (rows ++ [row])%list.

Definition updateUserLanguage (userId language : string) : M bool :=
  let! n := request in
  if supabase_error W n then
    logger LError "Error updating user language" ;;
    ret false
  else
    modify (set_user_settings (upsert_language userId language)) ;;
    logger LInfo "User language updated" ;;
    ret true.

Definition getMeetingLanguages (meetingId : string) : M (list LanguagePreference) :=
  let! n := request in
  let! st := get_state in
  if supabase_error W n then
    logger LError "Error getting meeting languages" ;;
    ret []
  else
    let participants :=
      filter (λ p, String.eqb (mp_meeting_id p) meetingId = true) (meeting_participants st) in
    match participants with
    | [] => ret []
    | _ =>
        let userIds := map mp_user_id participants in
        let! n2 := request in
        let! st2 := get_state in
        if supabase_error W n2 then
          logger LError "Error getting meeting languages" ;;
          ret []
        else
          let settings :=
            filter (λ s, existsb (String.eqb (us_user_id s)) userIds = true)
              (user_settings st2) in
          let languageMap :=
            fold_left
              (λ m p,
                 let userSetting :=
                   find (λ s, String.eqb (us_user_id s) (mp_user_id p)) settings in
                 JsMap.set (mp_user_id p)
                   (or_else (userSetting ≫= us_preferred_language) "en") m)
              participants [] in
          ret (map (λ e, {| userId := e.1; pref_language := e.2 |}) languageMap)
    end.

(** *** src/translation/translator.js *)

(** [new NodeCache({ stdTTL: 3600, checkperiod: 600 })] *)
Definition translationCache_options : NodeCache.Options :=
  {| NodeCache.stdTTL := 3600;
     NodeCache.checkperiod := 600;
     NodeCache.deleteOnExpire := NodeCache.deleteOnExpire NodeCache.defaults;
     NodeCache.maxKeys := NodeCache.maxKeys NodeCache.defaults |}.

Definition translationCache_get (key : string) : M (option string) :=
  λ st, let (r, c) := NodeCache.get translationCache_options (clock st) key
                        (translationCache st) in
        (Return r, set_translationCache (λ _, c) st).

Definition translationCache_set (key value : string) : M unit :=
  λ st, match NodeCache.set translationCache_options (clock st) key value
                (translationCache st) with
        | Some c => (Return tt, set_translationCache (λ _, c) st)
        | None => (Throw "Cache max keys amount exceeded", st)
        end.

Definition translateWithLibreTranslate (text sourceLang targetLang : string) : M string :=
  let url := translation_libretranslateUrl cfg ++ "/translate" in
  let source := if String.eqb sourceLang "auto" then "auto" else sourceLang in
  let! n := request in
  let response := axios_post W n url text (Some source) targetLang in
  emit (EvAxiosPost url text (Some source) targetLang response) ;;
  match response with
  | Some translated => ret translated
  | None =>
      logger LError "LibreTranslate error" ;;
      throw "LibreTranslate translation failed"
  end.

Definition translateWithGoogle (text sourceLang targetLang : string) : M string :=
  if negb (truthy_opt (translation_googleApiKey cfg)) then
    throw "Google Translate API key not configured"
  else
    let url := "https://translation.googleapis.com/language/translate/v2" in
    let source := if String.eqb sourceLang "auto" then None else Some sourceLang in
    let! n := request in
    let response := axios_post W n url text source targetLang in
    emit (EvAxiosPost url text source targetLang response) ;;
    match response with
    | Some translated => ret translated
    | None =>
        logger LError "Google Translate error" ;;
        throw "Google Translate failed"
    end.

(** [`${text}_${sourceLang}_${targetLang}`] *)
Definition cacheKey (text sourceLang targetLang : string) : string :=
  text ++ "_" ++ sourceLang ++ "_" ++ targetLang.

(** The two cache lookups of translateText (memory, then database); a
    [Some] is the value the function returns early with. *)
Definition translateText_cached (key targetLang : string) (transcriptId : option string)
    : M (option string) :=
  if features_cacheTranslations cfg then
    let! cached := translationCache_get key in
    if truthy_opt cached then
      logger LDebug "Translation cache hit (memory)" ;;
      ret cached
    else
      match transcriptId with
      | Some id =>
          if truthy id then
            let! dbCached := getTranslation id targetLang in
            match dbCached with
            | Some dbText =>
                if truthy dbText then
                  logger LDebug "Translation cache hit (database)" ;;
                  translationCache_set key dbText ;;
                  ret (Some dbText)
                else ret None
            | None => ret None
            end
          else ret None
      | None => ret None
      end
  else ret None.

Definition translateText (text sourceLang targetLang : string)
    (transcriptId : option string) : M string :=
  if String.eqb sourceLang targetLang then ret text
  else
    let key := cacheKey text sourceLang targetLang in
    let! early := translateText_cached key targetLang transcriptId in
    match early with
    | Some cached => ret cached
    | None =>
        let service := translation_service cfg in
        try_catch
          (let! translatedText :=
             if String.eqb service "google"
             then translateWithGoogle text sourceLang targetLang
             else translateWithLibreTranslate text sourceLang targetLang in
           (if features_cacheTranslations cfg then
              translationCache_set key translatedText ;;
              match transcriptId with
              | Some id =>
                  if truthy id then
                    saveTranslation id targetLang translatedText service ;;
                    ret tt
                  else ret tt
              | None => ret tt
              end
            else ret tt) ;;
           logger LDebug "Translation successful" ;;
           ret translatedText)
          (λ _,
             logger LError "Translation failed" ;;
             ret text)
    end.

Definition clearTranslationCache : M unit :=
  modify (set_translationCache NodeCache.flushAll) ;;
  logger LInfo "Translation cache cleared".

Definition getCacheStats : M (nat * nat * nat) :=
  let! st := get_state in
  let c := translationCache st in
  ret (length (NodeCache.keys c), NodeCache.hits c, NodeCache.misses c).

(** *** src/livekit/dataChannel.js

    The payload is kept as the message object; JSON.stringify and
    TextEncoder are not modelled. *)

Definition sendCaptionToParticipant (room : nat) (participantIdentity : string)
    (caption : Caption) : M bool :=
  let! now := Date_now in
  let! n := request in
  let message :=
    {| messageId := uuidv4 W n;
       meetingId := cap_meetingId caption;
       speakerId := cap_speakerId caption;
       speakerName := cap_speakerName caption;
       originalText := cap_originalText caption;
       originalLanguage := cap_originalLanguage caption;
       translatedText := cap_translatedText caption;
       targetLanguage := cap_targetLanguage caption;
       msg_isFinal := cap_isFinal caption;
       msg_confidence := cap_confidence caption;
       timestamp := now |} in
  if publishData_throws W n then
    emit (EvPublishData room (CaptionPayload message) (Some [participantIdentity]) false) ;;
    logger LError "Error sending caption to participant" ;;
    ret false
  else
    emit (EvPublishData room (CaptionPayload message) (Some [participantIdentity]) true) ;;
    logger LDebug "Caption sent to participant" ;;
    ret true.

Definition broadcastCaption (room : nat) (caption : Caption) : M bool :=
  let! now := Date_now in
  let! n := request in
  let message :=
    {| messageId := uuidv4 W n;
       meetingId := cap_meetingId caption;
       speakerId := cap_speakerId caption;
       speakerName := cap_speakerName caption;
       originalText := cap_originalText caption;
       originalLanguage := cap_originalLanguage caption;
       translatedText :=
         Some (or_else (cap_translatedText caption) (cap_originalText caption));
       targetLanguage :=
         Some (or_else (cap_targetLanguage caption) (cap_originalLanguage caption));
       msg_isFinal := cap_isFinal caption;
       msg_confidence := cap_confidence caption;
       timestamp := now |} in
  if publishData_throws W n then
    emit (EvPublishData room (CaptionPayload message) None false) ;;
    logger LError "Error broadcasting caption" ;;
    ret false
  else
    emit (EvPublishData room (CaptionPayload message) None true) ;;
    logger LDebug "Caption broadcasted to all" ;;
    ret true.

Definition sendTranslatedCaptions (room : nat) (caption : Caption)
    (participantLanguages : list CaptionTarget) : M bool :=
  try_catch
    (map_all participantLanguages
       (λ p,
          let captionWithTranslation :=
            {| cap_meetingId := cap_meetingId caption;
               cap_speakerId := cap_speakerId caption;
               cap_speakerName := cap_speakerName caption;
               cap_originalText := cap_originalText caption;
               cap_originalLanguage := cap_originalLanguage caption;
               cap_translatedText :=
                 Some (or_else (Some (ct_translatedText p)) (cap_originalText caption));
               cap_targetLanguage := Some (ct_language p);
               cap_isFinal := cap_isFinal caption;
               cap_confidence := cap_confidence caption |} in
          sendCaptionToParticipant room (participantIdentity p) captionWithTranslation) ;;
     logger LInfo "Translated captions sent" ;;
     ret true)
    (λ _,
       logger LError "Error sending translated captions" ;;
       ret false).

Definition sendSystemMessage (room : nat) (message : string)
    (participantIdentities : option (list string)) : M bool :=
  let! now := Date_now in
  let! n := request in
  let systemMsg := SystemPayload (uuidv4 W n) message now in
  let destination :=
    match participantIdentities with
    | Some (id :: ids) => Some (id :: ids)
    | _ => None
    end in
  if publishData_throws W n then
    emit (EvPublishData room systemMsg destination false) ;;
    logger LError "Error sending system message" ;;
    ret false
  else
    emit (EvPublishData room systemMsg destination true) ;;
    logger LDebug "System message sent" ;;
    ret true.

(** *** src/stt/deepgram.js *)

Definition initializeDeepgram : M bool :=
  if negb (truthy_opt (deepgram_apiKey cfg)) then
    logger LWarn "Deepgram API key not configured, transcription disabled" ;;
    ret false
  else
    modify (set_deepgramClient true) ;;
    logger LInfo "Deepgram client initialized" ;;
    ret true.

(** createTranscriptionSession: opens the live connection and registers
    the four handlers below on it; the returned object (with [send] and
    [close]) is the connection's handle. *)
Definition createTranscriptionSession (options : SessionOptions)
    (onTranscript onFinalTranscript : option Callbacks) : M nat :=
  let! st := get_state in
  (if deepgramClient st then ret tt
   else
     let! initialized := initializeDeepgram in
     if initialized then ret tt else throw "Deepgram not initialized") ;;
  let! n := ask in
  match listen_live_throws W n with
  | Some error_message =>
      logger LError "Failed to create Deepgram session" ;;
      throw error_message
  | None =>
      emit (EvListenLive n (or_else (opt_language options) (deepgram_language cfg))) ;;
      modify (set_connections
                <[n := {| conn_meetingId := opt_meetingId options;
                          conn_language := opt_language options;
                          conn_onTranscript := onTranscript;
                          conn_onFinalTranscript := onFinalTranscript |}]>) ;;
      ret n
  end.

Definition connection_on_Open : M unit :=
  logger LInfo "Deepgram connection opened".

(** The handler of [LiveTranscriptionEvents.Transcript]; the callbacks
    are started, not awaited. *)
Definition connection_on_Transcript (language : option string)
    (onTranscript onFinalTranscript : option (Transcript → M unit))
    (data : DeepgramData) : M unit :=
  match alternative0 data ≫= alt_transcript with
  | None => ret tt
  | Some transcript_text =>
      if negb (truthy transcript_text) then ret tt
      else
        let isFinal := default false (is_final data) in
        let confidence :=
          match alternative0 data ≫= alt_confidence with
          | Some c => c
          | None => 0%Q
          end in
        logger LDebug "Transcript received" ;;
        if isFinal then
          match onFinalTranscript with
          | Some callback =>
              callback {| text := transcript_text; confidence := confidence;
                          language := or_else language "en"; isFinal := true |}
          | None => ret tt
          end
        else
          match onTranscript with
          | Some callback =>
              callback {| text := transcript_text; confidence := confidence;
                          language := or_else language "en"; isFinal := false |}
          | None => ret tt
          end
  end.

Definition connection_on_Error : M unit :=
  logger LError "Deepgram error".

Definition connection_on_Close : M unit :=
  logger LInfo "Deepgram connection closed".

(** [send] and [close] of the returned object. *)
Definition deepgramSession_send (connection : nat) (audioData : nat) : M unit :=
  let! n := ask in
  if connection_throws W n then logger LError "Error sending audio to Deepgram"
  else emit (EvConnectionSend connection audioData).

Definition deepgramSession_close (connection : nat) : M unit :=
  let! n := ask in
  if connection_throws W n then logger LError "Error closing Deepgram connection"
  else emit (EvConnectionFinish connection).

Definition processFinalTranscript (meetingId speakerId speakerName : string)
    (transcript : Transcript) : M (option TranscriptRow) :=
  let! saved := saveTranscript meetingId speakerId speakerName
                  (text transcript) (language transcript) (confidence transcript) in
  match saved with
  | Some row =>
      logger LInfo "Transcript saved to database" ;;
      ret (Some row)
  | None => ret None
  end.

Definition checkDeepgramHealth : M Health :=
  let! st := get_state in
  if negb (deepgramClient st) then
    ret {| healthy := false; health_message := "Deepgram client not initialized";
           health_model := None |}
  else
    ret {| healthy := true; health_message := "Deepgram service operational";
           health_model := Some (deepgram_model cfg) |}.

(** *** src/livekit/agent.js *)

(** The caption object both transcript handlers build. *)
Definition caption_of (session : Session) (speakerId speakerName : string)
    (transcript : Transcript) (final : bool) : Caption :=
  {| cap_meetingId := s_meetingId session;
     cap_speakerId := speakerId;
     cap_speakerName := speakerName;
     cap_originalText := text transcript;
     cap_originalLanguage := language transcript;
     cap_translatedText := None;
     cap_targetLanguage := None;
     cap_isFinal := final;
     cap_confidence := confidence transcript |}.

Definition handleInterimTranscript (session : Session) (speakerId speakerName : string)
    (transcript : Transcript) : M unit :=
  try_catch
    (broadcastCaption (room session)
       (caption_of session speakerId speakerName transcript false) ;;
     ret tt)
    (λ _, logger LError "Error handling interim transcript").

Definition handleFinalTranscript (session : Session) (speakerId speakerName : string)
    (transcript : Transcript) : M unit :=
  try_catch
    (let! saved :=
       processFinalTranscript (s_meetingId session) speakerId speakerName transcript in
     match saved with
     | Some _ => ret tt
     | None => logger LWarn "Failed to save transcript"
     end ;;
     let! participantLangs := getMeetingLanguages (s_meetingId session) in
     if negb (features_translation cfg) || (length participantLangs =? 0)%nat then
       broadcastCaption (room session)
         (caption_of session speakerId speakerName transcript true) ;;
       ret tt
     else
       let! captionsWithTranslations :=
         map_all participantLangs
           (λ p,
              let! translated :=
                translateText (text transcript) (language transcript)
                  (pref_language p) (tr_id <$> saved) in
              ret {| participantIdentity := userId p;
                     ct_language := pref_language p;
                     ct_translatedText := translated |}) in
       sendTranslatedCaptions (room session)
         (caption_of session speakerId speakerName transcript true)
         captionsWithTranslations ;;
       ret tt)
    (λ _, logger LError "Error handling final transcript").

Definition session_transcriptionSessions (session : Session) : M (list (string * nat)) :=
  let! st := get_state in
  ret (default [] (transcriptionSessions st !! room session)).

Definition handleAudioTrack (session : Session) (audioTrack : nat)
    (participant : Participant) : M unit :=
  let participantId := identity participant in
  try_catch
    (let callbacks := {| cb_session := session;
                         cb_participantId := participantId;
                         cb_participantName := name participant |} in
     let! deepgramSession :=
       createTranscriptionSession
         {| opt_meetingId := s_meetingId session; opt_language := Some "en" |}
         (Some callbacks) (Some callbacks) in
     let! current := session_transcriptionSessions session in
     modify (set_transcriptionSessions
               <[room session := JsMap.set participantId deepgramSession current]>) ;;
     logger LInfo "Audio processing started")
    (λ _, logger LError "Error handling audio track").

(** The ['data'] listener that handleAudioTrack puts on the track. *)
Definition audioTrack_on_data (deepgramSession : nat) (chunk : nat) : M unit :=
  deepgramSession_send deepgramSession chunk.

(** An event of a recognizer connection, run through the handlers that
    createTranscriptionSession registered with the callbacks of
    handleAudioTrack. *)
Definition connection_emit (connection : nat) (ev : LiveTranscriptionEvent) : M unit :=
  let! st := get_state in
  match connections st !! connection with
  | None => ret tt
  | Some c =>
      match ev with
      | OnOpen => connection_on_Open
      | OnTranscript data =>
          connection_on_Transcript (conn_language c)
            ((λ cb, handleInterimTranscript (cb_session cb) (cb_participantId cb)
                      (cb_participantName cb)) <$> conn_onTranscript c)
            ((λ cb, handleFinalTranscript (cb_session cb) (cb_participantId cb)
                      (cb_participantName cb)) <$> conn_onFinalTranscript c)
            data
      | OnError => connection_on_Error
      | OnClose => connection_on_Close
      end
  end.

Definition subscribeToParticipant (session : Session) (participant : Participant) : M unit :=
  for_of (tracks participant)
    (λ publication,
       match pub_kind publication, pub_track publication with
       | Audio, Some track => handleAudioTrack session track participant
       | _, _ => ret tt
       end).

Definition stopTranscriptionForParticipant (session : Session) (participantId : string)
    : M unit :=
  let! current := session_transcriptionSessions session in
  match JsMap.get participantId current with
  | Some deepgramSession =>
      deepgramSession_close deepgramSession ;;
      modify (set_transcriptionSessions
                <[room session := JsMap.delete participantId current]>) ;;
      logger LInfo "Transcription stopped for participant"
  | None => ret tt
  end.

Definition unsubscribeFromParticipant (session : Session) (participant : Participant)
    : M unit :=
  stopTranscriptionForParticipant session (identity participant).

Definition cleanupSession (meetingId : string) : M unit :=
  let! st := get_state in
  match activeSessions st !! meetingId with
  | None => ret tt
  | Some session =>
      let! current := session_transcriptionSessions session in
      for_of current (λ entry, deepgramSession_close entry.2) ;;
      let! n := request in
      match room_disconnect_throws W n with
      | Some error_message => throw error_message
      | None => emit (EvRoomDisconnect (room session))
      end ;;
      modify (set_activeSessions (delete meetingId)) ;;
      logger LInfo "Session cleaned up"
  end.

Definition startTranscription (meetingId livekitRoomName token : string) : M Outcome :=
  if negb (features_transcription cfg) then
    logger LWarn "Transcription feature disabled" ;;
    ret {| success := false; message := "Transcription disabled" |}
  else
    let! st := get_state in
    match activeSessions st !! meetingId with
    | Some _ =>
        logger LWarn "Transcription already active for meeting" ;;
        ret {| success := false; message := "Already transcribing" |}
    | None =>
        try_catch
          (let room := rooms st in
           modify (set_rooms S) ;;
           let! n := request in
           match room_connect W n with
           | inl error_message =>
               emit (EvRoomConnect room false) ;;
               throw error_message
           | inr participants =>
               emit (EvRoomConnect room true) ;;
               logger LInfo "Agent connected to room" ;;
               sendSystemMessage room "Live transcription started" None ;;
               let session := {| room := room; s_meetingId := meetingId |} in
               modify (set_activeSessions <[meetingId := session]>) ;;
               for_of participants (subscribeToParticipant session) ;;
               ret {| success := true; message := "Transcription started" |}
           end)
          (λ error_message,
             logger LError "Error starting transcription" ;;
             ret {| success := false; message := error_message |})
    end.

Definition stopTranscription (meetingId : string) : M Outcome :=
  let! st := get_state in
  match activeSessions st !! meetingId with
  | None => ret {| success := false; message := "No active session" |}
  | Some session =>
      try_catch
        (sendSystemMessage (room session) "Live transcription stopped" None ;;
         cleanupSession meetingId ;;
         ret {| success := true; message := "Transcription stopped" |})
        (λ error_message,
           logger LError "Error stopping transcription" ;;
           ret {| success := false; message := error_message |})
  end.

(** The listeners that startTranscription puts on the room. *)
Definition room_on_ParticipantConnected (session : Session) (participant : Participant)
    : M unit :=
  logger LInfo "Participant joined" ;;
  subscribeToParticipant session participant.

Definition room_on_ParticipantDisconnected (session : Session) (participant : Participant)
    : M unit :=
  logger LInfo "Participant left" ;;
  unsubscribeFromParticipant session participant.

Definition room_on_TrackSubscribed (session : Session) (kind : TrackKind) (track : nat)
    (participant : Participant) : M unit :=
  match kind with
  | Audio =>
      logger LInfo "Audio track subscribed" ;;
      handleAudioTrack session track participant
  | Video => ret tt
  end.

Definition room_on_TrackUnsubscribed (session : Session) (kind : TrackKind)
    (participant : Participant) : M unit :=
  match kind with
  | Audio =>
      logger LInfo "Audio track unsubscribed" ;;
      stopTranscriptionForParticipant session (identity participant)
  | Video => ret tt
  end.

Definition room_on_Disconnected (session : Session) : M unit :=
  logger LInfo "Agent disconnected from room" ;;
  cleanupSession (s_meetingId session).

Definition isTranscribing (meetingId : string) : M bool :=
  let! st := get_state in
  ret (bool_decide (is_Some (activeSessions st !! meetingId))).

End Program.

(** ** A starting state and a sample deployment *)

(** The process right after start-up: empty cache, no sessions, empty tables. *)
Definition initial_state : State :=
  {| clock := 0; requests := 0;
     translationCache := NodeCache.create;
     meeting_transcripts := []; meeting_translations := [];
     meeting_participants := []; user_settings := [];
     deepgramClient := false; connections := ∅;
     rooms := 0; transcriptionSessions := ∅;
     activeSessions := ∅; trace := [] |}.

(** The configuration env.js builds when every feature is switched on and
    the other variables keep their defaults. *)
Definition sample_config : Config :=
  {| livekit_url := "wss://example.livekit.cloud";
     deepgram_apiKey := Some "key";
     deepgram_model := "nova-2";
     deepgram_language := "en";
     translation_service := "libretranslate";
     translation_libretranslateUrl := "https://libretranslate.de";
     translation_googleApiKey := None;
     features_transcription := true;
     features_translation := true;
     features_cacheTranslations := true |}.

(** CACHE_TRANSLATIONS=false *)
Definition no_cache_config : Config :=
  {| livekit_url := livekit_url sample_config;
     deepgram_apiKey := deepgram_apiKey sample_config;
     deepgram_model := deepgram_model sample_config;
     deepgram_language := deepgram_language sample_config;
     translation_service := translation_service sample_config;
     translation_libretranslateUrl := translation_libretranslateUrl sample_config;
     translation_googleApiKey := translation_googleApiKey sample_config;
     features_transcription := true;
     features_translation := true;
     features_cacheTranslations := false |}.

(** A world in which every collaborator works, every request takes 20 ms,
    and the translation provider knows Spanish and French but fails for
    Tamil. *)
Definition sample_world : World :=
  {| axios_post := λ _ _ q _ target,
       if String.eqb target "es" then Some ("es:" ++ q)
       else if String.eqb target "fr" then Some ("fr:" ++ q)
       else None;
     supabase_error := λ _, false;
     gen_random_uuid := λ n, "row-" ++ pretty n;
     uuidv4 := λ n, "msg-" ++ pretty n;
     publishData_throws := λ _, false;
     room_connect := λ _, inr [];
     room_disconnect_throws := λ _, None;
     listen_live_throws := λ _, None;
     connection_throws := λ _, false;
     elapsed := λ _, 20 |}.

(** A world in which the database is down. *)
Definition outage_world : World :=
  {| axios_post := axios_post sample_world;
     supabase_error := λ _, true;
     gen_random_uuid := gen_random_uuid sample_world;
     uuidv4 := uuidv4 sample_world;
     publishData_throws := publishData_throws sample_world;
     room_connect := room_connect sample_world;
     room_disconnect_throws := room_disconnect_throws sample_world;
     listen_live_throws := listen_live_throws sample_world;
     connection_throws := connection_throws sample_world;
     elapsed := elapsed sample_world |}.

(** Speaker A, publishing one audio track. *)
Definition alice : Participant :=
  {| identity := "A"; name := "Alice";
     tracks := [ {| pub_kind := Audio; pub_track := Some 7%nat |} ] |}.

(** A world in which the agent finds speaker A in the room it joins. *)
Definition meeting_world : World :=
  {| axios_post := axios_post sample_world;
     supabase_error := supabase_error sample_world;
     gen_random_uuid := gen_random_uuid sample_world;
     uuidv4 := uuidv4 sample_world;
     publishData_throws := publishData_throws sample_world;
     room_connect := λ _, inr [alice];
     room_disconnect_throws := room_disconnect_throws sample_world;
     listen_live_throws := listen_live_throws sample_world;
     connection_throws := connection_throws sample_world;
     elapsed := elapsed sample_world |}.

(** The final transcript of the scenario and the session it belongs to. *)
Definition hello_everyone : Transcript :=
  {| text := "Hello everyone"; confidence := (95 # 100)%Q;
     language := "en"; isFinal := true |}.

Definition scenario_session : Session := {| room := 0; s_meetingId := "m-1" |}.

(** An interim recognizer event. *)
Definition interim_event : DeepgramData :=
  {| alternative0 := Some {| alt_transcript := Some "Hello every";
                             alt_confidence := Some (80 # 100)%Q |};
     is_final := Some false |}.

(** The meeting of the specification's scenario: speaker A has said "Hello
    everyone" (stored as transcript t-1); listener B prefers Tamil and
    listener C English.  A third listener, D, prefers Spanish. *)
Definition scenario_state : State :=
  {| clock := 1000; requests := 0;
     translationCache := NodeCache.create;
     meeting_transcripts :=
       [ {| tr_id := "t-1"; tr_meeting_id := "m-1"; tr_speaker_id := "A";
            tr_speaker_name := "Alice"; tr_original_text := "Hello everyone";
            tr_detected_language := "en"; tr_confidence := (95 # 100)%Q;
            tr_timestamp_ms := 1000 |} ];
     meeting_translations := [];
     meeting_participants :=
       [ {| mp_meeting_id := "m-1"; mp_user_id := "B" |};
         {| mp_meeting_id := "m-1"; mp_user_id := "C" |};
         {| mp_meeting_id := "m-1"; mp_user_id := "D" |} ];
     user_settings :=
       [ {| us_user_id := "B"; us_preferred_language := Some "ta" |};
         {| us_user_id := "C"; us_preferred_language := Some "en" |};
         {| us_user_id := "D"; us_preferred_language := Some "es" |} ];
     deepgramClient := false; connections := ∅;
     rooms := 0; transcriptionSessions := ∅;
     activeSessions := ∅; trace := [] |}.

(** ** What a run leaves behind *)

(** The answers of the translation provider recorded in a trace, newest
    first: one element per request made to it. *)
Fixpoint provider_responses (tr : list Event) : list (option string) :=
  match tr with
  | [] => []
  | EvAxiosPost _ _ _ _ response :: tr' => response :: provider_responses tr'
  | _ :: tr' => provider_responses tr'
  end.

(** The payloads handed to the transport, newest first, with their
    destination ([None]: everybody in the room). *)
Fixpoint published (tr : list Event) : list (Payload * option (list string)) :=
  match tr with
  | [] => []
  | EvPublishData _ payload destination _ :: tr' => (payload, destination) :: published tr'
  | _ :: tr' => published tr'
  end.

(** The recognizer connections opened, newest first. *)
Fixpoint connections_opened (tr : list Event) : list nat :=
  match tr with
  | [] => []
  | EvListenLive connection _ :: tr' => connection :: connections_opened tr'
  | _ :: tr' => connections_opened tr'
  end.

(** The system notices ('system' messages) handed to the transport. *)
Fixpoint system_notices (tr : list Event) : list string :=
  match tr with
  | [] => []
  | EvPublishData _ (SystemPayload _ message _) _ _ :: tr' => message :: system_notices tr'
  | _ :: tr' => system_notices tr'
  end.

(** The recognizer connections that were closed ([connection.finish()]
    returned), newest first. *)
Fixpoint connections_finished (tr : list Event) : list nat :=
  match tr with
  | [] => []
  | EvConnectionFinish connection :: tr' => connection :: connections_finished tr'
  | _ :: tr' => connections_finished tr'
  end.

(** The text normalisation the specification speaks of: surrounding white
    space trimmed, every inner run of white space collapsed to one blank. *)
Definition spec_normalize (s : string) : string :=
  String.concat " " (String.words s).

(** Storing a list of translations in the cache, one [set] after the other. *)
Definition store_all (now : N) (entries : list (string * string)) (c : NodeCache.Cache)
    : NodeCache.Cache :=
  fold_left
    (λ c e, default c (NodeCache.set translationCache_options now e.1 e.2 c))
    entries c.

(** ** Relations between the state before and after a run *)

(** Time only moves forward and requests are only counted up. *)
Definition time_passes (st st' : State) : Prop :=
  clock st ≤ clock st' ∧ (requests st ≤ requests st')%nat.

(** The tables that only the transcript handlers and the settings
    endpoints write. *)
Definition same_settings (st st' : State) : Prop :=
  meeting_participants st' = meeting_participants st
  ∧ user_settings st' = user_settings st.

(** The orchestrator's registry and the recognizer connections. *)
Definition same_sessions (st st' : State) : Prop :=
  deepgramClient st' = deepgramClient st
  ∧ connections st' = connections st
  ∧ rooms st' = rooms st
  ∧ transcriptionSessions st' = transcriptionSessions st
  ∧ activeSessions st' = activeSessions st.

(** Nothing was handed to the transport and no recognizer connection was
    opened. *)
Definition same_delivery (st st' : State) : Prop :=
  published (trace st') = published (trace st)
  ∧ connections_opened (trace st') = connections_opened (trace st).

(** What the translator never touches. *)
Definition bystanders (st st' : State) : Prop :=
  time_passes st st'
  ∧ meeting_transcripts st' = meeting_transcripts st
  ∧ same_settings st st'
  ∧ same_sessions st st'
  ∧ same_delivery st st'.

(** A run that only waited and wrote log lines. *)
Definition quiet (st st' : State) : Prop :=
  bystanders st st'
  ∧ translationCache st' = translationCache st
  ∧ meeting_translations st' = meeting_translations st
  ∧ provider_responses (trace st') = provider_responses (trace st).

(** The four ways a translation request for a foreign language ends. *)
Definition served_from_memory (cfg : Config) (key : string) (st : State)
    (r : string) (st' : State) : Prop :=
  features_cacheTranslations cfg = true
  ∧ ∃ e, NodeCache.data (translationCache st) !! key = Some e
         ∧ NodeCache.expired (clock st) e = false
         ∧ truthy (NodeCache.v e) = true
         ∧ r = NodeCache.v e
         ∧ NodeCache.data (translationCache st') = NodeCache.data (translationCache st)
         ∧ requests st' = requests st
         ∧ meeting_translations st' = meeting_translations st
         ∧ provider_responses (trace st') = provider_responses (trace st).

Definition served_from_database (cfg : Config) (key targetLang : string)
    (transcriptId : option string) (st : State) (r : string) (st' : State) : Prop :=
  features_cacheTranslations cfg = true
  ∧ ∃ id row, transcriptId = Some id
         ∧ row ∈ meeting_translations st
         ∧ translation_row_matches id targetLang row = true
         ∧ tl_translated_text row = r
         ∧ truthy r = true
         ∧ NodeCache.data (translationCache st') !! key
           = Some {| NodeCache.t := clock st' + 3600 * 1000; NodeCache.v := r |}
         ∧ meeting_translations st' = meeting_translations st
         ∧ provider_responses (trace st') = provider_responses (trace st).

(** The cache and the four tables are as before. *)
Definition stores_untouched (st st' : State) : Prop :=
  translationCache st' = translationCache st
  ∧ meeting_transcripts st' = meeting_transcripts st
  ∧ meeting_translations st' = meeting_translations st
  ∧ same_settings st st'.

(** A run that only handed [new] to the transport (newest first). *)
Definition delivered (st st' : State) (new : list (Payload * option (list string))) : Prop :=
  time_passes st st'
  ∧ stores_untouched st st'
  ∧ same_sessions st st'
  ∧ provider_responses (trace st') = provider_responses (trace st)
  ∧ connections_opened (trace st') = connections_opened (trace st)
  ∧ published (trace st') = (new ++ published (trace st))%list.

(** A run that made one database request and at most added a transcript. *)
Definition recorded (st st' : State) : Prop :=
  requests st' = S (requests st)
  ∧ clock st ≤ clock st'
  ∧ (∃ rows, meeting_transcripts st' = (meeting_transcripts st ++ rows)%list)
  ∧ translationCache st' = translationCache st
  ∧ meeting_translations st' = meeting_translations st
  ∧ same_settings st st'
  ∧ same_sessions st st'
  ∧ same_delivery st st'
  ∧ provider_responses (trace st') = provider_responses (trace st).

(** The lookup of the listeners' languages started in [st] comes back
    empty: the participants query fails, or the meeting has no participant
    rows, or the settings query fails. *)
Definition preferences_unavailable (W : World) (st : State) (meetingId : string) : Prop :=
  supabase_error W (requests st) = true
  ∨ filter (λ p, String.eqb (mp_meeting_id p) meetingId = true) (meeting_participants st) = []
  ∨ supabase_error W (S (requests st)) = true.

(** The registry of active sessions and the room counter are as before. *)
Definition registry_kept (st st' : State) : Prop :=
  activeSessions st' = activeSessions st ∧ rooms st' = rooms st.

(** Whatever is cached for a target language, in memory or in the
    database, and would be served (a non-empty string), is [value]. *)
Definition agrees (st : State) (text sourceLang targetLang : string)
    (transcriptId : option string) (value : string) : Prop :=
  (∀ e, NodeCache.data (translationCache st) !! cacheKey text sourceLang targetLang = Some e →
        truthy (NodeCache.v e) = true → NodeCache.v e = value)
  ∧ (∀ id row, transcriptId = Some id → row ∈ meeting_translations st →
        translation_row_matches id targetLang row = true →
        truthy (tl_translated_text row) = true → tl_translated_text row = value).

(** Nothing is cached for a target language: no memory entry under its key
    and no stored translation of the transcript into it. *)
Definition nothing_cached (st : State) (text sourceLang targetLang : string)
    (transcriptId : option string) : Prop :=
  NodeCache.data (translationCache st) !! cacheKey text sourceLang targetLang = None
  ∧ (∀ id row, transcriptId = Some id → row ∈ meeting_translations st →
        translation_row_matches id targetLang row = false).

(** The provider gave this answer to a request for this text and target. *)
Definition answered (W : World) (text targetLang : string) (response : option string) : Prop :=
  ∃ n url source, axios_post W n url text source targetLang = response.

(** The Google service needs its API key. *)
Definition provider_configured (cfg : Config) : Prop :=
  translation_service cfg = "google" → truthy_opt (translation_googleApiKey cfg) = true.

(** The one configuration in which translateText cannot reach a provider:
    the Google service is selected and translateWithGoogle finds no API
    key. *)
Definition provider_unusable (cfg : Config) : bool :=
  String.eqb (translation_service cfg) "google"
  && negb (truthy_opt (translation_googleApiKey cfg)).

(** How the provider treats requests for a target language: it fails every
    time and the caption falls back to the text, or it returns [value] every
    time. *)
Definition resolves (W : World) (cfg : Config) (text targetLang value : string) : Prop :=
  (value = text ∧ ∀ n url source, axios_post W n url text source targetLang = None)
  ∨ ((∀ n url source, axios_post W n url text source targetLang = Some value)
     ∧ provider_configured cfg).

(** The row saveTranslation inserts. *)
Definition translation_row (cfg : Config) (transcriptId targetLang translated : string)
    : TranslationRow :=
  {| tl_transcript_id := transcriptId; tl_target_language := targetLang;
     tl_translated_text := translated;
     tl_translation_service := translation_service cfg |}.

(** The other two ways (see [served_from_memory]). *)
Definition translated_by_provider (W : World) (cfg : Config)
    (text key targetLang : string) (transcriptId : option string)
    (st : State) (r : string) (st' : State) : Prop :=
  provider_responses (trace st') = Some r :: provider_responses (trace st)
  ∧ answered W text targetLang (Some r)
  ∧ provider_configured cfg
  ∧ (if features_cacheTranslations cfg
     then ∃ stored, clock st ≤ stored ∧ stored ≤ clock st'
            ∧ NodeCache.data (translationCache st') !! key
              = Some {| NodeCache.t := stored + 3600 * 1000; NodeCache.v := r |}
     else NodeCache.data (translationCache st') = NodeCache.data (translationCache st))
  ∧ (meeting_translations st' = meeting_translations st
     ∨ (features_cacheTranslations cfg = true
        ∧ ∃ id, transcriptId = Some id ∧ truthy id = true
            ∧ meeting_translations st'
              = (meeting_translations st ++ [translation_row cfg id targetLang r])%list)).

Definition fell_back (W : World) (cfg : Config) (text targetLang : string)
    (st : State) (r : string) (st' : State) : Prop :=
  r = text
  ∧ NodeCache.data (translationCache st') ⊆ NodeCache.data (translationCache st)
  ∧ meeting_translations st' = meeting_translations st
  ∧ ((provider_responses (trace st') = None :: provider_responses (trace st)
      ∧ answered W text targetLang None)
     ∨ (provider_responses (trace st') = provider_responses (trace st)
        ∧ ¬ provider_configured cfg)).

(** The listeners of a meeting with their languages, as
    getMeetingLanguages computes them from the two tables when both queries
    succeed. *)
Definition listeners (st : State) (meetingId : string) : list LanguagePreference :=
  let participants :=
    filter (λ p, String.eqb (mp_meeting_id p) meetingId = true) (meeting_participants st) in
  let settings :=
    filter (λ s, existsb (String.eqb (us_user_id s)) (map mp_user_id participants) = true)
      (user_settings st) in
  map (λ e, {| userId := e.1; pref_language := e.2 |})
    (fold_left
       (λ m p,
          JsMap.set (mp_user_id p)
            (or_else (find (λ s, String.eqb (us_user_id s) (mp_user_id p)) settings
                        ≫= us_preferred_language) "en") m)
       participants []).

(** The message sendTranslatedCaptions hands to the transport for one
    listener. *)
Definition caption_for (caption : Caption) (target : CaptionTarget)
    (pub : Payload * option (list string)) : Prop :=
  ∃ msg, pub = (CaptionPayload msg, Some [participantIdentity target])
         ∧ originalText msg = cap_originalText caption
         ∧ translatedText msg
           = Some (or_else (Some (ct_translatedText target)) (cap_originalText caption))
         ∧ targetLanguage msg = Some (ct_language target)
         ∧ msg_isFinal msg = cap_isFinal caption.

(** What a request for a translation into [lang] returns is known to be
    [value lang]: the language is the source language, or everything
    cached for it and every answer of the provider agree on that value. *)
Definition known (W : World) (cfg : Config) (text sourceLang : string)
    (transcriptId : option string) (value : string → string) (st : State)
    (lang : string) : Prop :=
  (lang = sourceLang ∧ value lang = text)
  ∨ (lang ≠ sourceLang
     ∧ resolves W cfg text lang (value lang)
     ∧ agrees st text sourceLang lang transcriptId (value lang)).

(** ** More relations and sample data *)

(** A list of transcripts in ascending order of time stamps. *)
Definition in_time_order : list TranscriptRow → Prop :=
  StronglySorted (λ r1 r2, tr_timestamp_ms r1 ≤ tr_timestamp_ms r2).

(** The language getMeetingLanguages gives a user: the preference of the
    first settings row of the user among those of the meeting's
    participants, or 'en'. *)
Definition language_of (st : State) (meetingId user : string) : string :=
  or_else
    (find (λ s, String.eqb (us_user_id s) user)
       (filter (λ s, existsb (String.eqb (us_user_id s))
                       (map mp_user_id
                          (filter (λ p, String.eqb (mp_meeting_id p) meetingId = true)
                             (meeting_participants st))) = true)
          (user_settings st))
     ≫= us_preferred_language) "en".


(** The lookups the translation cache has counted: hits and misses. *)
Definition lookups (st : State) : nat :=
  (NodeCache.hits (translationCache st) + NodeCache.misses (translationCache st))%nat.

(** A run that only set up recognizer connections for audio tracks: the
    registry, the tables and what was handed to the transport are as
    before, and without an API key and an initialised client no connection
    is opened. *)
Definition subscribing (cfg : Config) (st st' : State) : Prop :=
  registry_kept st st'
  ∧ stores_untouched st st'
  ∧ published (trace st') = published (trace st)
  ∧ system_notices (trace st') = system_notices (trace st)
  ∧ (truthy_opt (deepgram_apiKey cfg) = false → deepgramClient st = false →
       deepgramClient st' = false
       ∧ connections st' = connections st
       ∧ transcriptionSessions st' = transcriptionSessions st
       ∧ connections_opened (trace st') = connections_opened (trace st)).

(** The tracks subscribeToParticipant starts a recognizer for: those of the
    participant's audio publications that carry a track. *)
Definition audio_tracks (participant : Participant) : list nat :=
  omap (λ publication,
          match pub_kind publication with
          | Audio => pub_track publication
          | Video => None
          end) (tracks participant).

(** TRANSLATION_SERVICE=google without GOOGLE_TRANSLATE_API_KEY *)
Definition google_config : Config :=
  {| livekit_url := livekit_url sample_config;
     deepgram_apiKey := deepgram_apiKey sample_config;
     deepgram_model := deepgram_model sample_config;
     deepgram_language := deepgram_language sample_config;
     translation_service := "google";
     translation_libretranslateUrl := translation_libretranslateUrl sample_config;
     translation_googleApiKey := None;
     features_transcription := true;
     features_translation := true;
     features_cacheTranslations := true |}.

(** ENABLE_TRANSCRIPTION=true without DEEPGRAM_API_KEY *)
Definition no_key_config : Config :=
  {| livekit_url := livekit_url sample_config;
     deepgram_apiKey := None;
     deepgram_model := deepgram_model sample_config;
     deepgram_language := deepgram_language sample_config;
     translation_service := translation_service sample_config;
     translation_libretranslateUrl := translation_libretranslateUrl sample_config;
     translation_googleApiKey := translation_googleApiKey sample_config;
     features_transcription := true;
     features_translation := true;
     features_cacheTranslations := true |}.

(** The world of the meeting, but the room cannot be left. *)
Definition stuck_world : World :=
  {| axios_post := axios_post meeting_world;
     supabase_error := supabase_error meeting_world;
     gen_random_uuid := gen_random_uuid meeting_world;
     uuidv4 := uuidv4 meeting_world;
     publishData_throws := publishData_throws meeting_world;
     room_connect := room_connect meeting_world;
     room_disconnect_throws := λ _, Some "could not leave the room";
     listen_live_throws := listen_live_throws meeting_world;
     connection_throws := connection_throws meeting_world;
     elapsed := elapsed meeting_world |}.

(** A final recognizer event. *)
Definition final_event : DeepgramData :=
  {| alternative0 := Some {| alt_transcript := Some "Hello everyone";
                             alt_confidence := Some (95 # 100)%Q |};
     is_final := Some true |}.

(** The meeting of the scenario after the agent has joined it: connection
    2 is the recognizer connection of speaker A. *)
Definition joined_state : State :=
  (startTranscription meeting_world sample_config "m-1" "room-1" "token" scenario_state).2.

(** The scenario after the Spanish translation of transcript t-1 has been
    stored in the database (and not in the memory cache). *)
Definition translated_state : State :=
  (saveTranslation sample_world "t-1" "es" "Hola a todos" "libretranslate" scenario_state).2.

(** ** src/config/env.js: the order of the application stack

    Express hands a request to the functions registered with app.use and
    app.get, app.post and app.put in the order of their registration.  A
    function with three parameters may hand the request on with next(); one
    with two parameters (every route handler of the file, and the 404
    handler) cannot.  What a function throws or gives to next goes to the
    functions with four parameters registered after it.  A layer is named
    by the line of its registration in src/config/env.js. *)

Module Server.

Inductive Method : Type := GET | POST | PUT.

Inductive Layer : Type :=
  | Middleware (line : nat)                               (* app.use((req, res, next) => ...) *)
  | Route (line : nat) (method : Method) (path : string)  (* app.get(path, (req, res) => ...) *)
  | Terminal (line : nat)                                 (* app.use((req, res) => ...) *)
  | ErrorHandler (line : nat).                            (* app.use((err, req, res, next) => ...) *)

Definition app : list Layer :=
  [ Middleware 350;   (* cors *)
    Middleware 357;   (* express.json *)
    Middleware 365;   (* logs the request *)
    Route 373 POST "/livekit-webhook";
    Route 435 GET "/health";
    Route 446 GET "/";
    Route 461 POST "/create-meeting";
    Route 552 POST "/join-meeting";
    Route 590 POST "/end-meeting";
    Route 631 POST "/create-meeting-with-details";
    Route 681 POST "/join-meeting-track";
    Route 728 POST "/save-transcript";
    Route 752 GET "/meeting-history/:userId";
    Route 770 GET "/meeting-details/:meetingId";
    Terminal 803;     (* answers 404, Endpoint not found *)
    Route 811 POST "/end-meeting";
    Route 883 POST "/end-meeting-inactivity";
    Route 964 POST "/start-transcription/:meetingId";
    Route 1020 POST "/stop-transcription/:meetingId";
    Route 1040 GET "/meeting-transcripts/:meetingId";
    Route 1059 GET "/user-settings/:userId";
    Route 1077 PUT "/user-settings/:userId";
    Route 1101 GET "/transcription-sessions";
    Route 1117 GET "/health";
    ErrorHandler 1142 ].

(** What a function with a [next] parameter does with a request: it hands
    it on, it ends it (with a response, or with none), or it fails. *)
Inductive Step : Type := PassOn | Finish | Raise.

(** The parts the file leaves to Express and to the functions themselves:
    which requests a route matches, what a middleware does, and whether a
    handler's error reaches the error handlers. *)
Record Express (Request : Type) : Type :=
  { route_matches : Method → string → Request → bool;
    middleware_step : nat → Request → Step;
    handler_raises : nat → Request → bool }.
Arguments route_matches {Request}.
Arguments middleware_step {Request}.
Arguments handler_raises {Request}.

(** The functions an error is given to, in order. *)
Fixpoint on_error {Request : Type} (X : Express Request) (stack : list Layer)
    (req : Request) : list nat :=
  match stack with
  | [] => []
  | ErrorHandler line :: rest =>
      line :: (if handler_raises X line req then on_error X rest req else [])
  | _ :: rest => on_error X rest req
  end.

(** The functions a request is given to, in order. *)
Fixpoint handle {Request : Type} (X : Express Request) (stack : list Layer)
    (req : Request) : list nat :=
  match stack with
  | [] => []
  | Middleware line :: rest =>
      line :: match middleware_step X line req with
              | PassOn => handle X rest req
              | Finish => []
              | Raise => on_error X rest req
              end
  | Route line method path :: rest =>
      if route_matches X method path req
      then line :: (if handler_raises X line req then on_error X rest req else [])
      else handle X rest req
  | Terminal line :: rest =>
      line :: (if handler_raises X line req then on_error X rest req else [])
  | ErrorHandler _ :: rest => handle X rest req
  end.

(** The layers registered before the first function that takes every
    request and has no [next]. *)
Fixpoint before_terminal (stack : list Layer) : list Layer :=
  match stack with
  | [] => []
  | Terminal _ :: _ => []
  | layer :: rest => layer :: before_terminal rest
  end.

(** The error handlers of a stack, and the functions of a stack that a
    request or its error can be given to at all. *)
Fixpoint error_handlers (stack : list Layer) : list nat :=
  match stack with
  | [] => []
  | ErrorHandler line :: rest => line :: error_handlers rest
  | _ :: rest => error_handlers rest
  end.

Fixpoint within_reach (stack : list Layer) : list nat :=
  match stack with
  | [] => []
  | Middleware line :: rest => line :: within_reach rest
  | Route line _ _ :: rest => line :: within_reach rest
  | Terminal line :: rest => line :: error_handlers rest
  | ErrorHandler line :: rest => line :: within_reach rest
  end.

(** A request as far as the sample matcher looks at it. *)
Record SampleRequest : Type := { req_method : Method; req_path : string }.

Definition Method_eqb (a b : Method) : bool :=
  match a, b with
  | GET, GET | POST, POST | PUT, PUT => true
  | _, _ => false
  end.

(** The segments of a path, split at the slashes. *)
Fixpoint segments_from (current s : string) : list string :=
  match s with
  | EmptyString => [current]
  | String c s' =>
      if Ascii.eqb c "/" then current :: segments_from EmptyString s'
      else segments_from (current ++ String c EmptyString) s'
  end.

Definition segment_matches (pattern segment : string) : bool :=
  match pattern with
  | String c _ =>
      if Ascii.eqb c ":" then negb (String.eqb segment EmptyString)
      else String.eqb pattern segment
  | EmptyString => String.eqb segment EmptyString
  end.

Fixpoint segments_match (patterns path : list string) : bool :=
  match patterns, path with
  | [], [] => true
  | pattern :: patterns', segment :: path' =>
      segment_matches pattern segment && segments_match patterns' path'
  | _, _ => false
  end.

(** A deployment in which the three middleware hand every request on, no
    handler fails, and a route matches the requests of its method whose
    path has the segments of the route's path, a segment written with a
    colon standing for any segment that is not empty. *)
Definition sample_express : Express SampleRequest :=
  {| route_matches := λ method path req,
       Method_eqb method (req_method req)
       && segments_match (segments_from EmptyString path)
            (segments_from EmptyString (req_path req));
     middleware_step := λ _ _, PassOn;
     handler_raises := λ _ _, false |}.

End Server.

(** * Properties *)

(** ** Strings *)

Lemma append_cons (a : ascii) (s1 s2 : string) : String a s1 ++ s2 = String a (s1 ++ s2).
Proof. reflexivity. Qed.

Lemma length_append (s1 s2 : string) :
  String.length (s1 ++ s2) = (String.length s1 + String.length s2)%nat.
Proof.
  induction s1 as [|a s1 IH]; [reflexivity|].
  rewrite append_cons. simpl. by rewrite IH.
Qed.

Lemma append_inv_tail (s1 s2 x : string) : s1 ++ x = s2 ++ x → s1 = s2.
Proof.
  revert s2. induction s1 as [|a s1 IH]; intros [|b s2] H.
  - reflexivity.
  - apply (f_equal String.length) in H.
    rewrite !length_append in H. simpl in H. lia.
  - apply (f_equal String.length) in H.
    rewrite !length_append in H. simpl in H. lia.
  - rewrite !append_cons in H. injection H as -> H. f_equal. by apply IH.
Qed.

(** A map has exactly one entry under a key it is defined on. *)
Lemma size_filter_key {V} (m : gmap string V) (k : string) (x : V) :
  m !! k = Some x → size (filter (λ entry, entry.1 = k) m) = 1%nat.
Proof.
  intros Hk.
  assert (filter (λ entry, entry.1 = k) m = {[k := x]}) as ->.
  { apply map_eq. intros j. destruct (decide (j = k)) as [->|Hj].
    - rewrite lookup_singleton_eq. by apply map_lookup_filter_Some.
    - rewrite lookup_singleton_ne by done.
      apply map_lookup_filter_None. right. intros y _. done. }
  apply map_size_singleton.
Qed.

(** ** The cache key *)

(** C3, as the code has it: the key is the raw text followed by the two
    languages; for one source and one target language two texts have the
    same key exactly when they are the same string.  No normalisation is
    applied to the text. *)
Theorem cacheKey_equal_iff_text_equal (text1 text2 sourceLang targetLang : string) :
  cacheKey text1 sourceLang targetLang = cacheKey text2 sourceLang targetLang
  ↔ text1 = text2.
Proof.
  unfold cacheKey. split.
  - apply append_inv_tail.
  - by intros ->.
Qed.

(** Different target languages give different keys for one text. *)
Lemma cacheKey_target_inj (text sourceLang target1 target2 : string) :
  cacheKey text sourceLang target1 = cacheKey text sourceLang target2 → target1 = target2.
Proof.
  unfold cacheKey. intros H.
  by repeat (apply String.app_inj in H).
Qed.

(** ** The translation cache as a NodeCache instance *)

Lemma translationCache_set_Some (now : N) (key value : string) (c : NodeCache.Cache) :
  NodeCache.set translationCache_options now key value c
  = Some (NodeCache.with_data c
            (<[key := {| NodeCache.t := now + 3600 * 1000; NodeCache.v := value |}]>
               (NodeCache.data c))).
Proof. reflexivity. Qed.

Lemma expired_iff (now : N) (d : NodeCache.Wrapped) :
  NodeCache.expired now d = true ↔ NodeCache.t d ≠ 0 ∧ NodeCache.t d < now.
Proof.
  unfold NodeCache.expired.
  rewrite andb_true_iff, negb_true_iff, N.eqb_neq, N.ltb_lt. tauto.
Qed.

Lemma store_all_cons (now : N) (e : string * string) (entries : list (string * string))
    (c : NodeCache.Cache) :
  store_all now (e :: entries) c
  = store_all now entries
      (NodeCache.with_data c
         (<[e.1 := {| NodeCache.t := now + 3600 * 1000; NodeCache.v := e.2 |}]>
            (NodeCache.data c))).
Proof. reflexivity. Qed.

Lemma store_all_size (now : N) (entries : list (string * string)) (c : NodeCache.Cache) :
  NoDup entries.*1 →
  (∀ k, k ∈ entries.*1 → NodeCache.data c !! k = None) →
  size (NodeCache.data (store_all now entries c))
  = (size (NodeCache.data c) + length entries)%nat.
Proof.
  revert c. induction entries as [|[k x] entries IH]; intros c Hnd Hfresh.
  - simpl. lia.
  - rewrite store_all_cons. rewrite fmap_cons in Hnd, Hfresh.
    apply NoDup_cons in Hnd as [Hk Hnd].
    rewrite IH; [| done |].
    + simpl. rewrite map_size_insert_None; [lia|].
      apply Hfresh. by left.
    + intros k' Hk'. simpl. rewrite lookup_insert_ne.
      * apply Hfresh. by right.
      * intros <-. done.
Qed.

Lemma store_all_unexpired (now : N) (entries : list (string * string)) (c : NodeCache.Cache) :
  (∀ k d, NodeCache.data c !! k = Some d → NodeCache.expired now d = false) →
  ∀ k d, NodeCache.data (store_all now entries c) !! k = Some d →
         NodeCache.expired now d = false.
Proof.
  revert c. induction entries as [|[k x] entries IH]; intros c Hc; [done|].
  rewrite store_all_cons. apply IH. simpl. intros k' d.
  rewrite lookup_insert. case_decide.
  - intros [= <-]. apply not_true_iff_false. rewrite expired_iff. simpl. lia.
  - apply Hc.
Qed.

(** A lookup either finds an entry that has not expired, or misses and
    leaves no entry under the key. *)
Lemma NodeCache_get_cases (now : N) (key : string) (c : NodeCache.Cache) :
  (∃ e, NodeCache.data c !! key = Some e
        ∧ NodeCache.expired now e = false
        ∧ NodeCache.get translationCache_options now key c
          = (Some (NodeCache.v e), NodeCache.hit c))
  ∨ (∃ c', NodeCache.get translationCache_options now key c = (None, c')
           ∧ NodeCache.data c' = delete key (NodeCache.data c)
           ∧ ∀ e, NodeCache.data c !! key = Some e → NodeCache.expired now e = true).
Proof.
  unfold NodeCache.get.
  destruct (NodeCache.data c !! key) as [e|] eqn:He.
  - unfold NodeCache.check. destruct (NodeCache.expired now e) eqn:Hx.
    + right. eexists. split; [reflexivity|]. split; [reflexivity|].
      by intros ? [= <-].
    + left. by exists e.
  - right. eexists. split; [reflexivity|]. split; [|done].
    simpl. by rewrite delete_id.
Qed.

(** C4, as the code has it: the cache is created with a standard
    time-to-live of 3600 seconds and nothing else.  A stored translation is
    returned up to 3600 s after it was stored and is a miss (and deleted)
    after that; storing never fails and never evicts: every other entry
    stays, and a new key makes the cache one entry larger, whatever its
    size. *)
Theorem translationCache_expiry_only (now : N) (key value : string) (c : NodeCache.Cache) :
  ∃ c', NodeCache.set translationCache_options now key value c = Some c'
    ∧ (∀ later, later ≤ now + 3600 * 1000 →
         (NodeCache.get translationCache_options later key c').1 = Some value)
    ∧ (∀ later, now + 3600 * 1000 < later →
         (NodeCache.get translationCache_options later key c').1 = None)
    ∧ (∀ other, other ≠ key → NodeCache.data c' !! other = NodeCache.data c !! other)
    ∧ (NodeCache.data c !! key = None →
         size (NodeCache.data c') = S (size (NodeCache.data c))).
Proof.
  eexists. split; [apply translationCache_set_Some|].
  repeat split.
  - intros later Hlater. unfold NodeCache.get. simpl. rewrite lookup_insert_eq.
    unfold NodeCache.check.
    destruct (NodeCache.expired later _) eqn:He; [|done].
    apply expired_iff in He. simpl in He. lia.
  - intros later Hlater. unfold NodeCache.get. simpl. rewrite lookup_insert_eq.
    unfold NodeCache.check.
    destruct (NodeCache.expired later _) eqn:He; [done|].
    apply not_true_iff_false in He. rewrite expired_iff in He. simpl in He. lia.
  - intros other Hother. simpl. by rewrite lookup_insert_ne.
  - intros Hfresh. simpl. by apply map_size_insert_None.
Qed.

(** ** Frames *)

Lemma bystanders_refl (st : State) : bystanders st st.
Proof.
  unfold bystanders, time_passes, same_settings, same_sessions, same_delivery.
  naive_solver lia.
Qed.

Lemma bystanders_trans (st1 st2 st3 : State) :
  bystanders st1 st2 → bystanders st2 st3 → bystanders st1 st3.
Proof.
  unfold bystanders, time_passes, same_settings, same_sessions, same_delivery.
  intros (?&?&?&?&?) (?&?&?&?&?). destruct_and!.
  repeat split; (lia || congruence).
Qed.

(** ** Running the monad *)

(** Projections of updated states. *)
Ltac simpl_state :=
  cbn [clock requests translationCache meeting_transcripts meeting_translations
       meeting_participants user_settings deepgramClient connections rooms
       transcriptionSessions activeSessions trace
       set_clock set_requests set_translationCache set_meeting_transcripts
       set_meeting_translations set_user_settings set_deepgramClient set_connections
       set_rooms
       set_transcriptionSessions set_activeSessions set_trace
       provider_responses published connections_opened system_notices
       connections_finished
       fst snd] in *.

Ltac open_frames :=
  repeat match goal with
    | H : quiet _ _ |- _ => destruct H as (? & ? & ? & ?)
    | H : bystanders _ _ |- _ => destruct H as ((?&?)&?&(?&?)&(?&?&?&?&?)&(?&?))
    end.

Ltac solve_frame :=
  open_frames;
  unfold quiet, bystanders, time_passes, same_settings, same_sessions, same_delivery;
  simpl_state; repeat split; first [reflexivity | lia | congruence].

Ltac solve_delivered :=
  open_frames;
  unfold delivered, stores_untouched, time_passes, same_settings, same_sessions;
  simpl_state; repeat split; first [reflexivity | lia | congruence].

Ltac solve_recorded :=
  repeat match goal with
    | H : recorded _ _ |- _ =>
        destruct H as (? & ? & (? & ?) & ? & ? & (? & ?) & (?&?&?&?&?) & (? & ?) & ?)
    end;
  unfold recorded, same_settings, same_sessions, same_delivery;
  simpl_state;
  repeat split;
  first [reflexivity | lia | congruence
        | (eexists; eassumption)
        | (exists []; by rewrite app_nil_r)
        | (by eexists [_]) ].

Lemma run_bind {A B} (m : M A) (k : A → M B) (st st1 : State) (a : A) :
  m st = (Return a, st1) → bind m k st = k a st1.
Proof. intros H. unfold bind. by rewrite H. Qed.

Lemma run_bind_throw {A B} (m : M A) (k : A → M B) (st st1 : State) (e : string) :
  m st = (Throw e, st1) → bind m k st = (Throw e, st1).
Proof. intros H. unfold bind. by rewrite H. Qed.

Lemma run_try_return {A} (m : M A) (h : string → M A) (st st1 : State) (a : A) :
  m st = (Return a, st1) → try_catch m h st = (Return a, st1).
Proof. intros H. unfold try_catch. by rewrite H. Qed.

Lemma run_try_throw {A} (m : M A) (h : string → M A) (st st1 : State) (e : string) :
  m st = (Throw e, st1) → try_catch m h st = h e st1.
Proof. intros H. unfold try_catch. by rewrite H. Qed.

Section Properties.

Context (W : World) (cfg : Config).

Lemma request_run (st : State) :
  request W st
  = (Return (requests st),
     set_clock (λ c, c + elapsed W (requests st)) (set_requests S st)).
Proof. reflexivity. Qed.

(** *** The database layer *)

Lemma getTranslation_run (transcriptId targetLanguage : string) (st : State) :
  ∃ r st1,
    getTranslation W transcriptId targetLanguage st = (Return r, st1)
    ∧ quiet st st1
    ∧ (∀ t, r = Some t →
         ∃ row, row ∈ meeting_translations st
                ∧ translation_row_matches transcriptId targetLanguage row = true
                ∧ tl_translated_text row = t).
Proof.
  unfold getTranslation. rewrite (run_bind _ _ _ _ _ (request_run st)).
  unfold get_state, bind, logger, emit, modify, ret.
  destruct (supabase_error W (requests st)).
  - eexists _, _. split; [reflexivity|]. split; [solve_frame|done].
  - simpl_state.
    destruct (filter (λ r, translation_row_matches transcriptId targetLanguage r = true)
                (meeting_translations st)) as [|row [|row' rows]] eqn:Hf;
      (eexists _, _; split; [reflexivity|]; split; [solve_frame|]); try done.
    intros t [= <-]. exists row.
    assert (Hin : row ∈ filter (λ r, translation_row_matches transcriptId targetLanguage r = true)
                    (meeting_translations st)) by (rewrite Hf; by left).
    apply list_elem_of_filter in Hin as [Hm Hin]. done.
Qed.

Lemma saveTranslation_run (transcriptId targetLanguage translated : string) (st : State) :
  ∃ r st1,
    saveTranslation W transcriptId targetLanguage translated (translation_service cfg) st
    = (Return r, st1)
    ∧ bystanders st st1
    ∧ translationCache st1 = translationCache st
    ∧ provider_responses (trace st1) = provider_responses (trace st)
    ∧ (meeting_translations st1 = meeting_translations st
       ∨ meeting_translations st1
         = (meeting_translations st
              ++ [translation_row cfg transcriptId targetLanguage translated])%list).
Proof.
  unfold saveTranslation. rewrite (run_bind _ _ _ _ _ (request_run st)).
  unfold get_state, bind, logger, emit, modify, ret. simpl_state.
  destruct (supabase_error W (requests st)).
  { eexists _, _. split; [reflexivity|]. repeat split; try solve_frame. by left. }
  destruct (existsb _ (meeting_translations st)).
  { eexists _, _. split; [reflexivity|]. repeat split; try solve_frame. by left. }
  destruct (negb _).
  { eexists _, _. split; [reflexivity|]. repeat split; try solve_frame. by left. }
  eexists _, _. split; [reflexivity|]. repeat split; try solve_frame. by right.
Qed.

(** *** The translation provider *)

Lemma provider_run (text sourceLang targetLang : string) (st : State) :
  let call :=
    if String.eqb (translation_service cfg) "google"
    then translateWithGoogle W cfg text sourceLang targetLang
    else translateWithLibreTranslate W cfg text sourceLang targetLang in
  (∃ translated st1,
      call st = (Return translated, st1)
      ∧ bystanders st st1
      ∧ translationCache st1 = translationCache st
      ∧ meeting_translations st1 = meeting_translations st
      ∧ provider_responses (trace st1) = Some translated :: provider_responses (trace st)
      ∧ answered W text targetLang (Some translated)
      ∧ provider_configured cfg)
  ∨ (∃ e st1,
      call st = (Throw e, st1)
      ∧ bystanders st st1
      ∧ translationCache st1 = translationCache st
      ∧ meeting_translations st1 = meeting_translations st
      ∧ ((provider_responses (trace st1) = None :: provider_responses (trace st)
          ∧ answered W text targetLang None)
         ∨ (provider_responses (trace st1) = provider_responses (trace st)
            ∧ ¬ provider_configured cfg))).
Proof.
  intros call. subst call. unfold provider_configured.
  destruct (String.eqb (translation_service cfg) "google") eqn:Hs.
  - apply String.eqb_eq in Hs.
    unfold translateWithGoogle. cbv zeta.
    destruct (truthy_opt (translation_googleApiKey cfg)) eqn:Hk; cbn [negb].
    + rewrite (run_bind _ _ _ _ _ (request_run st)).
      unfold get_state, bind, logger, emit, modify, ret, throw. simpl_state.
      destruct (axios_post W (requests st) _ text _ targetLang) as [translated|] eqn:Ha.
      * left. eexists _, _. split; [reflexivity|].
        repeat split; try solve_frame. by eexists _, _, _.
      * right. eexists _, _. split; [reflexivity|].
        repeat split; try solve_frame. left. split; [solve_frame|]. by eexists _, _, _.
    + right. eexists _, _. split; [reflexivity|].
      repeat split; try solve_frame. right. split; [done|].
      intros H. specialize (H Hs). discriminate.
  - apply String.eqb_neq in Hs.
    unfold translateWithLibreTranslate. cbv zeta.
    rewrite (run_bind _ _ _ _ _ (request_run st)).
    unfold get_state, bind, logger, emit, modify, ret, throw. simpl_state.
    destruct (axios_post W (requests st) _ text _ targetLang) as [translated|] eqn:Ha.
    * left. eexists _, _. split; [reflexivity|].
      repeat split; try solve_frame; try done; by eexists _, _, _.
    * right. eexists _, _. split; [reflexivity|].
      repeat split; try solve_frame. left. split; [solve_frame|]. by eexists _, _, _.
Qed.

(** *** translateText *)

Lemma translationCache_set_run (key value : string) (st : State) :
  translationCache_set key value st
  = (Return tt,
     set_translationCache
       (λ c, NodeCache.with_data c
               (<[key := {| NodeCache.t := clock st + 3600 * 1000; NodeCache.v := value |}]>
                  (NodeCache.data c))) st).
Proof. reflexivity. Qed.

(** A request for the source language itself. *)
Lemma same_language_run (text lang : string) (transcriptId : option string) (st : State) :
  translateText W cfg text lang lang transcriptId st = (Return text, st).
Proof. unfold translateText. by rewrite String.eqb_refl. Qed.

(** A request served from the memory cache: the entry is there, has not
    expired and is not the empty string. *)
Lemma translateText_memory_hit (text sourceLang targetLang : string)
    (transcriptId : option string) (st : State) (e : NodeCache.Wrapped) :
  sourceLang ≠ targetLang →
  features_cacheTranslations cfg = true →
  NodeCache.data (translationCache st) !! cacheKey text sourceLang targetLang = Some e →
  NodeCache.expired (clock st) e = false →
  truthy (NodeCache.v e) = true →
  translateText W cfg text sourceLang targetLang transcriptId st
  = (Return (NodeCache.v e),
     set_trace (cons (EvLog LDebug "Translation cache hit (memory)"))
       (set_translationCache NodeCache.hit st)).
Proof.
  intros Hne Hc He Hx Ht. unfold translateText, translateText_cached.
  apply String.eqb_neq in Hne. rewrite Hne, Hc. cbv zeta.
  unfold translationCache_get, NodeCache.get, NodeCache.check, bind.
  rewrite He, Hx. cbn [truthy_opt]. rewrite Ht. reflexivity.
Qed.

(** The database lookup of translateText and what it stores in memory. *)
Lemma translateText_database_run (key id targetLang : string) (st : State) :
  ∃ early st1,
    (let! dbCached := getTranslation W id targetLang in
     match dbCached with
     | Some dbText =>
         if truthy dbText then
           logger LDebug "Translation cache hit (database)" ;;
           translationCache_set key dbText ;;
           ret (Some dbText)
         else ret None
     | None => ret None
     end) st = (Return early, st1)
    ∧ bystanders st st1
    ∧ meeting_translations st1 = meeting_translations st
    ∧ provider_responses (trace st1) = provider_responses (trace st)
    ∧ (∀ k, k ≠ key →
         NodeCache.data (translationCache st1) !! k = NodeCache.data (translationCache st) !! k)
    ∧ match early with
      | None => translationCache st1 = translationCache st
      | Some r =>
          ∃ row, row ∈ meeting_translations st
                 ∧ translation_row_matches id targetLang row = true
                 ∧ tl_translated_text row = r
                 ∧ truthy r = true
                 ∧ NodeCache.data (translationCache st1) !! key
                   = Some {| NodeCache.t := clock st1 + 3600 * 1000; NodeCache.v := r |}
      end.
Proof.
  destruct (getTranslation_run id targetLang st) as (db & st1 & Hrun & Hq & Hdb).
  rewrite (run_bind _ _ _ _ _ Hrun).
  destruct Hq as (Hby & Hcache & Htl & Hpr).
  destruct db as [dbText|].
  2:{ eexists _, _. split; [reflexivity|]. repeat split; try apply Hby; try done.
      intros k _. by rewrite Hcache. }
  destruct (truthy dbText) eqn:Hdt.
  2:{ eexists _, _. split; [reflexivity|]. repeat split; try apply Hby; try done.
      intros k _. by rewrite Hcache. }
  unfold logger, emit, modify. unfold bind at 1. unfold bind at 1.
  rewrite translationCache_set_run. unfold ret.
  destruct (Hdb dbText eq_refl) as (row & Hin & Hm & Htext).
  destruct Hby as ((?&?)&?&(?&?)&(?&?&?&?&?)&(?&?)).
  eexists _, _. split; [reflexivity|].
  repeat split; simpl_state; try done; try lia.
  - intros k Hk. rewrite Hcache. cbn. by rewrite lookup_insert_ne.
  - exists row. repeat split; try done. cbn. by rewrite lookup_insert_eq.
Qed.

(** The outcome of the two cache lookups. *)
Lemma translateText_cached_run (text sourceLang targetLang : string)
    (transcriptId : option string) (st : State) :
  let key := cacheKey text sourceLang targetLang in
  ∃ early st1,
    translateText_cached W cfg key targetLang transcriptId st = (Return early, st1)
    ∧ bystanders st st1
    ∧ meeting_translations st1 = meeting_translations st
    ∧ provider_responses (trace st1) = provider_responses (trace st)
    ∧ (∀ k, k ≠ key →
         NodeCache.data (translationCache st1) !! k = NodeCache.data (translationCache st) !! k)
    ∧ match early with
      | None =>
          NodeCache.data (translationCache st1) ⊆ NodeCache.data (translationCache st)
          ∧ (features_cacheTranslations cfg = false
             → NodeCache.data (translationCache st1) = NodeCache.data (translationCache st))
      | Some r =>
          features_cacheTranslations cfg = true
          ∧ ((∃ e, NodeCache.data (translationCache st) !! key = Some e
                   ∧ NodeCache.expired (clock st) e = false
                   ∧ truthy (NodeCache.v e) = true
                   ∧ r = NodeCache.v e
                   ∧ NodeCache.data (translationCache st1) = NodeCache.data (translationCache st)
                   ∧ requests st1 = requests st)
             ∨ (∃ id row, transcriptId = Some id
                   ∧ row ∈ meeting_translations st
                   ∧ translation_row_matches id targetLang row = true
                   ∧ tl_translated_text row = r
                   ∧ truthy r = true
                   ∧ NodeCache.data (translationCache st1) !! key
                     = Some {| NodeCache.t := clock st1 + 3600 * 1000; NodeCache.v := r |}))
      end.
Proof.
  intros key. unfold translateText_cached.
  destruct (features_cacheTranslations cfg) eqn:Hc.
  2:{ eexists _, _. split; [reflexivity|]. repeat split; try solve_frame. }
  unfold translationCache_get.
  assert (Hmem : ∃ r c st0,
     NodeCache.get translationCache_options (clock st) key (translationCache st) = (r, c)
     ∧ st0 = set_translationCache (λ _, c) st
     ∧ (∀ k, k ≠ key → NodeCache.data c !! k = NodeCache.data (translationCache st) !! k)
     ∧ NodeCache.data c ⊆ NodeCache.data (translationCache st)
     ∧ (truthy_opt r = true →
        ∃ e, NodeCache.data (translationCache st) !! key = Some e
             ∧ NodeCache.expired (clock st) e = false
             ∧ r = Some (NodeCache.v e)
             ∧ NodeCache.data c = NodeCache.data (translationCache st))).
  { destruct (NodeCache_get_cases (clock st) key (translationCache st))
      as [(e & He & Hx & Hget)|(c' & Hget & Hc' & Hmiss)].
    - eexists _, _, _. split; [exact Hget|]. split; [reflexivity|].
      repeat split; try done. intros _. by exists e.
    - eexists _, _, _. split; [exact Hget|]. split; [reflexivity|].
      repeat split; try done.
      + intros k Hk. rewrite Hc'. by apply lookup_delete_ne.
      + rewrite Hc'. apply delete_subseteq. }
  destruct Hmem as (r & c & st0 & Hget & Hst0 & Hother & Hsub & Hhit).
  unfold bind at 1. rewrite Hget. cbv beta iota. rewrite <- Hst0.
  assert (Hby0 : bystanders st st0) by (subst st0; solve_frame).
  assert (Htl0 : meeting_translations st0 = meeting_translations st) by (by subst st0).
  assert (Hpr0 : provider_responses (trace st0) = provider_responses (trace st))
    by (by subst st0).
  assert (Hdata0 : NodeCache.data (translationCache st0) = NodeCache.data c)
    by (by subst st0).
  assert (Hreq0 : requests st0 = requests st) by (by subst st0).
  clear Hst0 Hget.
  destruct (truthy_opt r) eqn:Ht.
  - destruct (Hhit eq_refl) as (e & He & Hx & -> & Hsame). simpl in Ht.
    eexists _, _. split; [reflexivity|].
    destruct Hby0 as ((?&?)&?&(?&?)&(?&?&?&?&?)&(?&?)).
    repeat split; simpl_state; try done; try lia.
    + intros k Hk. rewrite Hdata0. by apply Hother.
    + left. exists e. repeat split; try done. congruence.
  - assert (Hnone : ∃ st1, ret (None : option string) st0 = (Return None, st1)
                ∧ bystanders st st1
                ∧ meeting_translations st1 = meeting_translations st
                ∧ provider_responses (trace st1) = provider_responses (trace st)
                ∧ (∀ k, k ≠ key → NodeCache.data (translationCache st1) !! k
                                  = NodeCache.data (translationCache st) !! k)
                ∧ NodeCache.data (translationCache st1)
                  ⊆ NodeCache.data (translationCache st)
                ∧ (true = false
                   → NodeCache.data (translationCache st1)
                     = NodeCache.data (translationCache st))).
    { exists st0. repeat split; try done; try apply Hby0.
      - intros k Hk. rewrite Hdata0. by apply Hother.
      - by rewrite Hdata0. }
    destruct transcriptId as [id|]; [|destruct Hnone as (st1 & ?); by exists None, st1].
    destruct (truthy id) eqn:Hid; [|destruct Hnone as (st1 & ?); by exists None, st1].
    clear Hnone.
    destruct (translateText_database_run key id targetLang st0)
      as (early & st1 & Hrun & Hby1 & Htl1 & Hpr1 & Hother1 & Hearly).
    exists early, st1. split; [exact Hrun|].
    split; [by eapply bystanders_trans|].
    split; [congruence|]. split; [congruence|].
    split.
    { intros k Hk. rewrite Hother1 by done. rewrite Hdata0. by apply Hother. }
    destruct early as [db|].
    + split; [done|]. right. destruct Hearly as (row & Hin & Hm & Htext & Hdt & Hentry).
      exists id, row. repeat split; try done. by rewrite <- Htl0.
    + rewrite Hearly, Hdata0. done.
Qed.

(** What the try block of translateText does once the provider has
    answered. *)
Lemma translateText_store_run (key targetLang translated : string)
    (transcriptId : option string) (st : State) :
  ∃ st1,
    ((if features_cacheTranslations cfg then
        translationCache_set key translated ;;
        match transcriptId with
        | Some id =>
            if truthy id then
              saveTranslation W id targetLang translated (translation_service cfg) ;;
              ret tt
            else ret tt
        | None => ret tt
        end
      else ret tt) ;;
     logger LDebug "Translation successful" ;;
     ret translated) st = (Return translated, st1)
    ∧ bystanders st st1
    ∧ provider_responses (trace st1) = provider_responses (trace st)
    ∧ (∀ k, k ≠ key →
         NodeCache.data (translationCache st1) !! k = NodeCache.data (translationCache st) !! k)
    ∧ (if features_cacheTranslations cfg
       then NodeCache.data (translationCache st1) !! key
            = Some {| NodeCache.t := clock st + 3600 * 1000; NodeCache.v := translated |}
       else NodeCache.data (translationCache st1) = NodeCache.data (translationCache st))
    ∧ (meeting_translations st1 = meeting_translations st
       ∨ (features_cacheTranslations cfg = true
          ∧ ∃ id, transcriptId = Some id ∧ truthy id = true
              ∧ meeting_translations st1
                = (meeting_translations st
                     ++ [translation_row cfg id targetLang translated])%list)).
Proof.
  destruct (features_cacheTranslations cfg) eqn:Hc.
  2:{ eexists. split; [reflexivity|]. repeat split; try solve_frame. by left. }
  unfold bind at 1. unfold bind at 1. rewrite translationCache_set_run.
  set (st0 := set_translationCache _ st).
  assert (Hby0 : bystanders st st0) by solve_frame.
  assert (Hpr0 : provider_responses (trace st0) = provider_responses (trace st)) by done.
  assert (Htl0 : meeting_translations st0 = meeting_translations st) by done.
  assert (Hother0 : ∀ k, k ≠ key →
            NodeCache.data (translationCache st0) !! k
            = NodeCache.data (translationCache st) !! k).
  { intros k Hk. subst st0. cbn. by rewrite lookup_insert_ne. }
  assert (Hkey0 : NodeCache.data (translationCache st0) !! key
            = Some {| NodeCache.t := clock st + 3600 * 1000; NodeCache.v := translated |}).
  { subst st0. cbn. by rewrite lookup_insert_eq. }
  clearbody st0.
  assert (Hskip : ∃ st1,
    (let (r, st') := ret tt st0 in
     match r with
     | Return _ => (logger LDebug "Translation successful" ;; ret translated) st'
     | Throw e => (Throw e, st')
     end) = (Return translated, st1)
    ∧ bystanders st st1
    ∧ provider_responses (trace st1) = provider_responses (trace st)
    ∧ (∀ k, k ≠ key → NodeCache.data (translationCache st1) !! k
                      = NodeCache.data (translationCache st) !! k)
    ∧ NodeCache.data (translationCache st1) !! key
      = Some {| NodeCache.t := clock st + 3600 * 1000; NodeCache.v := translated |}
    ∧ (meeting_translations st1 = meeting_translations st
       ∨ (true = true
          ∧ ∃ id, transcriptId = Some id ∧ truthy id = true
              ∧ meeting_translations st1
                = (meeting_translations st
                     ++ [translation_row cfg id targetLang translated])%list))).
  { eexists. split; [reflexivity|].
    destruct Hby0 as ((?&?)&?&(?&?)&(?&?&?&?&?)&(?&?)).
    repeat split; simpl_state; try done. by left. }
  destruct transcriptId as [id|]; [|exact Hskip].
  destruct (truthy id) eqn:Hid; [|exact Hskip].
  clear Hskip.
  destruct (saveTranslation_run id targetLang translated st0)
    as (r & st1 & Hrun & Hby1 & Hcache1 & Hpr1 & Hrows).
  rewrite (run_bind _ _ _ _ _ Hrun).
  eexists. split; [reflexivity|].
  assert (Hby : bystanders st st1) by (by eapply bystanders_trans).
  destruct Hby as ((?&?)&?&(?&?)&(?&?&?&?&?)&(?&?)).
  repeat split; simpl_state; try done; try congruence.
  - intros k Hk. rewrite Hcache1. by apply Hother0.
  - destruct Hrows as [Hrows|Hrows]; [left; congruence|].
    right. split; [done|]. exists id. repeat split; try done. by rewrite Hrows, Htl0.
Qed.

(** Every request for a foreign language returns, and in one of four ways. *)
Lemma translateText_run (text sourceLang targetLang : string)
    (transcriptId : option string) (st : State) :
  sourceLang ≠ targetLang →
  let key := cacheKey text sourceLang targetLang in
  ∃ r st',
    translateText W cfg text sourceLang targetLang transcriptId st = (Return r, st')
    ∧ bystanders st st'
    ∧ (∀ k, k ≠ key →
         NodeCache.data (translationCache st') !! k = NodeCache.data (translationCache st) !! k)
    ∧ (served_from_memory cfg key st r st'
       ∨ served_from_database cfg key targetLang transcriptId st r st'
       ∨ translated_by_provider W cfg text key targetLang transcriptId st r st'
       ∨ fell_back W cfg text targetLang st r st').
Proof.
  intros Hne key. unfold translateText.
  apply String.eqb_neq in Hne. rewrite Hne. cbv zeta. fold key.
  destruct (translateText_cached_run text sourceLang targetLang transcriptId st)
    as (early & st1 & Hrun & Hby1 & Htl1 & Hpr1 & Hother1 & Hearly).
  fold key in Hrun, Hother1, Hearly.
  rewrite (run_bind _ _ _ _ _ Hrun).
  destruct early as [cached|].
  { exists cached, st1. split; [reflexivity|]. split; [done|]. split; [done|].
    destruct Hearly as [Hc [(e & ? & ? & ? & ? & ? & ?)|(id & row & ? & ? & ? & ? & ? & ?)]].
    - left. split; [done|]. exists e. repeat split; done.
    - right; left. split; [done|]. exists id, row. repeat split; done. }
  destruct (provider_run text sourceLang targetLang st1)
    as [(translated & st2 & Hcall & Hby2 & Hcache2 & Htl2 & Hpr2 & Hans & Hconf)
       |(e & st2 & Hcall & Hby2 & Hcache2 & Htl2 & Hfail)].
  - (* the provider answered *)
    destruct (translateText_store_run key targetLang translated transcriptId st2)
      as (st3 & Hstore & Hby3 & Hpr3 & Hother3 & Hkey3 & Hrows3).
    exists translated, st3. split.
    { apply run_try_return. rewrite (run_bind _ _ _ _ _ Hcall). exact Hstore. }
    assert (Hby : bystanders st st3)
      by (eapply bystanders_trans; [|exact Hby3]; by eapply bystanders_trans).
    split; [done|]. split.
    { intros k Hk. rewrite Hother3, Hcache2 by done. by apply Hother1. }
    right; right; left. unfold translated_by_provider.
    split; [congruence|]. split; [done|]. split; [done|]. split.
    + destruct (features_cacheTranslations cfg) eqn:Hc.
      * exists (clock st2). split; [|split; [|done]].
        -- destruct Hby1 as ((?&?)&_), Hby2 as ((?&?)&_). lia.
        -- destruct Hby3 as ((?&?)&_). lia.
      * (* caching is off: the lookups were skipped as well *)
        rewrite Hkey3, Hcache2. by apply Hearly.
    + destruct Hrows3 as [Hrows|(Hc & id & ? & ? & Hrows)].
      * left. congruence.
      * right. split; [done|]. exists id. repeat split; try done. congruence.
  - (* the provider failed *)
    eexists text, _. split.
    { erewrite run_try_throw; [reflexivity|].
      by rewrite (run_bind_throw _ _ _ _ _ Hcall). }
    assert (Hby : bystanders st st2) by (by eapply bystanders_trans).
    split; [solve_frame|].
    split.
    { intros k Hk. simpl_state. rewrite Hcache2. by apply Hother1. }
    right; right; right. unfold fell_back. simpl_state.
    split; [done|]. split; [rewrite Hcache2; apply Hearly|]. split; [congruence|].
    destruct Hfail as [[Hp Ha]|[Hp Hnc]]; [left|right]; split; try done; congruence.
Qed.

(** *** One target language among others *)

Lemma nothing_cached_agrees (st : State) (text sourceLang targetLang : string)
    (transcriptId : option string) (value : string) :
  nothing_cached st text sourceLang targetLang transcriptId →
  agrees st text sourceLang targetLang transcriptId value.
Proof.
  intros [Hmem Hdb]. split.
  - intros e He. congruence.
  - intros id row Hid Hin Hm. rewrite (Hdb id row Hid Hin) in Hm. discriminate.
Qed.

Lemma translation_row_other_language (id targetLang other translated : string) :
  other ≠ targetLang →
  translation_row_matches id other (translation_row cfg id targetLang translated) = false.
Proof.
  intros Hne. unfold translation_row_matches, translation_row. simpl.
  apply andb_false_iff. right. apply String.eqb_neq. congruence.
Qed.

(** A request for one language leaves what is cached for another one. *)
Lemma translateText_frame (text sourceLang targetLang : string)
    (transcriptId : option string) (st : State) :
  ∃ r st',
    translateText W cfg text sourceLang targetLang transcriptId st = (Return r, st')
    ∧ ∀ other value, other ≠ targetLang →
        agrees st text sourceLang other transcriptId value →
        agrees st' text sourceLang other transcriptId value.
Proof.
  destruct (decide (sourceLang = targetLang)) as [->|Hne].
  { exists text, st. split; [apply same_language_run|done]. }
  destruct (translateText_run text sourceLang targetLang transcriptId st Hne)
    as (r & st' & Hrun & _ & Hother & Hpath).
  exists r, st'. split; [done|].
  intros other value Hne' [Hmem Hdb].
  assert (Hkey : cacheKey text sourceLang other ≠ cacheKey text sourceLang targetLang).
  { intros Heq. by apply cacheKey_target_inj in Heq. }
  split.
  { intros e. rewrite Hother by done. apply Hmem. }
  assert (Hrows : meeting_translations st' = meeting_translations st
                  ∨ ∃ id, transcriptId = Some id
                      ∧ meeting_translations st'
                        = (meeting_translations st
                             ++ [translation_row cfg id targetLang r])%list).
  { destruct Hpath as [(_ & e & ? & ? & ? & ? & ? & ? & ? & ?)
                      |[(_ & id & row & ? & ? & ? & ? & ? & ? & ? & ?)
                      |[(_ & _ & _ & _ & [?|(_ & id & ? & ? & ?)])
                      |(_ & _ & ? & _)]]]; eauto. }
  destruct Hrows as [->|(id & Hid & ->)]; [done|].
  intros id' row Hid' Hin Hm Ht.
  apply elem_of_app in Hin as [Hin|Hin]; [by eapply Hdb|].
  apply list_elem_of_singleton in Hin as ->.
  assert (id' = id) as -> by congruence.
  rewrite translation_row_other_language in Hm by done. discriminate.
Qed.

(** A request for a language whose cached values and provider answers all
    agree on one value returns that value. *)
Lemma translateText_resolves (text sourceLang targetLang : string)
    (transcriptId : option string) (st : State) (value : string) :
  sourceLang ≠ targetLang →
  resolves W cfg text targetLang value →
  agrees st text sourceLang targetLang transcriptId value →
  ∃ st',
    translateText W cfg text sourceLang targetLang transcriptId st = (Return value, st')
    ∧ agrees st' text sourceLang targetLang transcriptId value.
Proof.
  intros Hne Hres [Hmem Hdb].
  destruct (translateText_run text sourceLang targetLang transcriptId st Hne)
    as (r & st' & Hrun & _ & Hother & Hpath).
  set (key := cacheKey text sourceLang targetLang) in *.
  destruct Hpath as [(_ & e & He & _ & Ht & -> & Hdata & _ & Hrows & _)
                    |[(_ & id & row & Hid & Hin & Hm & <- & Ht & Hkey & Hrows & _)
                    |[(_ & (n & url & source & Hans) & Hconf & Hkey & Hrows)
                    |(-> & Hsub & Hrows & Hfail)]]].
  - (* memory *)
    rewrite (Hmem e He Ht) in *. exists st'. split; [done|].
    split; [by rewrite Hdata | by rewrite Hrows].
  - (* database *)
    rewrite (Hdb id row Hid Hin Hm Ht) in *. exists st'. split; [done|].
    split; [|by rewrite Hrows].
    intros e. fold key. rewrite Hkey. by intros [= <-].
  - (* provider *)
    assert (r = value) as ->.
    { destruct Hres as [[_ Hnone]|[Hsome _]].
      - rewrite Hnone in Hans. discriminate.
      - rewrite Hsome in Hans. congruence. }
    exists st'. split; [done|]. split.
    + intros e. fold key. destruct (features_cacheTranslations cfg).
      * destruct Hkey as (stored & _ & _ & ->). by intros [= <-].
      * rewrite Hkey. apply Hmem.
    + destruct Hrows as [->|(_ & id & Hid & _ & ->)]; [done|].
      intros id' row Hid' Hin Hm Ht.
      apply elem_of_app in Hin as [Hin|Hin]; [by eapply Hdb|].
      by apply list_elem_of_singleton in Hin as ->.
  - (* fallback *)
    assert (text = value) as ->.
    { destruct Hres as [[-> _]|[Hsome Hconf]]; [done|].
      destruct Hfail as [[_ (n & url & source & Hans)]|[_ Hnc]]; [|done].
      rewrite Hsome in Hans. discriminate. }
    exists st'. split; [done|]. split; [|by rewrite Hrows].
    intros e He. apply Hmem. by eapply lookup_weaken.
Qed.

(** *** The claims about translation *)

(** C5: when the source language equals the target language,
    translateText returns the input text itself and leaves the whole
    process state as it was: the cache contents and its hit and miss
    counters (no cache read, no cache write), the request counter (no
    provider or database request) and the trace. *)
Theorem translateText_same_language (text lang : string) (transcriptId : option string)
    (st : State) :
  translateText W cfg text lang lang transcriptId st = (Return text, st).
Proof.
  unfold translateText. by rewrite String.eqb_refl.
Qed.

(** C9: a call of translateText in which the provider was asked and
    failed returns the original text, leaves the stored translations as
    they were and adds no entry to the memory cache.  A translation row is
    only ever added by a call in which the provider answered, and it holds
    that answer. *)
Theorem failed_translation_is_not_stored (text sourceLang targetLang : string)
    (transcriptId : option string) (st : State) (r : Result string) (st' : State) :
  translateText W cfg text sourceLang targetLang transcriptId st = (r, st') →
  (provider_responses (trace st') = None :: provider_responses (trace st) →
     r = Return text
     ∧ meeting_translations st' = meeting_translations st
     ∧ NodeCache.data (translationCache st') ⊆ NodeCache.data (translationCache st))
  ∧ (meeting_translations st' ≠ meeting_translations st →
     ∃ translated id,
       r = Return translated
       ∧ provider_responses (trace st') = Some translated :: provider_responses (trace st)
       ∧ transcriptId = Some id
       ∧ meeting_translations st'
         = (meeting_translations st ++ [translation_row cfg id targetLang translated])%list).
Proof.
  intros Hrun.
  assert (Hcons : ∀ (x : option string) l, l ≠ x :: l).
  { intros x l H. apply (f_equal length) in H. simpl in H. lia. }
  destruct (decide (sourceLang = targetLang)) as [->|Hne].
  { rewrite same_language_run in Hrun. injection Hrun as <- <-.
    split; [intros H; by apply Hcons in H | done]. }
  destruct (translateText_run text sourceLang targetLang transcriptId st Hne)
    as (r' & st1 & Hrun' & _ & _ & Hpath).
  rewrite Hrun in Hrun'. injection Hrun' as -> ->.
  destruct Hpath as [(_ & e & _ & _ & _ & _ & _ & _ & Hrows & Hpr)
                    |[(_ & id & row & _ & _ & _ & _ & _ & _ & Hrows & Hpr)
                    |[(Hpr & _ & _ & _ & Hrows)
                    |(-> & Hsub & Hrows & _)]]].
  - split; [|done]. rewrite Hpr. intros H. by apply Hcons in H.
  - split; [|done]. rewrite Hpr. intros H. by apply Hcons in H.
  - split; [rewrite Hpr; intros [=]|].
    intros Hchanged. destruct Hrows as [?|(_ & id & ? & _ & ?)]; [done|].
    by exists r', id.
  - done.
Qed.

(** C8, as the code has it: with translation caching switched on, once
    the provider has answered a request for (T, S, L), S different from L,
    with a non-empty translation, there is a moment [stored] during that
    call from which on, for 3600 seconds and as long as the entry is left
    alone, every request for (T, S, L) returns the same translation
    without any request to the provider or the database. *)
Theorem repeated_translation_is_served_from_cache (text sourceLang targetLang : string)
    (transcriptId again : option string) (st st1 : State) (translated : string) :
  features_cacheTranslations cfg = true →
  sourceLang ≠ targetLang →
  truthy translated = true →
  translateText W cfg text sourceLang targetLang transcriptId st = (Return translated, st1) →
  provider_responses (trace st1) = Some translated :: provider_responses (trace st) →
  ∃ stored,
    clock st ≤ stored ∧ stored ≤ clock st1
    ∧ ∀ st2,
        NodeCache.data (translationCache st2) !! cacheKey text sourceLang targetLang
        = NodeCache.data (translationCache st1) !! cacheKey text sourceLang targetLang →
        clock st2 ≤ stored + 3600 * 1000 →
        ∃ st3,
          translateText W cfg text sourceLang targetLang again st2 = (Return translated, st3)
          ∧ provider_responses (trace st3) = provider_responses (trace st2)
          ∧ requests st3 = requests st2.
Proof.
  intros Hc Hne Ht Hrun Hanswered.
  assert (Hcons : ∀ (x : option string) l, l ≠ x :: l).
  { intros x l H. apply (f_equal length) in H. simpl in H. lia. }
  destruct (translateText_run text sourceLang targetLang transcriptId st Hne)
    as (r' & st1' & Hrun' & _ & _ & Hpath).
  rewrite Hrun in Hrun'. injection Hrun' as <- <-.
  destruct Hpath as [(_ & e & _ & _ & _ & _ & _ & _ & _ & Hpr)
                    |[(_ & id & row & _ & _ & _ & _ & _ & _ & _ & Hpr)
                    |[(_ & _ & _ & Hkey & _)
                    |(_ & _ & _ & [[Hpr _]|[Hpr _]])]]].
  - rewrite Hpr in Hanswered. by apply Hcons in Hanswered.
  - rewrite Hpr in Hanswered. by apply Hcons in Hanswered.
  - rewrite Hc in Hkey. destruct Hkey as (stored & Hlo & Hhi & Hentry).
    exists stored. split; [done|]. split; [done|].
    intros st2 Hsame Hfresh. rewrite Hentry in Hsame.
    eexists. split.
    + rewrite (translateText_memory_hit text sourceLang targetLang again st2 _
                 Hne Hc Hsame); [reflexivity| |done].
      apply not_true_iff_false. rewrite expired_iff. simpl. lia.
    + done.
  - rewrite Hpr in Hanswered. discriminate.
  - rewrite Hpr in Hanswered. by apply Hcons in Hanswered.
Qed.

(** *** Caption delivery *)

Lemma broadcastCaption_run (room : nat) (caption : Caption) (st : State) :
  ∃ ok st' msg,
    broadcastCaption W room caption st = (Return ok, st')
    ∧ delivered st st' [(CaptionPayload msg, None)]
    ∧ originalText msg = cap_originalText caption
    ∧ translatedText msg
      = Some (or_else (cap_translatedText caption) (cap_originalText caption))
    ∧ msg_isFinal msg = cap_isFinal caption
    ∧ speakerId msg = cap_speakerId caption
    ∧ meetingId msg = cap_meetingId caption.
Proof.
  unfold broadcastCaption, Date_now. unfold bind at 1.
  rewrite (run_bind _ _ _ _ _ (request_run st)). cbv zeta.
  unfold logger, emit, modify, bind, ret.
  destruct (publishData_throws W (requests st));
    (eexists _, _, _; split; [reflexivity|]; split; [solve_delivered|]; done).
Qed.

Lemma sendSystemMessage_run (room : nat) (message : string)
    (participantIdentities : option (list string)) (st : State) :
  ∃ ok st' payload destination,
    sendSystemMessage W room message participantIdentities st = (Return ok, st')
    ∧ delivered st st' [(payload, destination)].
Proof.
  unfold sendSystemMessage, Date_now. unfold bind at 1.
  rewrite (run_bind _ _ _ _ _ (request_run st)). cbv zeta.
  unfold logger, emit, modify, bind, ret.
  destruct (publishData_throws W (requests st));
    (eexists _, _, _, _; split; [reflexivity|]; solve_delivered).
Qed.

(** *** The transcript handlers *)

Lemma handleInterimTranscript_run (session : Session) (speakerId speakerName : string)
    (transcript : Transcript) (st : State) :
  ∃ st' msg,
    handleInterimTranscript W session speakerId speakerName transcript st = (Return tt, st')
    ∧ delivered st st' [(CaptionPayload msg, None)]
    ∧ originalText msg = text transcript
    ∧ translatedText msg = Some (text transcript)
    ∧ msg_isFinal msg = false.
Proof.
  unfold handleInterimTranscript.
  destruct (broadcastCaption_run (room session)
              (caption_of session speakerId speakerName transcript false) st)
    as (ok & st' & msg & Hrun & Hd & Ho & Ht & Hf & _).
  exists st', msg. split.
  { apply run_try_return. by rewrite (run_bind _ _ _ _ _ Hrun). }
  done.
Qed.

Lemma saveTranscript_run (meetingId speakerId speakerName text language : string)
    (confidence : Confidence) (st : State) :
  ∃ saved st',
    saveTranscript W meetingId speakerId speakerName text language confidence st
    = (Return saved, st')
    ∧ recorded st st'.
Proof.
  unfold saveTranscript, Date_now. unfold bind at 1.
  rewrite (run_bind _ _ _ _ _ (request_run st)). cbv zeta.
  unfold get_state, logger, emit, modify, bind, ret. simpl_state.
  destruct (supabase_error W (requests st) || _);
    (eexists _, _; split; [reflexivity|]; solve_recorded).
Qed.

Lemma processFinalTranscript_run (meetingId speakerId speakerName : string)
    (transcript : Transcript) (st : State) :
  ∃ saved st',
    processFinalTranscript W meetingId speakerId speakerName transcript st
    = (Return saved, st')
    ∧ recorded st st'.
Proof.
  unfold processFinalTranscript.
  destruct (saveTranscript_run meetingId speakerId speakerName (text transcript)
              (language transcript) (confidence transcript) st)
    as (saved & st1 & Hrun & Hrec).
  rewrite (run_bind _ _ _ _ _ Hrun).
  destruct saved as [row|].
  - unfold logger, emit, modify, bind, ret.
    eexists _, _. split; [reflexivity|]. solve_recorded.
  - by exists None, st1.
Qed.

(** The lookup of the listeners' languages, and the three ways it comes
    back empty: the participants query fails, the meeting has no
    participant rows, the settings query fails. *)
Lemma getMeetingLanguages_run (meetingId : string) (st : State) :
  ∃ langs st',
    getMeetingLanguages W meetingId st = (Return langs, st')
    ∧ quiet st st'
    ∧ (preferences_unavailable W st meetingId → langs = []).
Proof.
  unfold getMeetingLanguages, preferences_unavailable.
  rewrite (run_bind _ _ _ _ _ (request_run st)).
  unfold get_state. unfold bind at 1. simpl_state.
  destruct (supabase_error W (requests st)) eqn:He1.
  { unfold logger, emit, modify, bind, ret.
    eexists _, _. split; [reflexivity|]. split; [solve_frame|done]. }
  destruct (filter _ (meeting_participants st)) as [|p ps] eqn:Hf.
  { eexists _, _. split; [reflexivity|]. split; [solve_frame|done]. }
  cbv zeta.
  erewrite (run_bind (request W)); [|apply request_run].
  unfold bind at 1. simpl_state.
  destruct (supabase_error W (S (requests st))) eqn:He2.
  { unfold logger, emit, modify, bind, ret.
    eexists _, _. split; [reflexivity|]. split; [solve_frame|done]. }
  eexists _, _. split; [reflexivity|]. split; [solve_frame|].
  intros [?|[?|?]]; congruence.
Qed.

(** *** The claims about the transcript handlers *)

(** C7: an interim transcript is broadcast to everybody in the room as a
    caption whose translated text is the original text and which is marked as
    not final; the handler returns normally, writes no table, leaves the
    translation cache alone and asks the translation provider nothing.  And
    a recognizer event that is not final never gets further than that,
    whatever the connection and the event: the tables, the cache and the
    provider are untouched, and what goes to the transport is at most that
    one broadcast. *)
Theorem interim_transcripts_are_only_broadcast :
  (∀ (session : Session) (speakerId speakerName : string) (transcript : Transcript)
     (st : State),
     ∃ st' msg,
       handleInterimTranscript W session speakerId speakerName transcript st
       = (Return tt, st')
       ∧ delivered st st' [(CaptionPayload msg, None)]
       ∧ originalText msg = text transcript
       ∧ translatedText msg = Some (text transcript)
       ∧ msg_isFinal msg = false)
  ∧ (∀ (connection : nat) (data : DeepgramData) (st : State),
       default false (is_final data) = false →
       ∃ st' new,
         connection_emit W cfg connection (OnTranscript data) st = (Return tt, st')
         ∧ delivered st st' new
         ∧ (new = []
            ∨ ∃ msg, new = [(CaptionPayload msg, None)]
                     ∧ translatedText msg = Some (originalText msg)
                     ∧ msg_isFinal msg = false)).
Proof.
  split; [apply handleInterimTranscript_run|].
  intros connection data st Hfinal.
  unfold connection_emit, get_state. unfold bind at 1.
  destruct (connections st !! connection) as [c|].
  2:{ exists st, []. split; [reflexivity|]. split; [solve_delivered|by left]. }
  unfold connection_on_Transcript.
  destruct (alternative0 data ≫= alt_transcript) as [transcript_text|].
  2:{ exists st, []. split; [reflexivity|]. split; [solve_delivered|by left]. }
  destruct (truthy transcript_text); cbn [negb].
  2:{ exists st, []. split; [reflexivity|]. split; [solve_delivered|by left]. }
  cbv zeta. rewrite Hfinal.
  unfold logger, emit, modify. unfold bind at 1.
  destruct (conn_onTranscript c) as [cb|]; cbn [fmap option_fmap option_map].
  2:{ eexists _, []. split; [reflexivity|]. split; [solve_delivered|by left]. }
  match goal with |- context [handleInterimTranscript W ?s ?i ?n ?t ?st0] =>
    destruct (handleInterimTranscript_run s i n t st0)
      as (st' & msg & Hrun & Hd & Ho & Ht & Hf)
  end.
  exists st', [(CaptionPayload msg, None)]. split; [exact Hrun|]. split.
  - revert Hd. unfold delivered, stores_untouched. simpl_state. done.
  - right. exists msg. split; [done|]. split; [|done]. by rewrite Ht, Ho.
Qed.

(** C10: when translation is switched off, or the lookup of the listeners'
    languages comes back empty (the participants query fails, the meeting
    has no participant rows, or the settings query fails), the final
    transcript is still broadcast to everybody in the room, marked final,
    with the original text as its translated text; the handler returns
    normally and the translation provider is not asked. *)
Theorem final_transcript_is_broadcast_without_preferences (session : Session)
    (speakerId speakerName : string) (transcript : Transcript) (st : State) :
  features_translation cfg = false
  ∨ preferences_unavailable W (set_requests S st) (s_meetingId session) →
  ∃ st' msg,
    handleFinalTranscript W cfg session speakerId speakerName transcript st
    = (Return tt, st')
    ∧ published (trace st') = (CaptionPayload msg, None) :: published (trace st)
    ∧ originalText msg = text transcript
    ∧ translatedText msg = Some (text transcript)
    ∧ msg_isFinal msg = true
    ∧ provider_responses (trace st') = provider_responses (trace st).
Proof.
  intros Hcond. unfold handleFinalTranscript.
  destruct (processFinalTranscript_run (s_meetingId session) speakerId speakerName
              transcript st) as (saved & st1 & Hrun1 & Hrec).
  assert (Hwarn : ∃ st2,
            (match saved with
             | Some _ => ret tt
             | None => logger LWarn "Failed to save transcript"
             end) st1 = (Return tt, st2) ∧ recorded st st2).
  { destruct saved; eexists; (split; [reflexivity|]); [done|].
    revert Hrec. unfold recorded. simpl_state. done. }
  destruct Hwarn as (st2 & Hrun2 & Hrec2).
  destruct (getMeetingLanguages_run (s_meetingId session) st2)
    as (langs & st3 & Hrun3 & Hq & Hempty).
  assert (Hbranch : negb (features_translation cfg) || (length langs =? 0)%nat = true).
  { destruct Hcond as [->|Hun]; [done|].
    rewrite Hempty; [apply orb_true_r|].
    destruct Hrec2 as (Hreq & _ & _ & _ & _ & Hset & _).
    destruct Hset as [Hp Hs].
    revert Hun. unfold preferences_unavailable. simpl_state.
    rewrite Hreq, Hp. done. }
  destruct (broadcastCaption_run (room session)
              (caption_of session speakerId speakerName transcript true) st3)
    as (ok & st4 & msg & Hrun4 & Hd & Ho & Ht & Hf & _).
  exists st4, msg. split.
  { apply run_try_return.
    rewrite (run_bind _ _ _ _ _ Hrun1), (run_bind _ _ _ _ _ Hrun2),
      (run_bind _ _ _ _ _ Hrun3), Hbranch.
    by rewrite (run_bind _ _ _ _ _ Hrun4). }
  destruct Hrec2 as (_ & _ & _ & _ & _ & _ & _ & (Hpub2 & _) & Hpr2).
  destruct Hq as ((_ & _ & _ & _ & (Hpub3 & _)) & _ & _ & Hpr3).
  destruct Hd as (_ & _ & _ & Hpr4 & _ & Hpub4).
  repeat split; try done; simpl in *; congruence.
Qed.

(** *** A final transcript on its way to the listeners *)

Lemma map_is_fmap {A B} (f : A → B) (l : list A) : map f l = f <$> l.
Proof. induction l as [|x l IH]; [reflexivity|]. simpl. by rewrite IH. Qed.

Lemma delivered_refl (st : State) : delivered st st [].
Proof. solve_delivered. Qed.

Lemma delivered_trans (st1 st2 st3 : State) (new1 new2 : list (Payload * option (list string))) :
  delivered st1 st2 new1 → delivered st2 st3 new2 → delivered st1 st3 (new2 ++ new1)%list.
Proof.
  intros ((?&?)&(?&?&?&?&?)&(?&?&?&?&?)&?&?&Hp1) ((?&?)&(?&?&?&?&?)&(?&?&?&?&?)&?&?&Hp2).
  unfold delivered, stores_untouched, same_settings, same_sessions, time_passes.
  rewrite Hp2, Hp1, app_assoc.
  repeat split; first [lia | congruence].
Qed.

Lemma sendCaptionToParticipant_run (room : nat) (participantIdentity : string)
    (caption : Caption) (st : State) :
  ∃ ok st' msg,
    sendCaptionToParticipant W room participantIdentity caption st = (Return ok, st')
    ∧ delivered st st' [(CaptionPayload msg, Some [participantIdentity])]
    ∧ originalText msg = cap_originalText caption
    ∧ translatedText msg = cap_translatedText caption
    ∧ targetLanguage msg = cap_targetLanguage caption
    ∧ msg_isFinal msg = cap_isFinal caption.
Proof.
  unfold sendCaptionToParticipant, Date_now. unfold bind at 1.
  rewrite (run_bind _ _ _ _ _ (request_run st)). cbv zeta.
  unfold logger, emit, modify, bind, ret.
  destruct (publishData_throws W (requests st));
    (eexists _, _, _; split; [reflexivity|]; split; [solve_delivered|]; done).
Qed.

Lemma sendTranslatedCaptions_run (room : nat) (caption : Caption)
    (participantLanguages : list CaptionTarget) (st : State) :
  ∃ ok st' new,
    sendTranslatedCaptions W room caption participantLanguages st = (Return ok, st')
    ∧ delivered st st' new
    ∧ Forall2 (caption_for caption) participantLanguages (rev new).
Proof.
  unfold sendTranslatedCaptions.
  match goal with |- context [map_all _ ?f] => set (send := f) end.
  assert (Hall : ∀ targets st0, ∃ oks st' new,
            map_all targets send st0 = (Return oks, st')
            ∧ delivered st0 st' new
            ∧ Forall2 (caption_for caption) targets (rev new)).
  { induction targets as [|target targets IH]; intros st0.
    - exists [], st0, []. split; [reflexivity|]. split; [apply delivered_refl|constructor].
    - subst send. cbn [map_all].
      match goal with |- context [sendCaptionToParticipant W ?r ?i ?c] =>
        destruct (sendCaptionToParticipant_run r i c st0)
          as (ok & st1 & msg & Hrun & Hd & Ho & Ht & Hl & Hf)
      end.
      rewrite (run_bind _ _ _ _ _ Hrun).
      destruct (IH st1) as (oks & st2 & new & Hrun2 & Hd2 & Hall).
      rewrite (run_bind _ _ _ _ _ Hrun2).
      eexists _, st2, (new ++ [_])%list. split; [reflexivity|].
      split; [by eapply delivered_trans|].
      rewrite rev_app_distr. cbn [rev app]. constructor; [|done].
      exists msg. by repeat split. }
  destruct (Hall participantLanguages st) as (oks & st1 & new & Hrun & Hd & Hforall).
  exists true, (set_trace (cons (EvLog LInfo "Translated captions sent")) st1), new.
  split.
  { apply run_try_return. by rewrite (run_bind _ _ _ _ _ Hrun). }
  split; [|done].
  revert Hd. unfold delivered, stores_untouched, same_settings, same_sessions, time_passes.
  simpl_state. done.
Qed.

(** One listener's translation: its value is the known one, and what is
    known of every language stays known. *)
Lemma translateText_known (text sourceLang lang : string) (transcriptId : option string)
    (value : string → string) (st : State) :
  known W cfg text sourceLang transcriptId value st lang →
  ∃ st',
    translateText W cfg text sourceLang lang transcriptId st = (Return (value lang), st')
    ∧ bystanders st st'
    ∧ ∀ other, known W cfg text sourceLang transcriptId value st other →
               known W cfg text sourceLang transcriptId value st' other.
Proof.
  intros [[-> Hv]|(Hne & Hres & Hagrees)].
  { exists st. rewrite same_language_run, Hv.
    split; [done|]. split; [apply bystanders_refl|done]. }
  destruct (translateText_resolves text sourceLang lang transcriptId st (value lang)
              (not_eq_sym Hne) Hres Hagrees) as (st' & Hrun & Hagrees').
  destruct (translateText_run text sourceLang lang transcriptId st (not_eq_sym Hne))
    as (r & st1 & Hrun1 & Hby & _).
  destruct (translateText_frame text sourceLang lang transcriptId st)
    as (r2 & st2 & Hrun2 & Hframe).
  rewrite Hrun in Hrun1, Hrun2. injection Hrun1 as <- <-. injection Hrun2 as <- <-.
  exists st'. split; [done|]. split; [done|].
  intros other [Hsame|(Hne' & Hres' & Hagrees0)]; [by left|].
  right. split; [done|]. split; [done|].
  destruct (decide (other = lang)) as [->|Hother]; [done|].
  by apply Hframe.
Qed.

(** The loop of handleFinalTranscript over the listeners. *)
Lemma listeners_loop_run (text sourceLang : string) (transcriptId : option string)
    (value : string → string) (langs : list LanguagePreference) (st : State) :
  (∀ p, p ∈ langs →
        known W cfg text sourceLang transcriptId value st (pref_language p)) →
  ∃ st',
    map_all langs
      (λ p,
         let! translated :=
           translateText W cfg text sourceLang (pref_language p) transcriptId in
         ret {| participantIdentity := userId p;
                ct_language := pref_language p;
                ct_translatedText := translated |}) st
    = (Return (map (λ p, {| participantIdentity := userId p;
                            ct_language := pref_language p;
                            ct_translatedText := value (pref_language p) |}) langs),
       st')
    ∧ bystanders st st'.
Proof.
  revert st. induction langs as [|p langs IH]; intros st Hknown.
  { exists st. split; [reflexivity|apply bystanders_refl]. }
  destruct (translateText_known text sourceLang (pref_language p) transcriptId value st)
    as (st1 & Hrun & Hby & Hkeep).
  { apply Hknown. by left. }
  destruct (IH st1) as (st2 & Hloop & Hby2).
  { intros q Hq. apply Hkeep, Hknown. by right. }
  exists st2. split; [|by eapply bystanders_trans].
  cbn [map_all map]. unfold bind at 1. rewrite (run_bind _ _ _ _ _ Hrun).
  unfold ret at 1. by rewrite (run_bind _ _ _ _ _ Hloop).
Qed.

Lemma getMeetingLanguages_listeners (meetingId : string) (st : State) :
  supabase_error W (requests st) = false →
  supabase_error W (S (requests st)) = false →
  ∃ st',
    getMeetingLanguages W meetingId st = (Return (listeners st meetingId), st')
    ∧ quiet st st'.
Proof.
  intros He1 He2. unfold getMeetingLanguages, listeners.
  rewrite (run_bind _ _ _ _ _ (request_run st)).
  unfold get_state. unfold bind at 1. simpl_state. rewrite He1.
  destruct (filter _ (meeting_participants st)) as [|p ps] eqn:Hf.
  { eexists. split; [reflexivity|]. solve_frame. }
  cbv zeta.
  erewrite (run_bind (request W)); [|apply request_run].
  unfold bind at 1. simpl_state. rewrite He2.
  eexists. split; [reflexivity|]. solve_frame.
Qed.

(** With translation switched on and the preference store answering, a
    final transcript goes to every listener of the meeting, in the order
    of [listeners], each message addressed to that listener alone, marked
    final, in the listener's language: the original text where that
    language is the speaker's or its translation failed, the provider's
    translation (when it is not empty) otherwise.  The handler returns
    normally whatever the provider does. *)
Lemma final_transcript_reaches_listeners (session : Session)
    (speakerId speakerName : string) (transcript : Transcript) (st : State)
    (value : string → string) :
  features_translation cfg = true →
  supabase_error W (S (requests st)) = false →
  supabase_error W (S (S (requests st))) = false →
  listeners st (s_meetingId session) ≠ [] →
  (∀ p transcriptId, p ∈ listeners st (s_meetingId session) →
     known W cfg (text transcript) (language transcript) transcriptId value st
       (pref_language p)) →
  ∃ st' new,
    handleFinalTranscript W cfg session speakerId speakerName transcript st
    = (Return tt, st')
    ∧ published (trace st') = (new ++ published (trace st))%list
    ∧ Forall2
        (λ p pub,
           ∃ msg, pub = (CaptionPayload msg, Some [userId p])
                  ∧ originalText msg = text transcript
                  ∧ translatedText msg
                    = Some (or_else (Some (value (pref_language p))) (text transcript))
                  ∧ targetLanguage msg = Some (pref_language p)
                  ∧ msg_isFinal msg = true)
        (listeners st (s_meetingId session)) (rev new).
Proof.
  intros Hfeature He1 He2 Hsome Hknown. unfold handleFinalTranscript.
  destruct (processFinalTranscript_run (s_meetingId session) speakerId speakerName
              transcript st) as (saved & st1 & Hrun1 & Hrec).
  assert (Hwarn : ∃ st2,
            (match saved with
             | Some _ => ret tt
             | None => logger LWarn "Failed to save transcript"
             end) st1 = (Return tt, st2) ∧ recorded st st2).
  { destruct saved; eexists; (split; [reflexivity|]); [done|].
    revert Hrec. unfold recorded. simpl_state. done. }
  destruct Hwarn as (st2 & Hrun2 & Hrec2).
  destruct Hrec2 as (Hreq & _ & _ & Hcache2 & Htl2 & (Hp2 & Hs2) & _ & (Hpub2 & _) & _).
  assert (Hl : listeners st2 (s_meetingId session) = listeners st (s_meetingId session)).
  { unfold listeners. by rewrite Hp2, Hs2. }
  destruct (getMeetingLanguages_listeners (s_meetingId session) st2)
    as (st3 & Hrun3 & Hq); [by rewrite Hreq..|].
  rewrite Hl in Hrun3.
  destruct Hq as ((_ & _ & _ & _ & (Hpub3 & _)) & Hcache3 & Htl3 & _).
  set (langs := listeners st (s_meetingId session)) in *.
  assert (Hbranch : negb (features_translation cfg) || (length langs =? 0)%nat = false).
  { rewrite Hfeature. destruct langs; [done|reflexivity]. }
  destruct (listeners_loop_run (text transcript) (language transcript)
              (tr_id <$> saved) value langs st3) as (st4 & Hrun4 & Hby4).
  { intros p Hp. destruct (Hknown p (tr_id <$> saved) Hp) as [?|(? & ? & Ha)]; [by left|].
    right. split; [done|]. split; [done|].
    revert Ha. unfold agrees. by rewrite Hcache3, Hcache2, Htl3, Htl2. }
  destruct Hby4 as (_ & _ & _ & _ & (Hpub4 & _)).
  destruct (sendTranslatedCaptions_run (room session)
              (caption_of session speakerId speakerName transcript true)
              (map (λ p, {| participantIdentity := userId p;
                            ct_language := pref_language p;
                            ct_translatedText := value (pref_language p) |}) langs) st4)
    as (ok & st5 & new & Hrun5 & Hd5 & Hforall).
  exists st5, new. split; [|split].
  - apply run_try_return.
    rewrite (run_bind _ _ _ _ _ Hrun1), (run_bind _ _ _ _ _ Hrun2),
      (run_bind _ _ _ _ _ Hrun3), Hbranch.
    rewrite (run_bind _ _ _ _ _ Hrun4).
    by rewrite (run_bind _ _ _ _ _ Hrun5).
  - destruct Hd5 as (_ & _ & _ & _ & _ & ->). congruence.
  - rewrite map_is_fmap, Forall2_fmap_l in Hforall.
    eapply Forall2_impl; [exact Hforall|].
    intros p pub (msg & -> & ? & ? & ? & ?). exists msg. by repeat split.
Qed.

(** *** A provider that fails for one of the languages *)




(** *** Recognizer sessions and the registry *)

Lemma for_of_run {A} (P : State → State → Prop) (f : A → M unit) (l : list A) :
  (∀ st, P st st) →
  (∀ st1 st2 st3, P st1 st2 → P st2 st3 → P st1 st3) →
  (∀ x st, x ∈ l → ∃ st', f x st = (Return tt, st') ∧ P st st') →
  ∀ st, ∃ st', for_of l f st = (Return tt, st') ∧ P st st'.
Proof.
  intros Hrefl Htrans. induction l as [|x l IH]; intros Hf st.
  { exists st. split; [reflexivity|apply Hrefl]. }
  destruct (Hf x st) as (st1 & Hrun & HP); [by left|].
  destruct (IH (λ y st0 Hy, Hf y st0 (list_elem_of_further _ _ _ Hy)) st1)
    as (st2 & Hrun2 & HP2).
  exists st2. split; [|by eapply Htrans].
  cbn [for_of]. by rewrite (run_bind _ _ _ _ _ Hrun).
Qed.

Lemma registry_kept_refl (st : State) : registry_kept st st.
Proof. done. Qed.

Lemma registry_kept_trans (st1 st2 st3 : State) :
  registry_kept st1 st2 → registry_kept st2 st3 → registry_kept st1 st3.
Proof. unfold registry_kept. intros [? ?] [? ?]. split; congruence. Qed.

Lemma handleAudioTrack_run (session : Session) (audioTrack : nat)
    (participant : Participant) (st : State) :
  ∃ st', handleAudioTrack W cfg session audioTrack participant st = (Return tt, st')
         ∧ registry_kept st st'.
Proof.
  unfold handleAudioTrack, createTranscriptionSession, initializeDeepgram,
    session_transcriptionSessions, ask, get_state, logger, emit, modify,
    try_catch, bind, ret, throw.
  cbv zeta.
  destruct (deepgramClient st);
    [|destruct (truthy_opt (deepgram_apiKey cfg)); cbn [negb]];
    simpl_state;
    try destruct (listen_live_throws W (requests st));
    eexists; (split; [reflexivity|]); done.
Qed.

Lemma subscribeToParticipant_run (session : Session) (participant : Participant)
    (st : State) :
  ∃ st', subscribeToParticipant W cfg session participant st = (Return tt, st')
         ∧ registry_kept st st'.
Proof.
  unfold subscribeToParticipant.
  apply for_of_run; [apply registry_kept_refl|apply registry_kept_trans|].
  intros publication st0 _.
  destruct (pub_kind publication), (pub_track publication) as [track|];
    try (exists st0; split; [reflexivity|done]).
  apply handleAudioTrack_run.
Qed.

(** A start that reports success has registered the meeting. *)
Lemma startTranscription_success (meetingId livekitRoomName token : string)
    (st st1 : State) (out : Outcome) :
  startTranscription W cfg meetingId livekitRoomName token st = (Return out, st1) →
  success out = true →
  features_transcription cfg = true
  ∧ activeSessions st !! meetingId = None
  ∧ activeSessions st1
    = <[meetingId := {| room := rooms st; s_meetingId := meetingId |}]> (activeSessions st)
  ∧ rooms st1 = S (rooms st).
Proof.
  unfold startTranscription.
  destruct (features_transcription cfg); cbn [negb].
  2:{ intros [= <- <-]. discriminate. }
  unfold get_state. unfold bind at 1.
  destruct (activeSessions st !! meetingId) as [session|] eqn:Hactive.
  { intros [= <- <-]. discriminate. }
  cbv zeta. unfold try_catch.
  unfold modify at 1. unfold bind at 1.
  erewrite (run_bind (request W)); [|apply request_run].
  simpl_state.
  destruct (room_connect W (requests st)) as [error_message|participants].
  { unfold logger, emit, modify, bind, throw, ret. intros [= <- <-]. discriminate. }
  unfold emit at 1, modify at 1. unfold bind at 1.
  unfold logger at 1, emit at 1, modify at 1. unfold bind at 1.
  match goal with |- context [bind (sendSystemMessage W ?r ?m ?p) _ ?s] =>
    destruct (sendSystemMessage_run r m p s)
      as (ok & st2 & payload & destination & Hsend & Hd)
  end.
  rewrite (run_bind _ _ _ _ _ Hsend).
  unfold modify at 1. unfold bind at 1.
  match goal with |- context [bind (for_of participants ?f) _ ?s] =>
    destruct (for_of_run registry_kept f participants
                registry_kept_refl registry_kept_trans
                (λ x st0 _, subscribeToParticipant_run _ x st0) s)
      as (st3 & Hloop & Hkept)
  end.
  rewrite (run_bind _ _ _ _ _ Hloop). unfold ret.
  intros [= <- <-] _.
  destruct Hkept as [Hactive3 Hrooms3]. revert Hactive3 Hrooms3. simpl_state.
  destruct Hd as (_ & _ & (_ & _ & Hrooms2 & _ & Hactive2) & _).
  revert Hrooms2 Hactive2. simpl_state.
  intros -> -> -> ->. done.
Qed.

(** *** The claims about sessions *)

(** C6: when start(M) has succeeded, a second start(M), made in any later
    state in which nothing has removed M's entry from the registry (no
    stop, no room disconnect), returns normally with the rejection 'Already
    transcribing', creates no second room object and leaves the registry
    as it was: M is registered exactly once, with the session of the first
    call. *)
Theorem second_start_is_rejected (meetingId room1 token1 room2 token2 : string)
    (st st1 later : State) (out : Outcome) :
  startTranscription W cfg meetingId room1 token1 st = (Return out, st1) →
  success out = true →
  activeSessions later !! meetingId = activeSessions st1 !! meetingId →
  ∃ st2,
    startTranscription W cfg meetingId room2 token2 later
    = (Return {| success := false; message := "Already transcribing" |}, st2)
    ∧ activeSessions st2 = activeSessions later
    ∧ rooms st2 = rooms later
    ∧ activeSessions st2 !! meetingId
      = Some {| room := rooms st; s_meetingId := meetingId |}
    ∧ size (filter (λ entry, entry.1 = meetingId) (activeSessions st2)) = 1%nat.
Proof.
  intros Hrun Hok Hkept.
  destruct (startTranscription_success _ _ _ _ _ _ Hrun Hok)
    as (Hfeature & Hfree & Hactive & Hrooms).
  assert (Hin : activeSessions later !! meetingId
                = Some {| room := rooms st; s_meetingId := meetingId |}).
  { rewrite Hkept, Hactive. apply lookup_insert_eq. }
  unfold startTranscription. rewrite Hfeature. cbn [negb].
  unfold get_state. unfold bind at 1. rewrite Hin.
  unfold logger, emit, modify, bind, ret.
  eexists. split; [reflexivity|]. simpl_state.
  repeat split; try done.
  by eapply size_filter_key.
Qed.

(** C2, as the code has it: the Error and Close handlers of a recognizer
    connection only write a log line.  Whatever sequence of such events a
    connection emits, no new connection is opened (there is no
    reconnection and no backoff), nothing is handed to the transport (no
    notice), and the registry, the speaker's entry in its session and the
    connection's handlers stay as they were (there is no failed state). *)
Theorem disconnect_is_only_logged (connection : nat)
    (events : list LiveTranscriptionEvent) (st : State) :
  Forall (λ ev, ev = OnError ∨ ev = OnClose) events →
  ∃ st',
    for_of events (connection_emit W cfg connection) st = (Return tt, st')
    ∧ delivered st st' []
    ∧ clock st' = clock st
    ∧ requests st' = requests st.
Proof.
  intros Hevents.
  apply (for_of_run (λ st st', delivered st st' [] ∧ clock st' = clock st
                               ∧ requests st' = requests st)).
  - intros st0. split; [solve_delivered|done].
  - intros st1 st2 st3 (Hd1 & ? & ?) (Hd2 & ? & ?).
    split; [|split; congruence].
    destruct Hd1 as ((?&?)&(?&?&?&?&?)&(?&?&?&?&?)&?&?&?).
    destruct Hd2 as ((?&?)&(?&?&?&?&?)&(?&?&?&?&?)&?&?&?).
    unfold delivered, stores_untouched, same_settings, same_sessions, time_passes.
    simpl in *. repeat split; first [lia | congruence].
  - intros ev st0 Hin.
    rewrite Forall_forall in Hevents. specialize (Hevents ev Hin).
    unfold connection_emit, get_state. unfold bind at 1.
    destruct (connections st0 !! connection) as [c|].
    2:{ exists st0. split; [reflexivity|]. split; [solve_delivered|done]. }
    destruct Hevents as [-> | ->];
      (eexists; split; [reflexivity|]; split; [solve_delivered|done]).
Qed.

End Properties.

(** ** Further properties of the modules *)

Section Further.

Context (W : World) (cfg : Config).

(** *** The transcript tables *)

Lemma existsb_false_filter {A} (f : A → bool) (l : list A) :
  existsb f l = false → filter (λ x, f x = true) l = [].
Proof.
  induction l as [|x l IH]; [done|]. simpl. intros H.
  apply orb_false_iff in H as [Hx Hl].
  rewrite filter_cons. rewrite decide_False by (rewrite Hx; done). by apply IH.
Qed.

Lemma saveTranslation_cases (transcriptId targetLanguage translatedText service : string)
    (st : State) :
  let row := {| tl_transcript_id := transcriptId; tl_target_language := targetLanguage;
                tl_translated_text := translatedText; tl_translation_service := service |} in
  ∃ r st1,
    saveTranslation W transcriptId targetLanguage translatedText service st = (Return r, st1)
    ∧ meeting_transcripts st1 = meeting_transcripts st
    ∧ ((r = None ∧ meeting_translations st1 = meeting_translations st)
       ∨ (r = Some row
          ∧ meeting_translations st1 = (meeting_translations st ++ [row])%list
          ∧ filter (λ r, translation_row_matches transcriptId targetLanguage r = true)
              (meeting_translations st) = []
          ∧ existsb (λ r, String.eqb (tr_id r) transcriptId) (meeting_transcripts st) = true)).
Proof.
  intros row. unfold saveTranslation.
  rewrite (run_bind _ _ _ _ _ (request_run W st)).
  unfold get_state at 1. unfold bind at 1. cbv zeta.
  simpl_state.
  destruct (supabase_error W (requests st)).
  { do 2 eexists. split; [reflexivity|]. split; [reflexivity|]. left. by split. }
  destruct (existsb _ (meeting_translations st)) eqn:Hdup.
  { do 2 eexists. split; [reflexivity|]. split; [reflexivity|]. left. by split. }
  destruct (existsb _ (meeting_transcripts st)) eqn:Href; cbn [negb].
  - do 2 eexists. split; [reflexivity|]. split; [reflexivity|]. right.
    repeat split. by apply existsb_false_filter.
  - do 2 eexists. split; [reflexivity|]. split; [reflexivity|]. left. by split.
Qed.

Lemma getTranslation_single (transcriptId targetLanguage : string) (st : State)
    (row : TranslationRow) :
  supabase_error W (requests st) = false →
  filter (λ r, translation_row_matches transcriptId targetLanguage r = true)
    (meeting_translations st) = [row] →
  getTranslation W transcriptId targetLanguage st
  = (Return (Some (tl_translated_text row)),
     set_clock (λ c, c + elapsed W (requests st)) (set_requests S st)).
Proof.
  intros Hok Hrow. unfold getTranslation.
  rewrite (run_bind _ _ _ _ _ (request_run W st)).
  unfold get_state at 1. unfold bind at 1. simpl_state.
  by rewrite Hok, Hrow.
Qed.

(** X1: A translation that saveTranslation reported as stored is what
    getTranslation returns for the same transcript and language, as long as
    the table is as the save left it and the query does not fail. *)
Theorem saved_translation_is_found (transcriptId targetLanguage translatedText service : string)
    (st st1 later : State) (row : TranslationRow) :
  saveTranslation W transcriptId targetLanguage translatedText service st
  = (Return (Some row), st1) →
  meeting_translations later = meeting_translations st1 →
  supabase_error W (requests later) = false →
  ∃ later',
    getTranslation W transcriptId targetLanguage later
    = (Return (Some translatedText), later').
Proof.
  intros Hsave Hsame Hok.
  destruct (saveTranslation_cases transcriptId targetLanguage translatedText service st)
    as (r & st1' & Hrun & _ & Hcases).
  rewrite Hsave in Hrun. injection Hrun as <- <-.
  destruct Hcases as [[? _]|(_ & Hrows & Hnone & _)]; [done|].
  eexists.
  rewrite (getTranslation_single _ _ later
             {| tl_transcript_id := transcriptId; tl_target_language := targetLanguage;
                tl_translated_text := translatedText; tl_translation_service := service |});
    [reflexivity|done|].
  rewrite Hsame, Hrows, filter_app, Hnone. simpl.
  rewrite filter_cons, filter_nil. rewrite decide_True; [done|].
  unfold translation_row_matches. simpl. by rewrite !String.eqb_refl.
Qed.

(** X2: saveTranslation never throws and never changes a stored row: it leaves
    the table as it is, or appends the new row; when a translation of the
    transcript into the language is already stored it returns null and the
    table stays as it is (the first stored translation is kept).  At most one
    row per transcript and language stays at most one. *)
Theorem saveTranslation_keeps_the_first (transcriptId targetLanguage translatedText service : string)
    (st : State) :
  ∃ r st1,
    saveTranslation W transcriptId targetLanguage translatedText service st = (Return r, st1)
    ∧ (meeting_translations st1 = meeting_translations st
       ∨ ∃ row, r = Some row
                ∧ tl_translated_text row = translatedText
                ∧ meeting_translations st1 = (meeting_translations st ++ [row])%list)
    ∧ ((∃ row, row ∈ meeting_translations st
               ∧ translation_row_matches transcriptId targetLanguage row = true) →
       r = None ∧ meeting_translations st1 = meeting_translations st)
    ∧ ((∀ id lang,
          (length (filter (λ r, translation_row_matches id lang r = true)
                     (meeting_translations st)) ≤ 1)%nat) →
       ∀ id lang,
          (length (filter (λ r, translation_row_matches id lang r = true)
                     (meeting_translations st1)) ≤ 1)%nat).
Proof.
  destruct (saveTranslation_cases transcriptId targetLanguage translatedText service st)
    as (r & st1 & Hrun & _ & Hcases).
  exists r, st1. split; [done|].
  destruct Hcases as [[-> Hsame]|(-> & Hrows & Hnone & _)].
  - split; [by left|]. split; [done|]. intros Huniq id lang. by rewrite Hsame.
  - split; [right; by eexists|]. split.
    + intros (row & Hin & Hmatch).
      assert (row ∈ filter (λ r, translation_row_matches transcriptId targetLanguage r = true)
                      (meeting_translations st)) as Hin'
        by by apply list_elem_of_filter.
      rewrite Hnone in Hin'. by apply elem_of_nil in Hin'.
    + intros Huniq id lang. rewrite Hrows, filter_app, length_app.
      rewrite filter_cons, filter_nil. case_decide as Hm; [|specialize (Huniq id lang); simpl; lia].
      unfold translation_row_matches in Hm. simpl in Hm.
      apply andb_true_iff in Hm as [->%String.eqb_eq ->%String.eqb_eq].
      rewrite Hnone. simpl. lia.
Qed.

(** **** Reading a meeting's transcripts *)

Lemma insert_by_timestamp_perm (row : TranscriptRow) (rows : list TranscriptRow) :
  insert_by_timestamp row rows ≡ₚ row :: rows.
Proof.
  induction rows as [|r rows IH]; [done|]. simpl.
  destruct (_ <=? _); [done|]. rewrite IH. apply Permutation_swap.
Qed.

Lemma order_by_timestamp_perm (rows : list TranscriptRow) :
  order_by_timestamp rows ≡ₚ rows.
Proof.
  induction rows as [|r rows IH]; [done|]. unfold order_by_timestamp. simpl.
  rewrite insert_by_timestamp_perm. by f_equiv.
Qed.

Lemma insert_by_timestamp_sorted (row : TranscriptRow) (rows : list TranscriptRow) :
  in_time_order rows → in_time_order (insert_by_timestamp row rows).
Proof.
  unfold in_time_order.
  induction rows as [|r rows IH]; intros Hs; simpl.
  - repeat constructor.
  - destruct (tr_timestamp_ms row <=? tr_timestamp_ms r) eqn:Hle.
    + apply N.leb_le in Hle. constructor; [done|].
      apply StronglySorted_inv in Hs as [_ Hall].
      constructor; [done|]. eapply Forall_impl; [exact Hall|]. simpl. intros; lia.
    + apply N.leb_gt in Hle. apply StronglySorted_inv in Hs as [Hs Hall].
      constructor; [by apply IH|].
      rewrite insert_by_timestamp_perm. constructor; [lia|done].
Qed.

Lemma order_by_timestamp_sorted (rows : list TranscriptRow) :
  in_time_order (order_by_timestamp rows).
Proof.
  induction rows as [|r rows IH]; [constructor|].
  by apply insert_by_timestamp_sorted.
Qed.

Lemma getMeetingTranscripts_run (meetingId : string) (st : State) :
  getMeetingTranscripts W meetingId st
  = if supabase_error W (requests st)
    then (Return [],
          set_trace (cons (EvLog LError "Error getting meeting transcripts"))
            (set_clock (λ c, c + elapsed W (requests st)) (set_requests S st)))
    else (Return (order_by_timestamp
                    (filter (λ r, String.eqb (tr_meeting_id r) meetingId = true)
                       (meeting_transcripts st))),
          set_clock (λ c, c + elapsed W (requests st)) (set_requests S st)).
Proof.
  unfold getMeetingTranscripts.
  rewrite (run_bind _ _ _ _ _ (request_run W st)).
  unfold get_state at 1. unfold bind at 1. simpl_state.
  by destruct (supabase_error W (requests st)).
Qed.

(** X3: getMeetingTranscripts never throws.  What it returns is in ascending
    order of time stamps and holds only stored transcripts of the meeting;
    when the query succeeds it holds all of them, each as often as it is
    stored, and when the query fails it is the empty list.  The table is
    left as it is. *)
Theorem getMeetingTranscripts_in_time_order (meetingId : string) (st : State) :
  ∃ rows st',
    getMeetingTranscripts W meetingId st = (Return rows, st')
    ∧ in_time_order rows
    ∧ (∀ r, r ∈ rows → r ∈ meeting_transcripts st ∧ tr_meeting_id r = meetingId)
    ∧ (if supabase_error W (requests st) then rows = []
       else rows ≡ₚ filter (λ r, String.eqb (tr_meeting_id r) meetingId = true)
                      (meeting_transcripts st))
    ∧ meeting_transcripts st' = meeting_transcripts st.
Proof.
  rewrite getMeetingTranscripts_run.
  destruct (supabase_error W (requests st)).
  - do 2 eexists. split; [reflexivity|]. split; [constructor|].
    split; [by intros r ?%elem_of_nil|]. done.
  - do 2 eexists. split; [reflexivity|]. split; [apply order_by_timestamp_sorted|].
    split; [|split; [apply order_by_timestamp_perm|done]].
    intros r Hr. rewrite order_by_timestamp_perm in Hr.
    apply list_elem_of_filter in Hr as [Hm Hin]. split; [done|]. by apply String.eqb_eq.
Qed.

Lemma saveTranscript_eq (meetingId speakerId speakerName text language : string)
    (confidence : Confidence) (st : State) :
  let row := {| tr_id := gen_random_uuid W (requests st); tr_meeting_id := meetingId;
                tr_speaker_id := speakerId; tr_speaker_name := speakerName;
                tr_original_text := text; tr_detected_language := language;
                tr_confidence := confidence; tr_timestamp_ms := clock st |} in
  let st0 := set_clock (λ c, c + elapsed W (requests st)) (set_requests S st) in
  saveTranscript W meetingId speakerId speakerName text language confidence st
  = if supabase_error W (requests st)
       || existsb (λ r, String.eqb (tr_id r) (tr_id row)) (meeting_transcripts st)
    then (Return None, set_trace (cons (EvLog LError "Error saving transcript")) st0)
    else (Return (Some row),
          set_trace (cons (EvLog LDebug "Transcript saved"))
            (set_meeting_transcripts (λ rows, (rows ++ [row])%list) st0)).
Proof.
  intros row st0. unfold saveTranscript.
  unfold Date_now at 1. unfold bind at 1.
  rewrite (run_bind _ _ _ _ _ (request_run W st)).
  cbv zeta. unfold get_state at 1. unfold bind at 1. simpl_state.
  by destruct (supabase_error W (requests st) || existsb _ _).
Qed.

(** X4: A transcript that saveTranscript reported as stored carries the
    meeting, the speaker, the text and the time of the call, and
    getMeetingTranscripts for its meeting returns it, as long as the table is
    as the save left it and the query does not fail. *)
Theorem saved_transcript_is_listed (meetingId speakerId speakerName text language : string)
    (confidence : Confidence) (st st1 later : State) (row : TranscriptRow) :
  saveTranscript W meetingId speakerId speakerName text language confidence st
  = (Return (Some row), st1) →
  meeting_transcripts later = meeting_transcripts st1 →
  supabase_error W (requests later) = false →
  tr_meeting_id row = meetingId
  ∧ tr_speaker_id row = speakerId
  ∧ tr_original_text row = text
  ∧ tr_timestamp_ms row = clock st
  ∧ ∃ rows later',
      getMeetingTranscripts W meetingId later = (Return rows, later')
      ∧ row ∈ rows.
Proof.
  intros Hsave Hsame Hok.
  rewrite saveTranscript_eq in Hsave. cbv zeta in Hsave.
  destruct (supabase_error W (requests st) || existsb _ _); [done|].
  injection Hsave as <- <-. repeat split.
  rewrite getMeetingTranscripts_run, Hok. do 2 eexists. split; [reflexivity|].
  rewrite order_by_timestamp_perm. apply list_elem_of_filter.
  split; [simpl; by rewrite String.eqb_refl|].
  rewrite Hsame. simpl_state. apply elem_of_app. right. by apply list_elem_of_singleton.
Qed.

Lemma deleteMeetingTranscripts_run (meetingId : string) (st : State) :
  deleteMeetingTranscripts W meetingId st
  = if supabase_error W (requests st)
    then (Return false,
          set_trace (cons (EvLog LError "Error deleting transcripts"))
            (set_clock (λ c, c + elapsed W (requests st)) (set_requests S st)))
    else (Return true,
          set_trace (cons (EvLog LInfo "Meeting transcripts deleted"))
            (set_meeting_translations
               (filter (λ t, existsb (λ r, String.eqb (tr_id r) (tl_transcript_id t))
                               (filter (λ r, String.eqb (tr_meeting_id r) meetingId = true)
                                  (meeting_transcripts st)) = false))
               (set_meeting_transcripts
                  (filter (λ r, String.eqb (tr_meeting_id r) meetingId = false))
                  (set_clock (λ c, c + elapsed W (requests st)) (set_requests S st))))).
Proof.
  unfold deleteMeetingTranscripts.
  rewrite (run_bind _ _ _ _ _ (request_run W st)).
  unfold get_state at 1. unfold bind at 1. simpl_state.
  by destruct (supabase_error W (requests st)).
Qed.

(** X5: deleteMeetingTranscripts never throws.  When it returns false no row
    has changed.  When it returns true the meeting has no transcript left
    (getMeetingTranscripts returns the empty list for it), the transcripts
    of every other meeting are the ones stored before, in the same order, a
    stored translation stays exactly when its transcript was not one of the
    meeting's, and the in-memory translation cache is as it was. *)
Theorem deleted_meeting_has_no_transcripts (meetingId : string) (st : State) :
  ∃ ok st1,
    deleteMeetingTranscripts W meetingId st = (Return ok, st1)
    ∧ translationCache st1 = translationCache st
    ∧ (ok = false →
         meeting_transcripts st1 = meeting_transcripts st
         ∧ meeting_translations st1 = meeting_translations st)
    ∧ (ok = true →
         (∀ later, meeting_transcripts later = meeting_transcripts st1 →
            ∃ later', getMeetingTranscripts W meetingId later = (Return [], later'))
         ∧ (∀ other, other ≠ meetingId →
              filter (λ r, String.eqb (tr_meeting_id r) other = true) (meeting_transcripts st1)
              = filter (λ r, String.eqb (tr_meeting_id r) other = true) (meeting_transcripts st))
         ∧ (∀ t, t ∈ meeting_translations st1 ↔
              t ∈ meeting_translations st
              ∧ ∀ r, r ∈ meeting_transcripts st → tr_id r = tl_transcript_id t →
                     tr_meeting_id r ≠ meetingId)).
Proof.
  rewrite deleteMeetingTranscripts_run.
  destruct (supabase_error W (requests st)).
  { do 2 eexists. split; [reflexivity|]. split; [done|]. split; [done|]. done. }
  do 2 eexists. split; [reflexivity|]. split; [done|]. split; [done|].
  intros _. simpl_state. split; [|split].
  - intros later Hlater. rewrite getMeetingTranscripts_run.
    assert (filter (λ r, String.eqb (tr_meeting_id r) meetingId = true)
              (meeting_transcripts later) = []) as Hnone.
    { rewrite Hlater. clear Hlater.
      induction (meeting_transcripts st) as [|r rows IH]; [done|].
      rewrite filter_cons. case_decide as Hr; [|done].
      rewrite filter_cons. rewrite decide_False; [done|].
      by rewrite Hr. }
    rewrite Hnone. destruct (supabase_error W (requests later)); by eexists.
  - intros other Hother.
    induction (meeting_transcripts st) as [|r rows IH]; [done|].
    rewrite !filter_cons. case_decide as Hr.
    + rewrite filter_cons. case_decide; by rewrite IH.
    + rewrite decide_False; [done|]. apply not_false_iff_true in Hr.
      apply String.eqb_eq in Hr. rewrite Hr. intros ?%String.eqb_eq. done.
  - intros t. rewrite list_elem_of_filter. split.
    + intros [Hnot Hin]. split; [done|]. intros r Hr Hid Hm.
      apply not_true_iff_false in Hnot. apply Hnot.
      apply existsb_exists. exists r. split.
      * apply list_elem_of_In, list_elem_of_filter. split; [|done].
        rewrite Hm. apply String.eqb_refl.
      * rewrite Hid. apply String.eqb_refl.
    + intros [Hin Hnot]. split; [|done].
      apply not_true_iff_false. intros (r & Hr & Hid)%existsb_exists.
      apply list_elem_of_In, list_elem_of_filter in Hr as [Hm Hr].
      apply String.eqb_eq in Hid, Hm. by apply (Hnot r).
Qed.

(** *** JavaScript maps in insertion order *)

Lemma JsMap_get_set_eq {V} (k : string) (x : V) (m : list (string * V)) :
  JsMap.get k (JsMap.set k x m) = Some x.
Proof.
  induction m as [|[k' x'] m IH]; simpl.
  - by rewrite String.eqb_refl.
  - destruct (String.eqb k' k) eqn:Hk; simpl.
    + by rewrite String.eqb_refl.
    + by rewrite Hk.
Qed.

Lemma JsMap_get_set_ne {V} (k j : string) (x : V) (m : list (string * V)) :
  k ≠ j → JsMap.get j (JsMap.set k x m) = JsMap.get j m.
Proof.
  intros Hkj. induction m as [|[k' x'] m IH]; simpl.
  - by apply String.eqb_neq in Hkj as ->.
  - destruct (String.eqb k' k) eqn:Hk; simpl.
    + apply String.eqb_eq in Hk as ->. by apply String.eqb_neq in Hkj as ->.
    + by rewrite IH.
Qed.

Lemma JsMap_set_keys {V} (k j : string) (x : V) (m : list (string * V)) :
  j ∈ (JsMap.set k x m).*1 ↔ j = k ∨ j ∈ m.*1.
Proof.
  induction m as [|[k' x'] m IH]; simpl.
  - rewrite list_elem_of_singleton. rewrite elem_of_nil. tauto.
  - destruct (String.eqb k' k) eqn:Hk; simpl.
    + apply String.eqb_eq in Hk as ->. rewrite !elem_of_cons. tauto.
    + rewrite !elem_of_cons, IH. tauto.
Qed.

Lemma JsMap_set_NoDup {V} (k : string) (x : V) (m : list (string * V)) :
  NoDup m.*1 → NoDup (JsMap.set k x m).*1.
Proof.
  induction m as [|[k' x'] m IH]; simpl; intros Hnd.
  - apply NoDup_singleton.
  - apply NoDup_cons in Hnd as [Hk' Hnd].
    destruct (String.eqb k' k) eqn:Hk; simpl.
    + apply String.eqb_eq in Hk as ->. by apply NoDup_cons.
    + apply NoDup_cons. split; [|by apply IH].
      rewrite JsMap_set_keys. intros [->|?]; [|done].
      by rewrite String.eqb_refl in Hk.
Qed.

Lemma JsMap_get_Some {V} (k : string) (x : V) (m : list (string * V)) :
  JsMap.get k m = Some x → (k, x) ∈ m.
Proof.
  induction m as [|[k' x'] m IH]; simpl; [done|].
  destruct (String.eqb k' k) eqn:Hk.
  - apply String.eqb_eq in Hk as ->. intros [= ->]. by left.
  - intros H. right. by apply IH.
Qed.

Lemma JsMap_get_None {V} (k : string) (m : list (string * V)) :
  JsMap.get k m = None ↔ k ∉ m.*1.
Proof.
  induction m as [|[k' x'] m IH]; simpl.
  - split; [|done]. intros _ Hin. by apply elem_of_nil in Hin.
  - destruct (String.eqb k' k) eqn:Hk.
    + apply String.eqb_eq in Hk as ->. split; [done|]. intros H. destruct H. by left.
    + apply String.eqb_neq in Hk. rewrite IH, not_elem_of_cons.
      split; [intros ?; split; [by intros ->|done]|by intros [_ ?]].
Qed.

Lemma JsMap_elem_get {V} (k : string) (x : V) (m : list (string * V)) :
  NoDup m.*1 → (k, x) ∈ m → JsMap.get k m = Some x.
Proof.
  induction m as [|[k' x'] m IH]; simpl; intros Hnd Hin.
  - by apply elem_of_nil in Hin.
  - apply NoDup_cons in Hnd as [Hk' Hnd].
    apply elem_of_cons in Hin as [[= <- <-]|Hin].
    + by rewrite String.eqb_refl.
    + destruct (String.eqb k' k) eqn:Hk; [|by apply IH].
      apply String.eqb_eq in Hk as ->. destruct Hk'.
      apply list_elem_of_fmap. by exists (k, x).
Qed.

Lemma JsMap_get_delete_ne {V} (k j : string) (m : list (string * V)) :
  k ≠ j → JsMap.get j (JsMap.delete k m) = JsMap.get j m.
Proof.
  intros Hkj. induction m as [|[k' x'] m IH]; simpl; [done|].
  destruct (String.eqb k' k) eqn:Hk; simpl.
  - apply String.eqb_eq in Hk as ->. by apply String.eqb_neq in Hkj as ->.
  - by rewrite IH.
Qed.

Lemma JsMap_get_delete_eq {V} (k : string) (m : list (string * V)) :
  NoDup m.*1 → JsMap.get k (JsMap.delete k m) = None.
Proof.
  induction m as [|[k' x'] m IH]; simpl; intros Hnd; [done|].
  apply NoDup_cons in Hnd as [Hk' Hnd].
  destruct (String.eqb k' k) eqn:Hk; simpl.
  - apply String.eqb_eq in Hk as ->. by apply JsMap_get_None.
  - rewrite Hk. by apply IH.
Qed.

(** *** The listeners' languages *)

Lemma or_else_truthy (a : option string) (b : string) :
  truthy b = true → truthy (or_else a b) = true.
Proof.
  intros Hb. destruct a as [s|]; simpl; [|done]. by destruct (truthy s) eqn:Hs.
Qed.

(** The map that getMeetingLanguages fills: one entry per user id, its
    value computed from the user id. *)
Lemma languageMap_spec (g : string → string) (participants : list ParticipantRow)
    (m : list (string * string)) :
  NoDup m.*1 →
  (∀ k x, (k, x) ∈ m → x = g k) →
  let result := fold_left (λ m p, JsMap.set (mp_user_id p) (g (mp_user_id p)) m)
                  participants m in
  NoDup result.*1
  ∧ (∀ k x, (k, x) ∈ result → x = g k)
  ∧ (∀ k, k ∈ result.*1 ↔ k ∈ m.*1 ∨ k ∈ mp_user_id <$> participants).
Proof.
  revert m. induction participants as [|p participants IH]; intros m Hnd Hval; simpl.
  - split; [done|]. split; [done|]. intros k. rewrite elem_of_nil. tauto.
  - destruct (IH (JsMap.set (mp_user_id p) (g (mp_user_id p)) m)) as (H1 & H2 & H3).
    + by apply JsMap_set_NoDup.
    + intros k x Hin. destruct (decide (k = mp_user_id p)) as [->|Hk].
      * apply JsMap_elem_get in Hin; [|by apply JsMap_set_NoDup].
        rewrite JsMap_get_set_eq in Hin. by injection Hin as <-.
      * apply JsMap_elem_get in Hin; [|by apply JsMap_set_NoDup].
        rewrite JsMap_get_set_ne in Hin by done.
        apply JsMap_get_Some in Hin. by apply Hval.
    + split; [done|]. split; [done|].
      intros k. rewrite H3, JsMap_set_keys, elem_of_cons. tauto.
Qed.

Lemma listeners_spec (st : State) (meetingId : string) :
  NoDup (userId <$> listeners st meetingId)
  ∧ (∀ p, p ∈ listeners st meetingId →
       pref_language p = language_of st meetingId (userId p))
  ∧ (∀ user, user ∈ userId <$> listeners st meetingId ↔
       ∃ row, row ∈ meeting_participants st
              ∧ mp_meeting_id row = meetingId ∧ mp_user_id row = user).
Proof.
  unfold listeners. cbv zeta.
  set (participants := filter _ (meeting_participants st)).
  destruct (languageMap_spec (language_of st meetingId) participants [])
    as (H1 & H2 & H3); [constructor|by intros ?? ?%elem_of_nil|].
  cbv zeta in H1, H2, H3. fold participants in H1, H2, H3.
  unfold language_of in H1, H2, H3 at 1. fold participants in H1, H2, H3.
  set (languageMap := fold_left _ participants []) in *.
  change (map ?f languageMap) with (f <$> languageMap).
  assert (userId <$> ((λ e, {| userId := e.1; pref_language := e.2 |}) <$> languageMap)
          = languageMap.*1) as Hkeys.
  { rewrite <- list_fmap_compose. by apply list_fmap_ext. }
  rewrite Hkeys. split; [done|]. split.
  - intros p Hp. apply list_elem_of_fmap in Hp as ([k x] & -> & Hin). simpl.
    by apply H2.
  - intros user. rewrite H3.
    split.
    + intros [?%elem_of_nil|Hin]; [done|].
      apply list_elem_of_fmap in Hin as (row & -> & Hin).
      apply list_elem_of_filter in Hin as [Hm Hin].
      exists row. by apply String.eqb_eq in Hm.
    + intros (row & Hin & Hm & <-). right.
      apply list_elem_of_fmap. exists row. split; [done|].
      apply list_elem_of_filter. split; [|done]. rewrite Hm. apply String.eqb_refl.
Qed.


Lemma getUserLanguage_run (user : string) (st : State) :
  getUserLanguage W user st
  = if supabase_error W (requests st)
    then (Return "en",
          set_trace (cons (EvLog LError "Error getting user language"))
            (set_clock (λ c, c + elapsed W (requests st)) (set_requests S st)))
    else (Return
            match filter (λ s, String.eqb (us_user_id s) user = true) (user_settings st) with
            | [s] => or_else (us_preferred_language s) "en"
            | _ => "en"
            end,
          set_clock (λ c, c + elapsed W (requests st)) (set_requests S st)).
Proof.
  unfold getUserLanguage.
  rewrite (run_bind _ _ _ _ _ (request_run W st)).
  unfold get_state at 1. unfold bind at 1. simpl_state.
  destruct (supabase_error W (requests st)); [done|].
  by destruct (filter _ (user_settings st)) as [|s [|s2 rows]].
Qed.


Lemma updateUserLanguage_run (user language : string) (st : State) :
  updateUserLanguage W user language st
  = if supabase_error W (requests st)
    then (Return false,
          set_trace (cons (EvLog LError "Error updating user language"))
            (set_clock (λ c, c + elapsed W (requests st)) (set_requests S st)))
    else (Return true,
          set_trace (cons (EvLog LInfo "User language updated"))
            (set_user_settings (upsert_language user language)
               (set_clock (λ c, c + elapsed W (requests st)) (set_requests S st)))).
Proof.
  unfold updateUserLanguage.
  rewrite (run_bind _ _ _ _ _ (request_run W st)).
  by destruct (supabase_error W (requests st)).
Qed.

(** Every row of the user in the table after the upsert is the new row,
    and the new row is there. *)
Lemma upsert_language_rows (user language : string) (rows : list UserSettingsRow) :
  let row := {| us_user_id := user; us_preferred_language := Some language |} in
  row ∈ upsert_language user language rows
  ∧ ∀ s, s ∈ upsert_language user language rows → us_user_id s = user → s = row.
Proof.
  intros row. unfold upsert_language. cbv zeta. fold row.
  destruct (existsb _ rows) eqn:Hex.
  - split.
    + apply existsb_exists in Hex as (s & Hin & Hs).
      apply list_elem_of_In in Hin.
      apply list_elem_of_fmap. exists s. by rewrite Hs.
    + intros s Hin Hs. apply list_elem_of_fmap in Hin as (s0 & -> & Hin).
      destruct (String.eqb (us_user_id s0) user) eqn:H0; [done|].
      apply String.eqb_neq in H0. done.
  - split.
    + apply elem_of_app. right. by left.
    + intros s Hin Hs. apply elem_of_app in Hin as [Hin|Hin].
      * apply existsb_false_filter in Hex.
        assert (s ∈ filter (λ s, String.eqb (us_user_id s) user = true) rows) as Hf.
        { apply list_elem_of_filter. split; [|done]. rewrite Hs. apply String.eqb_refl. }
        rewrite Hex in Hf. by apply elem_of_nil in Hf.
      * by apply list_elem_of_singleton in Hin.
Qed.

Lemma upsert_language_single (user language : string) (rows : list UserSettingsRow) :
  (length (filter (λ s, String.eqb (us_user_id s) user = true) rows) ≤ 1)%nat →
  filter (λ s, String.eqb (us_user_id s) user = true) (upsert_language user language rows)
  = [ {| us_user_id := user; us_preferred_language := Some language |} ].
Proof.
  intros Hlen. unfold upsert_language.
  destruct (existsb _ rows) eqn:Hex.
  - assert (∀ l : list UserSettingsRow,
              filter (λ s, String.eqb (us_user_id s) user = true)
                (map (λ s, if String.eqb (us_user_id s) user
                           then {| us_user_id := user; us_preferred_language := Some language |}
                           else s) l)
              = (λ _, {| us_user_id := user; us_preferred_language := Some language |})
                  <$> filter (λ s, String.eqb (us_user_id s) user = true) l) as Hmap.
    { induction l as [|s l IH]; [done|].
      change (map ?f (s :: l)) with (f s :: map f l).
      rewrite !filter_cons, IH.
      destruct (String.eqb (us_user_id s) user) eqn:Hs; simpl.
      - rewrite String.eqb_refl. by rewrite !decide_True.
      - rewrite Hs. by rewrite !decide_False. }
    rewrite Hmap.
    destruct (filter _ rows) as [|s [|s2 l]] eqn:Hf; [|done|simpl in Hlen; lia].
    apply existsb_exists in Hex as (s & Hin & Hs). apply list_elem_of_In in Hin.
    assert (s ∈ filter (λ s, String.eqb (us_user_id s) user = true) rows) as Hs'
      by by apply list_elem_of_filter.
    rewrite Hf in Hs'. by apply elem_of_nil in Hs'.
  - apply existsb_false_filter in Hex.
    rewrite filter_app, Hex, filter_cons, filter_nil. simpl.
    by rewrite String.eqb_refl, decide_True.
Qed.

(** X7: Round trip: after updateUserLanguage has returned true, getUserLanguage
    returns the language that was written (or 'en' when the empty string was
    written), as long as the table is as the update left it and the query
    does not fail.  The table has at most one row per user (UNIQUE(user_id)). *)
Theorem updated_language_is_read_back (user language : string) (st st1 later : State) :
  updateUserLanguage W user language st = (Return true, st1) →
  (length (filter (λ s, String.eqb (us_user_id s) user = true) (user_settings st)) ≤ 1)%nat →
  user_settings later = user_settings st1 →
  supabase_error W (requests later) = false →
  ∃ later',
    getUserLanguage W user later = (Return (or_else (Some language) "en"), later').
Proof.
  intros Hupd Huniq Hsame Hok.
  rewrite updateUserLanguage_run in Hupd.
  destruct (supabase_error W (requests st)); [done|].
  injection Hupd as <-.
  rewrite getUserLanguage_run, Hok, Hsame. simpl_state.
  rewrite upsert_language_single by done. by eexists.
Qed.

(** X8: getMeetingLanguages never throws.  Its result has one entry per user:
    the user ids are distinct, each is the user id of a participant row of
    the meeting, and no language is the empty string.  When both queries
    succeed every participant of the meeting has an entry. *)
Theorem getMeetingLanguages_one_entry_per_user (meetingId : string) (st : State) :
  ∃ langs st',
    getMeetingLanguages W meetingId st = (Return langs, st')
    ∧ NoDup (userId <$> langs)
    ∧ (∀ p, p ∈ langs →
         truthy (pref_language p) = true
         ∧ ∃ row, row ∈ meeting_participants st
                  ∧ mp_meeting_id row = meetingId ∧ mp_user_id row = userId p)
    ∧ (supabase_error W (requests st) = false →
       supabase_error W (S (requests st)) = false →
       ∀ row, row ∈ meeting_participants st → mp_meeting_id row = meetingId →
              mp_user_id row ∈ userId <$> langs).
Proof.
  destruct (supabase_error W (requests st)) eqn:H1;
    [|destruct (supabase_error W (S (requests st))) eqn:H2].
  - destruct (getMeetingLanguages_run W meetingId st) as (langs & st' & Hrun & _ & Hnone).
    exists [], st'. rewrite Hrun, Hnone by by left.
    split; [done|]. split; [constructor|]. split; [by intros p ?%elem_of_nil|done].
  - destruct (getMeetingLanguages_run W meetingId st) as (langs & st' & Hrun & _ & Hnone).
    exists [], st'. rewrite Hrun, Hnone by (right; by right).
    split; [done|]. split; [constructor|]. split; [by intros p ?%elem_of_nil|done].
  - destruct (getMeetingLanguages_listeners W meetingId st H1 H2) as (st' & Hrun & _).
    exists (listeners st meetingId), st'. split; [done|].
    destruct (listeners_spec st meetingId) as (Hnd & Hlang & Hids).
    split; [done|]. split.
    + intros p Hp. split.
      * rewrite (Hlang p Hp). by apply or_else_truthy.
      * apply Hids. apply list_elem_of_fmap. by exists p.
    + intros _ _ row Hin Hm. apply Hids. by exists row.
Qed.

(** X9: A language written by updateUserLanguage is the one getMeetingLanguages
    gives that user in every meeting the user takes part in, as long as the
    settings table is as the update left it and the two queries succeed. *)
Theorem updated_language_is_used_for_the_meeting (user language meetingId : string)
    (st st1 later : State) :
  updateUserLanguage W user language st = (Return true, st1) →
  truthy language = true →
  user_settings later = user_settings st1 →
  (∃ row, row ∈ meeting_participants later
          ∧ mp_meeting_id row = meetingId ∧ mp_user_id row = user) →
  supabase_error W (requests later) = false →
  supabase_error W (S (requests later)) = false →
  ∃ langs later',
    getMeetingLanguages W meetingId later = (Return langs, later')
    ∧ {| userId := user; pref_language := language |} ∈ langs
    ∧ ∀ p, p ∈ langs → userId p = user → pref_language p = language.
Proof.
  intros Hupd Hlang Hsame Hpart H1 H2.
  rewrite updateUserLanguage_run in Hupd.
  destruct (supabase_error W (requests st)); [done|].
  injection Hupd as <-. simpl_state.
  destruct (getMeetingLanguages_listeners W meetingId later H1 H2) as (later' & Hrun & _).
  exists (listeners later meetingId), later'. split; [done|].
  destruct (listeners_spec later meetingId) as (Hnd & Hval & Hids).
  assert (language_of later meetingId user = language) as Hfound.
  { unfold language_of. rewrite Hsame.
    destruct (upsert_language_rows user language (user_settings st)) as [Hrow Honly].
    set (row := {| us_user_id := user; us_preferred_language := Some language |}) in *.
    set (settings := filter _ (upsert_language user language (user_settings st))).
    assert (row ∈ settings) as Hin.
    { apply list_elem_of_filter. split; [|done].
      apply existsb_exists. exists user. split; [|apply String.eqb_refl].
      destruct Hpart as (p & Hp & Hm & Hu).
      apply in_map_iff. exists p. split; [done|].
      apply list_elem_of_In, list_elem_of_filter. split; [|done].
      rewrite Hm. apply String.eqb_refl. }
    destruct (find _ settings) as [s|] eqn:Hfind.
    - apply find_some in Hfind as [Hs Hu]. apply list_elem_of_In in Hs.
      apply list_elem_of_filter in Hs as [_ Hs]. apply String.eqb_eq in Hu.
      rewrite (Honly s Hs Hu). simpl. by rewrite Hlang.
    - apply list_elem_of_In in Hin.
      apply (find_none _ _ Hfind) in Hin. simpl in Hin.
      by rewrite String.eqb_refl in Hin. }
  assert (∀ p, p ∈ listeners later meetingId → userId p = user → pref_language p = language)
    as Hall.
  { intros p Hp Hu. by rewrite (Hval p Hp), Hu. }
  split; [|done].
  assert (user ∈ userId <$> listeners later meetingId) as Hu by by apply Hids.
  apply list_elem_of_fmap in Hu as (p & Hu & Hp).
  destruct p as [u l]. simpl in Hu. subst u.
  by rewrite <- (Hall _ Hp eq_refl).
Qed.

(** *** More on translateText *)

Lemma translateText_total (text sourceLang targetLang : string)
    (transcriptId : option string) (st : State) :
  ∃ r st',
    translateText W cfg text sourceLang targetLang transcriptId st = (Return r, st')
    ∧ bystanders st st'.
Proof.
  destruct (decide (sourceLang = targetLang)) as [->|Hne].
  - exists text, st. split; [apply same_language_run|apply bystanders_refl].
  - destruct (translateText_run W cfg text sourceLang targetLang transcriptId st Hne)
      as (r & st' & Hrun & Hby & _).
    by exists r, st'.
Qed.

Lemma translationCache_get_miss (key : string) (st : State) :
  NodeCache.data (translationCache st) !! key = None →
  translationCache_get key st
  = (Return None, set_translationCache NodeCache.miss st).
Proof.
  intros Hnone. unfold translationCache_get, NodeCache.get. by rewrite Hnone.
Qed.

(** X10: A translation stored in the database for the transcript is served
    when the memory cache has none: the provider is not asked, no row is
    written, and the text is put into the memory cache for an hour. *)
Theorem stored_translation_is_served (text sourceLang targetLang id : string)
    (st : State) (row : TranslationRow) :
  sourceLang ≠ targetLang →
  features_cacheTranslations cfg = true →
  NodeCache.data (translationCache st) !! cacheKey text sourceLang targetLang = None →
  truthy id = true →
  supabase_error W (requests st) = false →
  filter (λ r, translation_row_matches id targetLang r = true) (meeting_translations st)
  = [row] →
  truthy (tl_translated_text row) = true →
  ∃ st',
    translateText W cfg text sourceLang targetLang (Some id) st
    = (Return (tl_translated_text row), st')
    ∧ provider_responses (trace st') = provider_responses (trace st)
    ∧ meeting_translations st' = meeting_translations st
    ∧ NodeCache.data (translationCache st') !! cacheKey text sourceLang targetLang
      = Some {| NodeCache.t := clock st' + 3600 * 1000;
                NodeCache.v := tl_translated_text row |}.
Proof.
  intros Hne Hcache Hmiss Hid Hok Hrow Htext.
  unfold translateText. apply String.eqb_neq in Hne. rewrite Hne. cbv zeta.
  unfold translateText_cached. rewrite Hcache.
  unfold bind at 1.
  rewrite (run_bind _ _ _ _ _ (translationCache_get_miss _ st Hmiss)).
  cbn [truthy_opt]. rewrite Hid.
  erewrite (run_bind (getTranslation W id targetLang)).
  2:{ apply getTranslation_single; [exact Hok|exact Hrow]. }
  cbv beta iota. rewrite Htext.
  unfold logger at 1, emit at 1, modify at 1. unfold bind at 1.
  rewrite (run_bind _ _ _ _ _ (translationCache_set_run _ _ _)).
  unfold ret. eexists. split; [reflexivity|]. simpl_state.
  split; [done|]. split; [done|].
  cbn [NodeCache.data NodeCache.with_data]. by rewrite lookup_insert_eq.
Qed.

(** X11: With the Google service selected and no API key configured, no request
    is ever made to a provider and nothing is stored; a text for which
    nothing is cached comes back unchanged. *)
Theorem google_without_key_is_never_asked (text sourceLang targetLang : string)
    (transcriptId : option string) (st : State) :
  translation_service cfg = "google" →
  truthy_opt (translation_googleApiKey cfg) = false →
  ∃ r st',
    translateText W cfg text sourceLang targetLang transcriptId st = (Return r, st')
    ∧ provider_responses (trace st') = provider_responses (trace st)
    ∧ meeting_translations st' = meeting_translations st
    ∧ (nothing_cached st text sourceLang targetLang transcriptId → r = text).
Proof.
  intros Hservice Hkey.
  destruct (decide (sourceLang = targetLang)) as [->|Hne].
  { exists text, st. by rewrite same_language_run. }
  unfold translateText. pose proof Hne as Hneb.
  apply String.eqb_neq in Hneb. rewrite Hneb. cbv zeta.
  destruct (translateText_cached_run W cfg text sourceLang targetLang transcriptId st)
    as (early & st1 & Hrun & Hby & Htl & Hresp & _ & Hearly).
  rewrite (run_bind _ _ _ _ _ Hrun).
  destruct early as [cached|].
  - exists cached, st1. split; [reflexivity|]. split; [done|]. split; [done|].
    intros [Hmem Hdb]. destruct Hearly as (_ & [(e & He & _)|(id & row & -> & Hin & Hm & _)]).
    + cbv zeta in Hmem. congruence.
    + by rewrite (Hdb id row eq_refl Hin) in Hm.
  - rewrite Hservice. cbn [String.eqb Ascii.eqb Bool.eqb].
    unfold translateWithGoogle. rewrite Hkey. cbn [negb].
    unfold try_catch, bind, throw, logger, emit, modify, ret.
    eexists _, _. split; [reflexivity|]. simpl_state. done.
Qed.

(** **** The cache statistics *)

Lemma translationCache_get_counts (key : string) (st : State) :
  ∃ r st1,
    translationCache_get key st = (Return r, st1)
    ∧ lookups st1 = S (lookups st).
Proof.
  unfold translationCache_get, NodeCache.get, NodeCache.check, lookups.
  destruct (NodeCache.data (translationCache st) !! key) as [e|].
  - destruct (NodeCache.expired (clock st) e); simpl;
      eexists _, _; (split; [reflexivity|]); simpl; lia.
  - eexists _, _. split; [reflexivity|]. simpl. lia.
Qed.

Lemma translateText_cached_lookups (key targetLang : string) (transcriptId : option string)
    (st : State) :
  ∃ early st1,
    translateText_cached W cfg key targetLang transcriptId st = (Return early, st1)
    ∧ lookups st1 = if features_cacheTranslations cfg then S (lookups st) else lookups st.
Proof.
  unfold translateText_cached.
  destruct (features_cacheTranslations cfg); [|by eexists _, _].
  destruct (translationCache_get_counts key st) as (cached & st1 & Hget & Hcount).
  rewrite (run_bind _ _ _ _ _ Hget).
  destruct (truthy_opt cached).
  { eexists _, _. split; [reflexivity|]. exact Hcount. }
  destruct transcriptId as [id|]; [|by eexists _, _].
  destruct (truthy id); [|by eexists _, _].
  destruct (getTranslation_run W id targetLang st1) as (dbCached & st2 & Hdb & Hq & _).
  rewrite (run_bind _ _ _ _ _ Hdb).
  destruct Hq as (_ & Hcache & _).
  destruct dbCached as [dbText|].
  2:{ eexists _, _. split; [reflexivity|]. unfold lookups in *. by rewrite Hcache. }
  destruct (truthy dbText).
  2:{ eexists _, _. split; [reflexivity|]. unfold lookups in *. by rewrite Hcache. }
  unfold logger at 1, emit at 1, modify at 1. unfold bind at 1.
  rewrite (run_bind _ _ _ _ _ (translationCache_set_run _ _ _)).
  eexists _, _. split; [reflexivity|].
  unfold lookups in *. simpl_state. simpl. by rewrite Hcache.
Qed.

Lemma translateText_store_lookups (key targetLang translated : string)
    (transcriptId : option string) (st : State) :
  ∃ st1,
    ((if features_cacheTranslations cfg then
        translationCache_set key translated ;;
        match transcriptId with
        | Some id =>
            if truthy id then
              saveTranslation W id targetLang translated (translation_service cfg) ;;
              ret tt
            else ret tt
        | None => ret tt
        end
      else ret tt) ;;
     logger LDebug "Translation successful" ;;
     ret translated) st = (Return translated, st1)
    ∧ lookups st1 = lookups st.
Proof.
  destruct (features_cacheTranslations cfg); [|by eexists].
  unfold bind at 1.
  rewrite (run_bind _ _ _ _ _ (translationCache_set_run _ _ _)).
  destruct transcriptId as [id|]; [|by eexists].
  destruct (truthy id); [|by eexists].
  match goal with |- context [bind (saveTranslation W ?i ?l ?t ?s) _ ?s0] =>
    destruct (saveTranslation_run W cfg i l t s0) as (r & st1 & Hsave & _ & Hcache & _)
  end.
  rewrite (run_bind _ _ _ _ _ Hsave).
  eexists. split; [reflexivity|].
  unfold lookups in *. simpl_state. by rewrite Hcache.
Qed.

(** X12: Every translation request that consults the cache is counted once:
    with caching on and a target language other than the source
    language, the sum of the hits and misses that getCacheStats reports
    grows by exactly one per call of translateText, however the call ends;
    a call for the source language, or with caching off, counts nothing. *)
Theorem every_cache_lookup_is_counted (text sourceLang targetLang : string)
    (transcriptId : option string) (st : State) :
  ∃ r st' keys hits misses keys' hits' misses',
    translateText W cfg text sourceLang targetLang transcriptId st = (Return r, st')
    ∧ getCacheStats st = (Return (keys, hits, misses), st)
    ∧ getCacheStats st' = (Return (keys', hits', misses'), st')
    ∧ (hits' + misses')%nat
      = if features_cacheTranslations cfg && negb (String.eqb sourceLang targetLang)
        then S (hits + misses) else (hits + misses)%nat.
Proof.
  assert (∃ r st',
            translateText W cfg text sourceLang targetLang transcriptId st = (Return r, st')
            ∧ lookups st'
              = if features_cacheTranslations cfg && negb (String.eqb sourceLang targetLang)
                then S (lookups st) else lookups st) as (r & st' & Hrun & Hcount).
  { unfold translateText.
    destruct (String.eqb sourceLang targetLang).
    { exists text, st. split; [reflexivity|]. by rewrite andb_false_r. }
    rewrite andb_true_r. cbv zeta.
    destruct (translateText_cached_lookups (cacheKey text sourceLang targetLang)
                targetLang transcriptId st) as (early & st1 & Hrun & Hcount).
    rewrite (run_bind _ _ _ _ _ Hrun).
    destruct early as [cached|]; [by exists cached, st1|].
    destruct (provider_run W cfg text sourceLang targetLang st1)
      as [(translated & st2 & Hcall & _ & Hcache & _)|(e & st2 & Hcall & _ & Hcache & _)].
    - destruct (translateText_store_lookups (cacheKey text sourceLang targetLang)
                  targetLang translated transcriptId st2) as (st3 & Hstore & Hcount3).
      exists translated, st3. split.
      + apply run_try_return. by rewrite (run_bind _ _ _ _ _ Hcall).
      + rewrite Hcount3, <- Hcount. unfold lookups. by rewrite Hcache.
    - eexists _, _. split.
      + erewrite run_try_throw; [reflexivity|]. by apply run_bind_throw.
      + simpl_state. rewrite <- Hcount. unfold lookups. simpl_state. by rewrite Hcache. }
  exists r, st'. do 6 eexists. split; [exact Hrun|].
  split; [reflexivity|]. split; [reflexivity|]. exact Hcount.
Qed.

(** X13: clearTranslationCache empties the memory cache and resets its
    counters: getCacheStats then reports no key, no hit and no miss.  The
    translations stored in the database stay, and the next request for a
    text in another language (without a transcript to look up) is not
    served from the cache: it goes to the provider, whose answer (or the
    text itself, when it fails) is returned.  With the Google service and
    no API key there is no provider to go to: no request is made and the
    text itself is returned. *)
Theorem cleared_cache_is_empty (st : State) :
  ∃ st1,
    clearTranslationCache st = (Return tt, st1)
    ∧ getCacheStats st1 = (Return (0, 0, 0)%nat, st1)
    ∧ meeting_translations st1 = meeting_translations st
    ∧ ∀ text sourceLang targetLang,
        sourceLang ≠ targetLang →
        ∃ r st2,
          translateText W cfg text sourceLang targetLang None st1 = (Return r, st2)
          ∧ if provider_unusable cfg
            then r = text
                 ∧ provider_responses (trace st2) = provider_responses (trace st1)
            else ∃ response,
                   provider_responses (trace st2)
                   = response :: provider_responses (trace st1)
                   ∧ r = default text response.
Proof.
  eexists. split; [reflexivity|]. split; [reflexivity|]. split; [reflexivity|].
  intros text sourceLang targetLang Hne.
  match goal with |- context [translateText _ _ _ _ _ _ ?s] => set (st1 := s) end.
  assert (∃ st1',
            translateText_cached W cfg (cacheKey text sourceLang targetLang) targetLang None st1
            = (Return None, st1')
            ∧ trace st1' = trace st1 ∧ requests st1' = requests st1)
    as (st1' & Hearly & Htrace & Hreq).
  { unfold translateText_cached. destruct (features_cacheTranslations cfg).
    - rewrite (run_bind _ _ _ _ _ (translationCache_get_miss _ st1 eq_refl)).
      cbn [truthy_opt]. by eexists.
    - by eexists. }
  unfold translateText. apply String.eqb_neq in Hne. rewrite Hne. cbv zeta.
  rewrite (run_bind _ _ _ _ _ Hearly). rewrite <- Htrace. clearbody st1. clear Hearly.
  unfold provider_unusable, translateWithGoogle, translateWithLibreTranslate.
  destruct (String.eqb (translation_service cfg) "google");
    [destruct (truthy_opt (translation_googleApiKey cfg))|]; cbn [andb negb]; cbv zeta.
  - unfold try_catch. unfold bind at 1.
    rewrite (run_bind _ _ _ _ _ (request_run W st1')).
    destruct (axios_post W (requests st1') _ text _ targetLang) as [translated|];
      destruct (features_cacheTranslations cfg);
      unfold translationCache_set, logger, emit, modify, get_state, bind, throw, ret;
      eexists _, _; (split; [reflexivity|]); eexists; simpl_state; by split.
  - unfold try_catch, logger, emit, modify, bind, throw, ret.
    eexists _, _. split; [reflexivity|]. simpl_state. by split.
  - unfold try_catch. unfold bind at 1.
    rewrite (run_bind _ _ _ _ _ (request_run W st1')).
    destruct (axios_post W (requests st1') _ text _ targetLang) as [translated|];
      destruct (features_cacheTranslations cfg);
      unfold translationCache_set, logger, emit, modify, get_state, bind, throw, ret;
      eexists _, _; (split; [reflexivity|]); eexists; simpl_state; by split.
Qed.

(** X14: With CACHE_TRANSLATIONS=false translateText neither reads nor writes
    the memory cache or the translations table and makes no database
    request: a call for another language is exactly one request to the
    provider, whose answer (or the original text, when it fails) is
    returned.  With the Google service and no API key the call makes no
    request at all and returns the original text. *)
Theorem uncached_translation_skips_the_cache (text sourceLang targetLang : string)
    (transcriptId : option string) (st : State) :
  features_cacheTranslations cfg = false →
  sourceLang ≠ targetLang →
  ∃ r st',
    translateText W cfg text sourceLang targetLang transcriptId st = (Return r, st')
    ∧ translationCache st' = translationCache st
    ∧ meeting_translations st' = meeting_translations st
    ∧ if provider_unusable cfg
      then r = text
           ∧ provider_responses (trace st') = provider_responses (trace st)
           ∧ requests st' = requests st
      else ∃ response,
             provider_responses (trace st') = response :: provider_responses (trace st)
             ∧ r = default text response
             ∧ requests st' = S (requests st).
Proof.
  intros Hoff Hne.
  unfold translateText. apply String.eqb_neq in Hne. rewrite Hne. cbv zeta.
  unfold translateText_cached. rewrite Hoff. unfold ret at 1. unfold bind at 1.
  unfold provider_unusable, translateWithGoogle, translateWithLibreTranslate.
  destruct (String.eqb (translation_service cfg) "google");
    [destruct (truthy_opt (translation_googleApiKey cfg))|]; cbn [andb negb]; cbv zeta.
  - unfold try_catch. unfold bind at 1.
    rewrite (run_bind _ _ _ _ _ (request_run W st)).
    destruct (axios_post W (requests st) _ text _ targetLang) as [translated|];
      unfold logger, emit, modify, bind, throw, ret;
      eexists _, _; (split; [reflexivity|]); simpl_state;
      (split; [done|]); (split; [done|]); eexists; by repeat split.
  - unfold try_catch, logger, emit, modify, bind, throw, ret.
    eexists _, _. split; [reflexivity|]. simpl_state. by repeat split.
  - unfold try_catch. unfold bind at 1.
    rewrite (run_bind _ _ _ _ _ (request_run W st)).
    destruct (axios_post W (requests st) _ text _ targetLang) as [translated|];
      unfold logger, emit, modify, bind, throw, ret;
      eexists _, _; (split; [reflexivity|]); simpl_state;
      (split; [done|]); (split; [done|]); eexists; by repeat split.
Qed.

(** *** More on caption delivery *)

Lemma sendCaptionToParticipant_eq (room : nat) (participantIdentity : string)
    (caption : Caption) (st : State) :
  ∃ msg st',
    sendCaptionToParticipant W room participantIdentity caption st
    = (Return (negb (publishData_throws W (requests st))), st')
    ∧ delivered st st' [(CaptionPayload msg, Some [participantIdentity])]
    ∧ requests st' = S (requests st)
    ∧ originalText msg = cap_originalText caption
    ∧ translatedText msg = cap_translatedText caption
    ∧ targetLanguage msg = cap_targetLanguage caption
    ∧ msg_isFinal msg = cap_isFinal caption
    ∧ speakerId msg = cap_speakerId caption.
Proof.
  unfold sendCaptionToParticipant, Date_now. unfold bind at 1.
  rewrite (run_bind _ _ _ _ _ (request_run W st)). cbv zeta.
  unfold logger, emit, modify, bind, ret.
  destruct (publishData_throws W (requests st));
    (eexists _, _; split; [reflexivity|]; split; [solve_delivered|]; done).
Qed.

Lemma send_each_run (room : nat) (caption : Caption) (targets : list CaptionTarget)
    (st : State) :
  ∃ oks st' new,
    map_all targets
      (λ p,
         sendCaptionToParticipant W room (participantIdentity p)
           {| cap_meetingId := cap_meetingId caption;
              cap_speakerId := cap_speakerId caption;
              cap_speakerName := cap_speakerName caption;
              cap_originalText := cap_originalText caption;
              cap_originalLanguage := cap_originalLanguage caption;
              cap_translatedText :=
                Some (or_else (Some (ct_translatedText p)) (cap_originalText caption));
              cap_targetLanguage := Some (ct_language p);
              cap_isFinal := cap_isFinal caption;
              cap_confidence := cap_confidence caption |}) st
    = (Return oks, st')
    ∧ delivered st st' new
    ∧ requests st' = (requests st + length targets)%nat
    ∧ Forall2 (caption_for caption) targets (rev new).
Proof.
  revert st. induction targets as [|target targets IH]; intros st.
  - exists [], st, []. split; [reflexivity|]. split; [apply delivered_refl|].
    split; [simpl; lia|constructor].
  - cbn [map_all].
    match goal with |- context [sendCaptionToParticipant W ?r ?i ?c] =>
      destruct (sendCaptionToParticipant_eq r i c st)
        as (msg & st1 & Hrun & Hd & Hreq & Ho & Ht & Hl & Hf & _)
    end.
    rewrite (run_bind _ _ _ _ _ Hrun).
    destruct (IH st1) as (oks & st2 & new & Hrun2 & Hd2 & Hreq2 & Hall).
    rewrite (run_bind _ _ _ _ _ Hrun2).
    eexists _, st2, (new ++ [_])%list. split; [reflexivity|].
    split; [by eapply delivered_trans|]. split; [simpl; lia|].
    rewrite rev_app_distr. cbn [rev app]. constructor; [|done].
    exists msg. by repeat split.
Qed.

(** X16: sendTranslatedCaptions never throws and always returns true.  It makes
    exactly one delivery attempt per listener, in the order of the list,
    each addressed to that listener alone and carrying that listener's
    translation: a failed delivery to one listener neither stops the
    deliveries to the others nor is it tried again. *)
Theorem every_listener_gets_one_attempt (room : nat) (caption : Caption)
    (targets : list CaptionTarget) (st : State) :
  ∃ st' new,
    sendTranslatedCaptions W room caption targets st = (Return true, st')
    ∧ published (trace st') = (new ++ published (trace st))%list
    ∧ requests st' = (requests st + length targets)%nat
    ∧ length new = length targets
    ∧ Forall2 (caption_for caption) targets (rev new).
Proof.
  destruct (send_each_run room caption targets st)
    as (oks & st1 & new & Hrun & Hd & Hreq & Hall).
  exists (set_trace (cons (EvLog LInfo "Translated captions sent")) st1), new.
  split.
  { unfold sendTranslatedCaptions. apply run_try_return.
    by rewrite (run_bind _ _ _ _ _ Hrun). }
  destruct Hd as (_ & _ & _ & _ & _ & Hpub). simpl_state.
  split; [done|]. split; [done|]. split; [|done].
  apply Forall2_length in Hall. by rewrite length_rev in Hall.
Qed.

(** X17: sendSystemMessage never throws and hands one 'system' message with the
    given text to the transport; it returns false exactly when the
    transport threw.  Without a recipient list, and with an empty one, the
    message goes to everybody in the room; otherwise to the listed
    participants only. *)
Theorem system_message_recipients (room : nat) (message : string)
    (participantIdentities : option (list string)) (st : State) :
  ∃ ok st' id time destination,
    sendSystemMessage W room message participantIdentities st = (Return ok, st')
    ∧ ok = negb (publishData_throws W (requests st))
    ∧ published (trace st') = (SystemPayload id message time, destination) :: published (trace st)
    ∧ system_notices (trace st') = message :: system_notices (trace st)
    ∧ (participantIdentities = None ∨ participantIdentities = Some [] → destination = None)
    ∧ (∀ ids, participantIdentities = Some ids → ids ≠ [] → destination = Some ids).
Proof.
  unfold sendSystemMessage, Date_now. unfold bind at 1.
  rewrite (run_bind _ _ _ _ _ (request_run W st)). cbv zeta.
  unfold logger, emit, modify, bind, ret.
  destruct (publishData_throws W (requests st));
    (eexists _, _, _, _, _; split; [reflexivity|]; simpl_state;
     split; [done|]; split; [done|]; split; [done|]; split;
     [ by intros [->| ->]
     | intros ids -> Hids; by destruct ids ]).
Qed.

(** *** More on recognizer sessions and the registry *)

Lemma deepgramSession_close_eq (connection : nat) (st : State) :
  deepgramSession_close W connection st
  = (Return tt,
     set_trace (cons (if connection_throws W (requests st)
                      then EvLog LError "Error closing Deepgram connection"
                      else EvConnectionFinish connection))
       (set_requests S st)).
Proof.
  unfold deepgramSession_close, ask. unfold bind at 1.
  by destruct (connection_throws W (requests st)).
Qed.

(** The loop of cleanupSession over the session's recognizer connections. *)
Lemma close_all_run (current : list (string * nat)) (st : State) :
  ∃ st',
    for_of current (λ entry, deepgramSession_close W entry.2) st = (Return tt, st')
    ∧ requests st' = (requests st + length current)%nat
    ∧ clock st' = clock st
    ∧ stores_untouched st st'
    ∧ same_sessions st st'
    ∧ published (trace st') = published (trace st)
    ∧ system_notices (trace st') = system_notices (trace st)
    ∧ connections_opened (trace st') = connections_opened (trace st)
    ∧ ((∀ n, (requests st ≤ n < requests st + length current)%nat →
             connection_throws W n = false) →
       connections_finished (trace st')
       = (rev current.*2 ++ connections_finished (trace st))%list).
Proof.
  revert st. induction current as [|[participantId connection] current IH]; intros st.
  { exists st. split; [reflexivity|]. simpl. split; [lia|].
    unfold stores_untouched, same_settings, same_sessions. by repeat split. }
  destruct (IH (set_trace (cons (if connection_throws W (requests st)
                                 then EvLog LError "Error closing Deepgram connection"
                                 else EvConnectionFinish connection))
                  (set_requests S st)))
    as (st' & Hloop & Hreq & Hclock & Hstores & Hsess & Hpub & Hsys & Hopen & Hfin).
  exists st'. split.
  { cbn [for_of]. by rewrite (run_bind _ _ _ _ _ (deepgramSession_close_eq _ _)). }
  revert Hreq Hclock Hstores Hsess Hpub Hsys Hopen Hfin.
  unfold stores_untouched, same_settings, same_sessions. simpl_state.
  intros Hreq Hclock Hstores Hsess Hpub Hsys Hopen Hfin.
  split; [simpl; lia|]. split; [done|]. split; [done|]. split; [done|].
  destruct (connection_throws W (requests st)) eqn:Hthrow; simpl_state.
  - split; [done|]. split; [done|]. split; [done|].
    intros Hok. rewrite Hok in Hthrow; [done|]. simpl. lia.
  - split; [done|]. split; [done|]. split; [done|].
    intros Hok. rewrite Hfin.
    + rewrite fmap_cons. cbn [rev snd]. by rewrite <- app_assoc.
    + intros n Hn. apply Hok. simpl. lia.
Qed.

Lemma sendSystemMessage_facts (room : nat) (message : string)
    (participantIdentities : option (list string)) (st : State) :
  ∃ ok st',
    sendSystemMessage W room message participantIdentities st = (Return ok, st')
    ∧ requests st' = S (requests st)
    ∧ stores_untouched st st'
    ∧ same_sessions st st'
    ∧ system_notices (trace st') = message :: system_notices (trace st)
    ∧ connections_opened (trace st') = connections_opened (trace st)
    ∧ connections_finished (trace st') = connections_finished (trace st).
Proof.
  unfold sendSystemMessage, Date_now. unfold bind at 1.
  rewrite (run_bind _ _ _ _ _ (request_run W st)). cbv zeta.
  unfold logger, emit, modify, bind, ret.
  destruct (publishData_throws W (requests st));
    (eexists _, _; split; [reflexivity|];
     unfold stores_untouched, same_settings, same_sessions; simpl_state;
     by repeat split).
Qed.

(** cleanupSession for a registered meeting: the recognizer connections
    are closed, then the room is left; only when that worked is the meeting
    taken out of the registry. *)
Lemma cleanupSession_cases (meetingId : string) (session : Session) (st : State) :
  activeSessions st !! meetingId = Some session →
  let current := default [] (transcriptionSessions st !! room session) in
  ∃ r st',
    cleanupSession W meetingId st = (r, st')
    ∧ stores_untouched st st'
    ∧ system_notices (trace st') = system_notices (trace st)
    ∧ connections_opened (trace st') = connections_opened (trace st)
    ∧ ((∀ n, (requests st ≤ n < requests st + length current)%nat →
             connection_throws W n = false) →
       connections_finished (trace st')
       = (rev current.*2 ++ connections_finished (trace st))%list)
    ∧ match room_disconnect_throws W (requests st + length current) with
      | Some error_message =>
          r = Throw error_message ∧ activeSessions st' = activeSessions st
      | None =>
          r = Return tt ∧ activeSessions st' = delete meetingId (activeSessions st)
      end.
Proof.
  intros Hactive current. unfold cleanupSession.
  unfold get_state at 1. unfold bind at 1. rewrite Hactive.
  unfold session_transcriptionSessions, get_state. unfold bind at 1. unfold bind at 1.
  unfold ret at 1. fold current.
  destruct (close_all_run current st)
    as (st1 & Hloop & Hreq & Hclock & Hstores & Hsess & Hpub & Hsys & Hopen & Hfin).
  rewrite (run_bind _ _ _ _ _ Hloop).
  rewrite (run_bind _ _ _ _ _ (request_run W st1)).
  rewrite Hreq.
  destruct Hsess as (_ & _ & _ & _ & Hact).
  revert Hstores. unfold stores_untouched, same_settings. intros Hstores.
  destruct (room_disconnect_throws W (requests st + length current)) as [error_message|].
  - eexists _, _. split; [reflexivity|]. simpl_state.
    split; [exact Hstores|]. by repeat split.
  - eexists _, _. split; [reflexivity|]. simpl_state.
    split; [exact Hstores|]. repeat split; try done. by rewrite Hact.
Qed.

(** X18: Stopping an active meeting whose room can be left: the stop notice is
    sent, every recognizer connection of the session is closed, the meeting
    leaves the registry (isTranscribing is false, the other meetings stay),
    and a second stop finds no active session and changes nothing. *)
Theorem stop_ends_the_session (meetingId : string) (session : Session) (st : State) :
  activeSessions st !! meetingId = Some session →
  room_disconnect_throws W
    (S (requests st) + length (default [] (transcriptionSessions st !! room session))) = None →
  ∃ st',
    stopTranscription W meetingId st
    = (Return {| success := true; message := "Transcription stopped" |}, st')
    ∧ activeSessions st' = delete meetingId (activeSessions st)
    ∧ isTranscribing meetingId st' = (Return false, st')
    ∧ system_notices (trace st') = "Live transcription stopped" :: system_notices (trace st)
    ∧ ((∀ n, connection_throws W n = false) →
       ∀ participantId connection,
         JsMap.get participantId (default [] (transcriptionSessions st !! room session))
         = Some connection →
         connection ∈ connections_finished (trace st'))
    ∧ stopTranscription W meetingId st'
      = (Return {| success := false; message := "No active session" |}, st').
Proof.
  intros Hactive Hleave. unfold stopTranscription at 1.
  unfold get_state at 1. unfold bind at 1. rewrite Hactive.
  destruct (sendSystemMessage_facts (room session) "Live transcription stopped" None st)
    as (ok & st0 & Hsend & Hreq0 & _ & Hsess0 & Hsys0 & _ & Hfin0).
  destruct Hsess0 as (_ & _ & _ & Hts0 & Hact0).
  destruct (cleanupSession_cases meetingId session st0) as (r & st1 & Hclean & _ & Hsys1 & _ & Hfin1 & Hend).
  { by rewrite Hact0. }
  rewrite Hts0, Hreq0, Hleave in Hend. destruct Hend as [-> Hact1].
  exists st1.
  assert (activeSessions st1 !! meetingId = None) as Hgone.
  { rewrite Hact1. apply lookup_delete_eq. }
  split.
  { apply run_try_return. rewrite (run_bind _ _ _ _ _ Hsend).
    by rewrite (run_bind _ _ _ _ _ Hclean). }
  split; [by rewrite Hact1, Hact0|].
  split.
  { unfold isTranscribing, get_state, bind, ret. rewrite Hgone.
    rewrite bool_decide_eq_false_2; [done|]. by intros [? ?]. }
  split; [by rewrite Hsys1, Hsys0|].
  split.
  { intros Hquiet participantId connection Hget.
    rewrite Hfin1, Hts0; [|intros n _; apply Hquiet].
    apply elem_of_app. left.
    apply list_elem_of_In, in_rev. rewrite rev_involutive. apply list_elem_of_In.
    apply list_elem_of_fmap. exists (participantId, connection).
    split; [done|]. by apply JsMap_get_Some. }
  unfold stopTranscription, get_state. unfold bind at 1. by rewrite Hgone.
Qed.

(** X19: Stopping an active meeting whose room cannot be left: the error of
    room.disconnect is caught and reported as the result.  The stop notice
    has been sent, but the meeting stays in the registry, so it still counts
    as transcribing and a later start for it is rejected. *)
Theorem failed_disconnect_leaves_the_session (meetingId : string) (session : Session)
    (st : State) (error_message : string) :
  activeSessions st !! meetingId = Some session →
  room_disconnect_throws W
    (S (requests st) + length (default [] (transcriptionSessions st !! room session)))
  = Some error_message →
  ∃ st',
    stopTranscription W meetingId st
    = (Return {| success := false; message := error_message |}, st')
    ∧ activeSessions st' = activeSessions st
    ∧ isTranscribing meetingId st' = (Return true, st')
    ∧ system_notices (trace st') = "Live transcription stopped" :: system_notices (trace st)
    ∧ (features_transcription cfg = true →
       ∀ livekitRoomName token, ∃ st2,
         startTranscription W cfg meetingId livekitRoomName token st'
         = (Return {| success := false; message := "Already transcribing" |}, st2)).
Proof.
  intros Hactive Hleave. unfold stopTranscription at 1.
  unfold get_state at 1. unfold bind at 1. rewrite Hactive.
  destruct (sendSystemMessage_facts (room session) "Live transcription stopped" None st)
    as (ok & st0 & Hsend & Hreq0 & _ & Hsess0 & Hsys0 & _ & Hfin0).
  destruct Hsess0 as (_ & _ & _ & Hts0 & Hact0).
  destruct (cleanupSession_cases meetingId session st0) as (r & st1 & Hclean & _ & Hsys1 & _ & Hfin1 & Hend).
  { by rewrite Hact0. }
  rewrite Hts0, Hreq0, Hleave in Hend. destruct Hend as [-> Hact1].
  eexists. split.
  { erewrite run_try_throw; [reflexivity|].
    rewrite (run_bind _ _ _ _ _ Hsend). by apply run_bind_throw. }
  unfold logger, emit, modify, bind, ret. simpl_state.
  assert (activeSessions st1 !! meetingId = Some session) as Hstill
    by by rewrite Hact1, Hact0.
  split; [by rewrite Hact1, Hact0|].
  split.
  { unfold isTranscribing, get_state, bind, ret. simpl_state. rewrite Hstill.
    by rewrite bool_decide_eq_true_2. }
  split; [by rewrite Hsys1, Hsys0|].
  intros Hfeature livekitRoomName token.
  unfold startTranscription. rewrite Hfeature. cbn [negb].
  unfold get_state. unfold bind at 1. simpl_state. rewrite Hstill.
  by eexists.
Qed.

(** X20: The listener of the room's Disconnected event runs cleanupSession
    and handles no failure of it: when the room can be left the meeting
    leaves the registry; when room.disconnect throws, the error is caught by
    nobody and the meeting stays registered. *)
Theorem disconnected_room_is_cleaned_up (session : Session) (st : State) :
  activeSessions st !! s_meetingId session = Some session →
  ∃ r st',
    room_on_Disconnected W session st = (r, st')
    ∧ match room_disconnect_throws W
              (requests st + length (default [] (transcriptionSessions st !! room session)))
      with
      | Some error_message =>
          r = Throw error_message ∧ activeSessions st' = activeSessions st
      | None =>
          r = Return tt
          ∧ activeSessions st' = delete (s_meetingId session) (activeSessions st)
      end.
Proof.
  intros Hactive. unfold room_on_Disconnected.
  unfold logger at 1, emit at 1, modify at 1. unfold bind at 1.
  match goal with |- context [cleanupSession W _ ?s] => set (st0 := s) end.
  destruct (cleanupSession_cases (s_meetingId session) session st0 Hactive)
    as (r & st1 & Hclean & _ & _ & _ & _ & Hend).
  exists r, st1. split; [done|]. exact Hend.
Qed.

(** **** Audio tracks and their recognizer connections *)

(** The callbacks handleAudioTrack registers for a participant. *)
Lemma handleAudioTrack_opens (session : Session) (audioTrack : nat)
    (participant : Participant) (st : State) :
  deepgramClient st = true ∨ truthy_opt (deepgram_apiKey cfg) = true →
  listen_live_throws W (requests st) = None →
  ∃ st',
    handleAudioTrack W cfg session audioTrack participant st = (Return tt, st')
    ∧ requests st' = S (requests st)
    ∧ deepgramClient st' = true
    ∧ activeSessions st' = activeSessions st
    ∧ connections_opened (trace st') = requests st :: connections_opened (trace st)
    ∧ connections_finished (trace st') = connections_finished (trace st)
    ∧ connections st'
      = <[requests st :=
            {| conn_meetingId := s_meetingId session;
               conn_language := Some "en";
               conn_onTranscript :=
                 Some {| cb_session := session;
                         cb_participantId := identity participant;
                         cb_participantName := name participant |};
               conn_onFinalTranscript :=
                 Some {| cb_session := session;
                         cb_participantId := identity participant;
                         cb_participantName := name participant |} |}]> (connections st)
    ∧ transcriptionSessions st'
      = <[room session :=
            JsMap.set (identity participant) (requests st)
              (default [] (transcriptionSessions st !! room session))]>
          (transcriptionSessions st).
Proof.
  intros Hready Hlisten.
  unfold handleAudioTrack, createTranscriptionSession, initializeDeepgram,
    session_transcriptionSessions, ask, get_state, logger, emit, modify,
    try_catch, bind, ret, throw.
  cbv zeta.
  destruct (deepgramClient st) eqn:Hclient.
  - simpl_state. rewrite Hlisten. eexists. split; [reflexivity|]. simpl_state.
    by repeat split.
  - destruct Hready as [?|Hkey]; [done|]. rewrite Hkey. cbn [negb]. simpl_state.
    rewrite Hlisten. eexists. split; [reflexivity|]. simpl_state.
    by repeat split.
Qed.

(** X21: An audio track of a participant gets a recognizer connection of its
    own, opened for English and registered under the participant in the
    session's map; the callbacks of the connection carry the session and the
    participant.  The entries of the other participants stay; a connection
    the participant already had is replaced in the map but not closed. *)
Theorem audio_track_gets_a_recognizer (session : Session) (audioTrack : nat)
    (participant : Participant) (st : State) :
  deepgramClient st = true ∨ truthy_opt (deepgram_apiKey cfg) = true →
  listen_live_throws W (requests st) = None →
  ∃ st' connection c cb,
    handleAudioTrack W cfg session audioTrack participant st = (Return tt, st')
    ∧ connections_opened (trace st') = connection :: connections_opened (trace st)
    ∧ connections st' !! connection = Some c
    ∧ conn_language c = Some "en"
    ∧ conn_onTranscript c = Some cb ∧ conn_onFinalTranscript c = Some cb
    ∧ cb_session cb = session ∧ cb_participantId cb = identity participant
    ∧ JsMap.get (identity participant)
        (default [] (transcriptionSessions st' !! room session)) = Some connection
    ∧ (∀ other, other ≠ identity participant →
         JsMap.get other (default [] (transcriptionSessions st' !! room session))
         = JsMap.get other (default [] (transcriptionSessions st !! room session)))
    ∧ connections_finished (trace st') = connections_finished (trace st).
Proof.
  intros Hready Hlisten.
  destruct (handleAudioTrack_opens session audioTrack participant st Hready Hlisten)
    as (st' & Hrun & _ & _ & _ & Hopen & Hfin & Hconn & Hts).
  exists st', (requests st). eexists _, _. split; [exact Hrun|].
  split; [exact Hopen|]. split; [rewrite Hconn; apply lookup_insert_eq|].
  cbn [conn_language conn_onTranscript conn_onFinalTranscript cb_session cb_participantId].
  rewrite Hts, lookup_insert_eq. simpl.
  repeat split; try done.
  - apply JsMap_get_set_eq.
  - intros other Hother. by apply JsMap_get_set_ne.
Qed.

(** X22: stopTranscriptionForParticipant never throws.  For a participant
    without a recognizer connection it does nothing at all.  Otherwise it
    calls close on the participant's connection and takes the participant
    out of the session's map; the entries of the other participants and the
    registry of meetings stay as they are. *)
Theorem participant_recognizer_is_closed (session : Session) (participantId : string)
    (st : State) :
  NoDup (default [] (transcriptionSessions st !! room session)).*1 →
  ∃ st',
    stopTranscriptionForParticipant W session participantId st = (Return tt, st')
    ∧ JsMap.get participantId (default [] (transcriptionSessions st' !! room session)) = None
    ∧ (∀ other, other ≠ participantId →
         JsMap.get other (default [] (transcriptionSessions st' !! room session))
         = JsMap.get other (default [] (transcriptionSessions st !! room session)))
    ∧ activeSessions st' = activeSessions st
    ∧ match JsMap.get participantId (default [] (transcriptionSessions st !! room session)) with
      | None => st' = st
      | Some connection =>
          requests st' = S (requests st)
          ∧ connections_finished (trace st')
            = if connection_throws W (requests st)
              then connections_finished (trace st)
              else connection :: connections_finished (trace st)
      end.
Proof.
  intros Hkeys. unfold stopTranscriptionForParticipant.
  unfold session_transcriptionSessions, get_state. unfold bind at 1. unfold bind at 1.
  unfold ret at 1.
  set (current := default [] (transcriptionSessions st !! room session)) in *.
  destruct (JsMap.get participantId current) as [connection|] eqn:Hget.
  - rewrite (run_bind _ _ _ _ _ (deepgramSession_close_eq _ _)).
    unfold logger, emit, modify, bind, ret.
    eexists. split; [reflexivity|]. simpl_state. rewrite lookup_insert_eq. simpl.
    split; [by apply JsMap_get_delete_eq|].
    split; [intros other Hother; by apply JsMap_get_delete_ne|].
    split; [done|]. split; [done|].
    by destruct (connection_throws W (requests st)).
  - exists st. split; [reflexivity|]. fold current. by repeat split.
Qed.

(** The audio publications of a participant that carry a track. *)
Lemma subscribeToParticipant_opens (session : Session) (participant : Participant)
    (st : State) :
  deepgramClient st = true ∨ truthy_opt (deepgram_apiKey cfg) = true →
  (∀ n, listen_live_throws W n = None) →
  ∃ st' opened,
    subscribeToParticipant W cfg session participant st = (Return tt, st')
    ∧ connections_opened (trace st') = (opened ++ connections_opened (trace st))%list
    ∧ length opened = length (audio_tracks participant)
    ∧ connections_finished (trace st') = connections_finished (trace st)
    ∧ (audio_tracks participant ≠ [] →
       ∃ connection,
         head opened = Some connection
         ∧ JsMap.get (identity participant)
             (default [] (transcriptionSessions st' !! room session)) = Some connection).
Proof.
  intros Hready Hlisten. unfold subscribeToParticipant, audio_tracks.
  revert st Hready.
  induction (tracks participant) as [|publication publications IH]; intros st Hready.
  { exists st, []. by repeat split. }
  cbn [for_of].
  destruct (pub_kind publication) eqn:Hkind, (pub_track publication) as [track|] eqn:Htrack;
    cbn [omap list_omap];
    rewrite ?Hkind, ?Htrack.
  2,3,4: (destruct (IH st Hready) as (st' & opened & Hrun & Hopen & Hlen & Hfin & Hlast);
          exists st', opened; unfold ret at 1; unfold bind at 1;
          by repeat split).
  destruct (handleAudioTrack_opens session track participant st Hready (Hlisten _))
    as (st1 & Hrun1 & _ & Hclient1 & _ & Hopen1 & Hfin1 & _ & Hts1).
  rewrite (run_bind _ _ _ _ _ Hrun1).
  destruct (IH st1 (or_introl Hclient1)) as (st' & opened & Hrun & Hopen & Hlen & Hfin & Hlast).
  exists st', (opened ++ [requests st])%list. split; [exact Hrun|].
  split; [by rewrite Hopen, Hopen1, <- app_assoc|].
  split; [rewrite length_app; simpl; lia|].
  split; [congruence|]. intros _.
  destruct (omap _ publications) as [|t ts] eqn:Hrest.
  - destruct opened; [|done]. exists (requests st). split; [done|].
    assert (st' = st1) as ->.
    { clear -Hrun Hrest. revert st1 Hrun.
      induction publications as [|p ps IHp]; intros st1 Hrun.
      - by injection Hrun.
      - cbn [omap list_omap] in Hrest. cbn [for_of] in Hrun.
        destruct (pub_kind p), (pub_track p); simpl in Hrest; try done;
          unfold ret at 1 in Hrun; unfold bind at 1 in Hrun; by apply IHp. }
    rewrite Hts1, lookup_insert_eq. simpl. apply JsMap_get_set_eq.
  - destruct Hlast as (connection & Hhead & Hget); [done|].
    exists connection. split; [|done].
    destruct opened; [done|]. done.
Qed.

(** X23: When a participant joins, one recognizer connection is opened for each
    of the participant's audio publications that carries a track, and none
    for anything else; no connection is closed, and the participant's entry
    in the session's map is the connection opened last (a participant with
    two audio tracks keeps an open connection that the map no longer
    knows).  This needs a usable recognizer client and a provider that
    accepts new connections. *)
Theorem joining_participant_gets_recognizers (session : Session) (participant : Participant)
    (st : State) :
  deepgramClient st = true ∨ truthy_opt (deepgram_apiKey cfg) = true →
  (∀ n, listen_live_throws W n = None) →
  ∃ st' opened,
    room_on_ParticipantConnected W cfg session participant st = (Return tt, st')
    ∧ connections_opened (trace st') = (opened ++ connections_opened (trace st))%list
    ∧ length opened = length (audio_tracks participant)
    ∧ connections_finished (trace st') = connections_finished (trace st)
    ∧ (audio_tracks participant ≠ [] →
       ∃ connection,
         head opened = Some connection
         ∧ JsMap.get (identity participant)
             (default [] (transcriptionSessions st' !! room session)) = Some connection).
Proof.
  intros Hready Hlisten. unfold room_on_ParticipantConnected.
  unfold logger at 1, emit at 1, modify at 1. unfold bind at 1.
  match goal with |- context [subscribeToParticipant W cfg _ _ ?s] =>
    destruct (subscribeToParticipant_opens session participant s Hready Hlisten)
      as (st' & opened & Hrun & Hopen & Hlen & Hfin & Hlast)
  end.
  exists st', opened. by repeat split.
Qed.

(** **** Starting *)

Lemma subscribing_refl (st : State) : subscribing cfg st st.
Proof.
  unfold subscribing, registry_kept, stores_untouched, same_settings. by repeat split.
Qed.

Lemma subscribing_trans (st1 st2 st3 : State) :
  subscribing cfg st1 st2 → subscribing cfg st2 st3 → subscribing cfg st1 st3.
Proof.
  unfold subscribing, registry_kept, stores_untouched, same_settings.
  intros ((?&?)&(?&?&?&?&?)&?&?&H12) ((?&?)&(?&?&?&?&?)&?&?&H23).
  split; [split; congruence|]. split; [repeat split; congruence|].
  split; [congruence|]. split; [congruence|].
  intros Hkey Hclient. destruct (H12 Hkey Hclient) as (Hc2 & ? & ? & ?).
  destruct (H23 Hkey Hc2) as (? & ? & ? & ?). repeat split; congruence.
Qed.

Lemma handleAudioTrack_subscribing (session : Session) (audioTrack : nat)
    (participant : Participant) (st : State) :
  ∃ st', handleAudioTrack W cfg session audioTrack participant st = (Return tt, st')
         ∧ subscribing cfg st st'.
Proof.
  unfold handleAudioTrack, createTranscriptionSession, initializeDeepgram,
    session_transcriptionSessions, ask, get_state, logger, emit, modify,
    try_catch, bind, ret, throw.
  cbv zeta.
  unfold subscribing, registry_kept, stores_untouched, same_settings.
  destruct (deepgramClient st) eqn:Hclient;
    [|destruct (truthy_opt (deepgram_apiKey cfg)) eqn:Hkey; cbn [negb]];
    simpl_state;
    try destruct (listen_live_throws W (requests st));
    eexists; (split; [reflexivity|]); simpl_state; by repeat split.
Qed.

Lemma subscribeToParticipant_subscribing (session : Session) (participant : Participant)
    (st : State) :
  ∃ st', subscribeToParticipant W cfg session participant st = (Return tt, st')
         ∧ subscribing cfg st st'.
Proof.
  unfold subscribeToParticipant.
  apply for_of_run; [apply subscribing_refl|apply subscribing_trans|].
  intros publication st0 _.
  destruct (pub_kind publication), (pub_track publication) as [track|];
    try (exists st0; split; [reflexivity|apply subscribing_refl]).
  apply handleAudioTrack_subscribing.
Qed.

(** What startTranscription does once the feature is on and the meeting is
    not registered. *)
Lemma startTranscription_connect (meetingId livekitRoomName token : string) (st : State) :
  features_transcription cfg = true →
  activeSessions st !! meetingId = None →
  match room_connect W (requests st) with
  | inl error_message =>
      ∃ st',
        startTranscription W cfg meetingId livekitRoomName token st
        = (Return {| success := false; message := error_message |}, st')
        ∧ activeSessions st' = activeSessions st
        ∧ transcriptionSessions st' = transcriptionSessions st
        ∧ connections_opened (trace st') = connections_opened (trace st)
        ∧ system_notices (trace st') = system_notices (trace st)
  | inr participants =>
      ∃ st0 st',
        startTranscription W cfg meetingId livekitRoomName token st
        = (Return {| success := true; message := "Transcription started" |}, st')
        ∧ subscribing cfg st0 st'
        ∧ deepgramClient st0 = deepgramClient st
        ∧ connections st0 = connections st
        ∧ transcriptionSessions st0 = transcriptionSessions st
        ∧ connections_opened (trace st0) = connections_opened (trace st)
        ∧ system_notices (trace st0) = "Live transcription started" :: system_notices (trace st)
        ∧ activeSessions st0
          = <[meetingId := {| room := rooms st; s_meetingId := meetingId |}]> (activeSessions st)
  end.
Proof.
  intros Hfeature Hfree.
  destruct (room_connect W (requests st)) as [error_message|participants] eqn:Hroom.
  { unfold startTranscription. rewrite Hfeature. cbn [negb].
    unfold get_state. unfold bind at 1. rewrite Hfree.
    cbv zeta. unfold try_catch.
    unfold modify at 1. unfold bind at 1.
    erewrite (run_bind (request W)); [|apply request_run].
    simpl_state. rewrite Hroom.
    unfold logger, emit, modify, bind, throw, ret. eexists. split; [reflexivity|].
    simpl_state. by repeat split. }
  unfold startTranscription. rewrite Hfeature. cbn [negb].
  unfold get_state. unfold bind at 1. rewrite Hfree.
  cbv zeta. unfold try_catch.
  unfold modify at 1. unfold bind at 1.
  erewrite (run_bind (request W)); [|apply request_run].
  simpl_state. rewrite Hroom.
  unfold emit at 1, modify at 1. unfold bind at 1.
  unfold logger at 1, emit at 1, modify at 1. unfold bind at 1.
  match goal with |- context [bind (sendSystemMessage W ?r ?m ?p) _ ?s] =>
    destruct (sendSystemMessage_facts r m p s)
      as (ok & st2 & Hsend & _ & _ & Hsess & Hsys & Hopen & _)
  end.
  rewrite (run_bind _ _ _ _ _ Hsend).
  unfold modify at 1. unfold bind at 1.
  match goal with |- context [bind (for_of participants ?f) _ ?s] =>
    destruct (for_of_run (subscribing cfg) f participants
                subscribing_refl subscribing_trans
                (λ x st0 _, subscribeToParticipant_subscribing _ x st0) s)
      as (st3 & Hloop & Hsub);
    exists s, st3
  end.
  rewrite (run_bind _ _ _ _ _ Hloop). unfold ret.
  split; [reflexivity|]. split; [exact Hsub|].
  destruct Hsess as (Hc & Hconn & _ & Hts & Hact).
  revert Hc Hconn Hts Hact Hsys Hopen. simpl_state.
  intros Hc Hconn Hts Hact Hsys Hopen.
  repeat split; try done. by rewrite Hact.
Qed.

(** X24: startTranscription never throws.  A start that fails registers
    nothing: the registry and the sessions' maps are as before, no recognizer
    connection was opened and no notice was sent; its message tells why
    (feature off, meeting already active, or the error of room.connect).  A
    start that succeeds has sent the start notice and the meeting counts as
    transcribing. *)
Theorem failed_start_registers_nothing (meetingId livekitRoomName token : string)
    (st : State) :
  ∃ out st',
    startTranscription W cfg meetingId livekitRoomName token st = (Return out, st')
    ∧ (success out = false →
         activeSessions st' = activeSessions st
         ∧ transcriptionSessions st' = transcriptionSessions st
         ∧ connections_opened (trace st') = connections_opened (trace st)
         ∧ system_notices (trace st') = system_notices (trace st)
         ∧ ((features_transcription cfg = false ∧ message out = "Transcription disabled")
            ∨ (is_Some (activeSessions st !! meetingId)
               ∧ message out = "Already transcribing")
            ∨ room_connect W (requests st) = inl (message out)))
    ∧ (success out = true →
         message out = "Transcription started"
         ∧ system_notices (trace st')
           = "Live transcription started" :: system_notices (trace st)
         ∧ isTranscribing meetingId st' = (Return true, st')).
Proof.
  destruct (features_transcription cfg) eqn:Hfeature.
  2:{ unfold startTranscription. rewrite Hfeature. cbn [negb].
      eexists _, _. split; [reflexivity|]. simpl_state. split; [|done].
      intros _. repeat split. by left. }
  destruct (activeSessions st !! meetingId) as [session|] eqn:Hactive.
  { unfold startTranscription. rewrite Hfeature. cbn [negb].
    unfold get_state. unfold bind at 1. rewrite Hactive.
    eexists _, _. split; [reflexivity|]. simpl_state. split; [|done].
    intros _. repeat split. right. left. by split. }
  pose proof (startTranscription_connect meetingId livekitRoomName token st Hfeature Hactive)
    as Hconnect.
  destruct (room_connect W (requests st)) as [error_message|participants].
  - destruct Hconnect as (st' & Hrun & ? & ? & ? & ?).
    eexists _, st'. split; [exact Hrun|]. split; [|done].
    intros _. repeat split; try done. right. by right.
  - destruct Hconnect as (st0 & st' & Hrun & Hsub & _ & _ & _ & _ & Hsys & Hact).
    eexists _, st'. split; [exact Hrun|]. split; [done|].
    intros _. destruct Hsub as ((Hact' & _) & _ & _ & Hsys' & _).
    split; [done|]. split; [by rewrite Hsys', Hsys|].
    unfold isTranscribing, get_state, bind, ret.
    rewrite Hact', Hact, lookup_insert_eq. by rewrite bool_decide_eq_true_2.
Qed.

(** X25: Without a Deepgram API key the start still succeeds: the agent joins
    the room, sends the start notice and registers the meeting, but no
    recognizer connection is opened for any participant, and the health
    check of the recognizer says so. *)
Theorem start_without_recognizer_still_succeeds (meetingId livekitRoomName token : string)
    (st : State) (participants : list Participant) :
  features_transcription cfg = true →
  truthy_opt (deepgram_apiKey cfg) = false →
  deepgramClient st = false →
  activeSessions st !! meetingId = None →
  room_connect W (requests st) = inr participants →
  ∃ st',
    startTranscription W cfg meetingId livekitRoomName token st
    = (Return {| success := true; message := "Transcription started" |}, st')
    ∧ isTranscribing meetingId st' = (Return true, st')
    ∧ connections_opened (trace st') = connections_opened (trace st)
    ∧ connections st' = connections st
    ∧ transcriptionSessions st' = transcriptionSessions st
    ∧ checkDeepgramHealth cfg st'
      = (Return {| healthy := false; health_message := "Deepgram client not initialized";
                   health_model := None |}, st').
Proof.
  intros Hfeature Hkey Hclient Hfree Hroom.
  pose proof (startTranscription_connect meetingId livekitRoomName token st Hfeature Hfree)
    as Hconnect.
  rewrite Hroom in Hconnect.
  destruct Hconnect as (st0 & st' & Hrun & Hsub & Hc0 & Hconn0 & Hts0 & Hopen0 & _ & Hact0).
  destruct Hsub as ((Hact & _) & _ & _ & _ & Hnone).
  destruct Hnone as (Hc & Hconn & Hts & Hopen); [done|congruence|].
  exists st'. split; [exact Hrun|].
  split.
  { unfold isTranscribing, get_state, bind, ret.
    rewrite Hact, Hact0, lookup_insert_eq. by rewrite bool_decide_eq_true_2. }
  split; [congruence|]. split; [congruence|]. split; [congruence|].
  unfold checkDeepgramHealth, get_state, bind. by rewrite Hc.
Qed.

(** **** Final transcripts, whatever fails *)

Lemma processFinalTranscript_eq (meetingId speakerId speakerName : string)
    (transcript : Transcript) (st : State) :
  let row := {| tr_id := gen_random_uuid W (requests st); tr_meeting_id := meetingId;
                tr_speaker_id := speakerId; tr_speaker_name := speakerName;
                tr_original_text := text transcript;
                tr_detected_language := language transcript;
                tr_confidence := confidence transcript; tr_timestamp_ms := clock st |} in
  ∃ st1,
    processFinalTranscript W meetingId speakerId speakerName transcript st
    = (Return (if supabase_error W (requests st)
                  || existsb (λ r, String.eqb (tr_id r) (tr_id row)) (meeting_transcripts st)
               then None else Some row), st1)
    ∧ recorded st st1
    ∧ meeting_transcripts st1
      = if supabase_error W (requests st)
           || existsb (λ r, String.eqb (tr_id r) (tr_id row)) (meeting_transcripts st)
        then meeting_transcripts st
        else (meeting_transcripts st ++ [row])%list.
Proof.
  intros row. unfold processFinalTranscript. unfold bind at 1.
  rewrite saveTranscript_eq. cbv zeta. fold row.
  destruct (supabase_error W (requests st) || existsb _ _).
  - eexists. split; [reflexivity|]. split; [solve_recorded|done].
  - unfold logger, emit, modify, bind, ret.
    eexists. split; [reflexivity|]. split; [solve_recorded|done].
Qed.

Lemma translate_each_run (text sourceLang : string) (transcriptId : option string)
    (langs : list LanguagePreference) (st : State) :
  ∃ captions st',
    map_all langs
      (λ p,
         let! translated :=
           translateText W cfg text sourceLang (pref_language p) transcriptId in
         ret {| participantIdentity := userId p;
                ct_language := pref_language p;
                ct_translatedText := translated |}) st
    = (Return captions, st')
    ∧ bystanders st st'
    ∧ length captions = length langs.
Proof.
  revert st. induction langs as [|p langs IH]; intros st.
  { exists [], st. split; [reflexivity|]. split; [apply bystanders_refl|done]. }
  destruct (translateText_total text sourceLang (pref_language p) transcriptId st)
    as (r & st1 & Hrun & Hby).
  destruct (IH st1) as (captions & st2 & Hloop & Hby2 & Hlen).
  eexists (_ :: captions), st2. split; [|split; [by eapply bystanders_trans|simpl; lia]].
  cbn [map_all]. unfold bind at 1. rewrite (run_bind _ _ _ _ _ Hrun).
  unfold ret at 1. by rewrite (run_bind _ _ _ _ _ Hloop).
Qed.

(** The steps of handleFinalTranscript: the transcript is saved (or not),
    and whatever happened to it, at least one caption with the transcript's
    text is handed to the transport. *)
Lemma handleFinalTranscript_steps (session : Session) (speakerId speakerName : string)
    (transcript : Transcript) (st : State) :
  ∃ saved st1 st' new,
    processFinalTranscript W (s_meetingId session) speakerId speakerName transcript st
    = (Return saved, st1)
    ∧ handleFinalTranscript W cfg session speakerId speakerName transcript st
      = (Return tt, st')
    ∧ meeting_transcripts st' = meeting_transcripts st1
    ∧ same_sessions st st'
    ∧ published (trace st') = (new ++ published (trace st))%list
    ∧ new ≠ []
    ∧ Forall (λ pub, ∃ msg, pub.1 = CaptionPayload msg
                           ∧ originalText msg = text transcript
                           ∧ msg_isFinal msg = true) new.
Proof.
  unfold handleFinalTranscript.
  destruct (processFinalTranscript_run W (s_meetingId session) speakerId speakerName
              transcript st) as (saved & st1 & Hrun1 & Hrec).
  assert (Hwarn : ∃ st2,
            (match saved with
             | Some _ => ret tt
             | None => logger LWarn "Failed to save transcript"
             end) st1 = (Return tt, st2)
            ∧ recorded st st2 ∧ meeting_transcripts st2 = meeting_transcripts st1).
  { destruct saved; eexists; (split; [reflexivity|]); [done|].
    revert Hrec. unfold recorded. simpl_state. done. }
  destruct Hwarn as (st2 & Hrun2 & Hrec2 & Htr2).
  destruct Hrec2 as (_ & _ & _ & _ & _ & _ & Hsess2 & (Hpub2 & _) & _).
  destruct (getMeetingLanguages_run W (s_meetingId session) st2)
    as (langs & st3 & Hrun3 & Hq & _).
  destruct Hq as ((_ & Htr3 & _ & Hsess3 & (Hpub3 & _)) & _).
  exists saved, st1.
  destruct (negb (features_translation cfg) || (length langs =? 0)%nat) eqn:Hbranch.
  - destruct (broadcastCaption_run W (room session)
                (caption_of session speakerId speakerName transcript true) st3)
      as (ok & st4 & msg & Hrun4 & Hd & Ho & _ & Hf & _).
    exists st4, [(CaptionPayload msg, None)]. split; [done|]. split.
    { apply run_try_return.
      rewrite (run_bind _ _ _ _ _ Hrun1), (run_bind _ _ _ _ _ Hrun2),
        (run_bind _ _ _ _ _ Hrun3), Hbranch.
      by rewrite (run_bind _ _ _ _ _ Hrun4). }
    destruct Hd as (_ & (_ & Htr4 & _) & Hsess4 & _ & _ & Hpub4).
    split; [congruence|]. split.
    { revert Hsess2 Hsess3 Hsess4. unfold same_sessions.
      intros (?&?&?&?&?) (?&?&?&?&?) (?&?&?&?&?). repeat split; congruence. }
    split; [rewrite Hpub4; simpl; congruence|]. split; [done|].
    constructor; [|constructor]. by exists msg.
  - pose proof Hbranch as Hlen.
    apply orb_false_iff in Hlen as [_ Hlen]. apply Nat.eqb_neq in Hlen.
    destruct (translate_each_run (text transcript) (language transcript)
                (tr_id <$> saved) langs st3) as (captions & st4 & Hrun4 & Hby4 & Hlen4).
    destruct Hby4 as (_ & Htr4 & _ & Hsess4 & (Hpub4 & _)).
    destruct (sendTranslatedCaptions_run W (room session)
                (caption_of session speakerId speakerName transcript true) captions st4)
      as (ok & st5 & new & Hrun5 & Hd5 & Hforall).
    exists st5, new. split; [done|]. split.
    { apply run_try_return.
      rewrite (run_bind _ _ _ _ _ Hrun1), (run_bind _ _ _ _ _ Hrun2),
        (run_bind _ _ _ _ _ Hrun3), Hbranch.
      rewrite (run_bind _ _ _ _ _ Hrun4).
      by rewrite (run_bind _ _ _ _ _ Hrun5). }
    destruct Hd5 as (_ & (_ & Htr5 & _) & Hsess5 & _ & _ & Hpub5).
    split; [congruence|]. split.
    { revert Hsess2 Hsess3 Hsess4 Hsess5. unfold same_sessions.
      intros (?&?&?&?&?) (?&?&?&?&?) (?&?&?&?&?) (?&?&?&?&?). repeat split; congruence. }
    split; [rewrite Hpub5; congruence|]. split.
    { intros ->. apply Forall2_length in Hforall. simpl in Hforall. lia. }
    assert (Forall (λ pub, ∃ msg, pub.1 = CaptionPayload msg
                                 ∧ originalText msg = text transcript
                                 ∧ msg_isFinal msg = true) (rev new)) as Hrev.
    { clear -Hforall. induction Hforall as [|target pub targets pubs Hone _ IH];
        constructor; [|done].
      destruct Hone as (msg & -> & Ho & _ & _ & Hf). by exists msg. }
    rewrite Forall_forall in Hrev. rewrite Forall_forall.
    intros pub Hin. apply Hrev.
    by apply list_elem_of_In, in_rev, list_elem_of_In in Hin.
Qed.

(** X26: handleFinalTranscript never throws, and every final transcript is
    published: whether or not the transcript could be saved, the
    preferences read and the translations made, at least one caption marked
    final and carrying the transcript's text is handed to the transport.
    At most one transcript row is added, and the registry of meetings is
    left as it is. *)
Theorem every_final_transcript_is_published (session : Session)
    (speakerId speakerName : string) (transcript : Transcript) (st : State) :
  ∃ st' new rows,
    handleFinalTranscript W cfg session speakerId speakerName transcript st
    = (Return tt, st')
    ∧ published (trace st') = (new ++ published (trace st))%list
    ∧ new ≠ []
    ∧ Forall (λ pub, ∃ msg, pub.1 = CaptionPayload msg
                           ∧ originalText msg = text transcript
                           ∧ msg_isFinal msg = true) new
    ∧ meeting_transcripts st' = (meeting_transcripts st ++ rows)%list
    ∧ (length rows ≤ 1)%nat
    ∧ activeSessions st' = activeSessions st.
Proof.
  destruct (handleFinalTranscript_steps session speakerId speakerName transcript st)
    as (saved & st1 & st' & new & Hproc & Hrun & Htr & Hsess & Hpub & Hnew & Hall).
  destruct (processFinalTranscript_eq (s_meetingId session) speakerId speakerName
              transcript st) as (st1' & Heq & _ & Hrows).
  rewrite Hproc in Heq. injection Heq as _ <-.
  exists st', new.
  destruct (supabase_error W (requests st) || existsb _ _).
  - exists []. rewrite app_nil_r. destruct Hsess as (_ & _ & _ & _ & Hact).
    repeat split; try done; [congruence|simpl; lia].
  - eexists [_]. destruct Hsess as (_ & _ & _ & _ & Hact).
    repeat split; try done. rewrite Htr. exact Hrows.
Qed.

(** X27: A final recognizer result with a text, arriving on a connection that
    handleAudioTrack set up, is stored as a transcript of the session's
    meeting and of the participant the connection belongs to, with the text
    as recognized and the time of arrival, provided the insert succeeds;
    and a caption for it is published. *)
Theorem final_recognizer_result_is_stored (connection : nat) (data : DeepgramData)
    (st : State) (c : Connection) (cb : Callbacks) (transcript_text : string) :
  connections st !! connection = Some c →
  conn_onFinalTranscript c = Some cb →
  is_final data = Some true →
  alternative0 data ≫= alt_transcript = Some transcript_text →
  truthy transcript_text = true →
  supabase_error W (requests st) = false →
  (∀ r, r ∈ meeting_transcripts st → tr_id r ≠ gen_random_uuid W (requests st)) →
  ∃ st' row new,
    connection_emit W cfg connection (OnTranscript data) st = (Return tt, st')
    ∧ meeting_transcripts st' = (meeting_transcripts st ++ [row])%list
    ∧ tr_original_text row = transcript_text
    ∧ tr_meeting_id row = s_meetingId (cb_session cb)
    ∧ tr_speaker_id row = cb_participantId cb
    ∧ tr_speaker_name row = cb_participantName cb
    ∧ tr_detected_language row = or_else (conn_language c) "en"
    ∧ tr_timestamp_ms row = clock st
    ∧ published (trace st') = (new ++ published (trace st))%list
    ∧ new ≠ [].
Proof.
  intros Hc Hcb Hfinal Htext Htruthy Hok Hfresh.
  unfold connection_emit, get_state. unfold bind at 1. rewrite Hc.
  unfold connection_on_Transcript. rewrite Htext, Htruthy, Hfinal, Hcb.
  change (default false (Some true)) with true.
  cbn [negb fmap option_fmap option_map].
  unfold logger at 1, emit at 1, modify at 1. unfold bind at 1.
  match goal with |- context [handleFinalTranscript W cfg ?s ?i ?n ?t ?s0] =>
    destruct (handleFinalTranscript_steps s i n t s0)
      as (saved & st1 & st' & new & Hproc & Hrun & Htr & _ & Hpub & Hnew & _);
    destruct (processFinalTranscript_eq (s_meetingId s) i n t s0)
      as (st1' & Heq & _ & Hrows)
  end.
  rewrite Hproc in Heq. injection Heq as _ <-.
  revert Hrows Hpub. simpl_state. cbn [tr_id]. rewrite Hok.
  assert (existsb (λ r, String.eqb (tr_id r) (gen_random_uuid W (requests st)))
            (meeting_transcripts st) = false) as ->.
  { apply not_true_iff_false. intros (r & Hin & Heq)%existsb_exists.
    apply String.eqb_eq in Heq. apply list_elem_of_In in Hin. by apply (Hfresh r). }
  cbn [orb]. intros Hrows Hpub.
  eexists st', _, new. split; [exact Hrun|].
  split; [by rewrite Htr, Hrows|]. by repeat split.
Qed.

(** *** The logger's level test *)

(** X28: Whatever LOG_LEVEL is set to (names inherited from Object.prototype
    apart), error and warning lines are printed: the level 'error' has the
    number 0, which the fallback [|| LOG_LEVELS.info] treats like an unknown
    name, so LOG_LEVEL=error behaves as 'info'.  Info lines are left out only
    under 'warn', and debug lines are printed only under 'debug'; an unset
    or empty LOG_LEVEL is 'info'. *)
Theorem warnings_are_always_printed (LOG_LEVEL : option string) :
  existsb (String.eqb (config_logLevel LOG_LEVEL)) Object_prototype_properties = false →
  prints (config_logLevel LOG_LEVEL) LError = true
  ∧ prints (config_logLevel LOG_LEVEL) LWarn = true
  ∧ (prints (config_logLevel LOG_LEVEL) LInfo = false ↔ LOG_LEVEL = Some "warn")
  ∧ (prints (config_logLevel LOG_LEVEL) LDebug = true ↔ LOG_LEVEL = Some "debug").
Proof.
  assert (∀ s, existsb (String.eqb s) Object_prototype_properties = false →
               prints s LError = true ∧ prints s LWarn = true
               ∧ (prints s LInfo = false ↔ s = "warn")
               ∧ (prints s LDebug = true ↔ s = "debug")) as Hlevels.
  { intros s Hown. unfold prints, currentLevel, LOG_LEVELS. rewrite Hown.
    destruct (String.eqb_spec s "error") as [->|He]; [by repeat split|].
    destruct (String.eqb_spec s "warn") as [->|Hw]; [by repeat split|].
    destruct (String.eqb_spec s "info") as [->|Hi]; [by repeat split|].
    destruct (String.eqb_spec s "debug") as [->|Hd]; [by repeat split|].
    by repeat split. }
  intros Hown. destruct (Hlevels _ Hown) as (He & Hw & Hi & Hd).
  split; [done|]. split; [done|].
  rewrite Hi, Hd. unfold config_logLevel.
  destruct LOG_LEVEL as [s|]; simpl; [|by split].
  destruct (truthy s) eqn:Hs.
  - split; split; congruence.
  - destruct s; [|done]. by split.
Qed.

(** *** The application stack *)

Lemma error_handlers_within_reach (stack : list Server.Layer) (line : nat) :
  line ∈ Server.error_handlers stack → line ∈ Server.within_reach stack.
Proof.
  induction stack as [|layer stack IH]; [done|].
  destruct layer; cbn [Server.error_handlers Server.within_reach]; intros Hin.
  - right. by apply IH.
  - right. by apply IH.
  - by right.
  - apply elem_of_cons in Hin as [->|Hin]; [by left|]. right. by apply IH.
Qed.

Lemma on_error_lines {Request : Type} (X : Server.Express Request)
    (stack : list Server.Layer) (req : Request) :
  Forall (λ line, line ∈ Server.error_handlers stack) (Server.on_error X stack req).
Proof.
  induction stack as [|layer stack IH]; [constructor|].
  destruct layer; cbn [Server.on_error Server.error_handlers]; try exact IH.
  constructor; [by left|].
  destruct (Server.handler_raises X line req); [|constructor].
  eapply Forall_impl; [exact IH|]. intros l Hl. by right.
Qed.

Lemma handle_lines {Request : Type} (X : Server.Express Request)
    (stack : list Server.Layer) (req : Request) :
  Forall (λ line, line ∈ Server.within_reach stack) (Server.handle X stack req).
Proof.
  assert (∀ rest line0,
            Forall (λ line, line ∈ line0 :: Server.within_reach rest)
              (Server.on_error X rest req)) as Herr.
  { intros rest line0. eapply Forall_impl; [apply on_error_lines|].
    intros l Hl. right. by apply error_handlers_within_reach. }
  induction stack as [|layer stack IH]; [constructor|].
  destruct layer; cbn [Server.handle Server.within_reach].
  - constructor; [by left|].
    destruct (Server.middleware_step X line req); [|constructor|apply Herr].
    eapply Forall_impl; [exact IH|]. intros l Hl. by right.
  - destruct (Server.route_matches X method path req).
    + constructor; [by left|].
      destruct (Server.handler_raises X line req); [apply Herr|constructor].
    + eapply Forall_impl; [exact IH|]. intros l Hl. by right.
  - constructor; [by left|].
    destruct (Server.handler_raises X line req); [|constructor].
    eapply Forall_impl; [apply on_error_lines|]. intros l Hl. by right.
  - eapply Forall_impl; [exact IH|]. intros l Hl. by right.
Qed.

(** X29: The routes registered after the 404 handler are never run: whatever
    the request, whatever the routes match and whatever the middleware and
    the handlers do, every function the request (or its error) is given to
    is registered at or before line 803, where the 404 handler is, or is
    the error handler of line 1142.  So the handlers of the transcription,
    transcript, user-settings and session endpoints (lines 964 to 1101), of
    the second end-meeting and health routes and of end-meeting-inactivity
    are not reached by any request. *)
Theorem routes_after_the_404_handler_never_run {Request : Type}
    (X : Server.Express Request) (req : Request) :
  Forall (λ line, (line ≤ 803 ∨ line = 1142)%nat) (Server.handle X Server.app req).
Proof.
  eapply Forall_impl; [apply handle_lines|].
  intros line Hin. cbv [Server.app Server.within_reach Server.error_handlers] in Hin.
  repeat (apply elem_of_cons in Hin as [->|Hin]; [lia|]).
  by apply elem_of_nil in Hin.
Qed.

(** X30: A request that the three middleware hand on and that no route
    registered before the 404 handler matches is given to the cors, JSON
    and logging middleware and then to the 404 handler, and to nothing
    else, whatever the routes registered later would match. *)
Theorem unrouted_request_is_not_found {Request : Type}
    (X : Server.Express Request) (req : Request) :
  (∀ line, Server.Middleware line ∈ Server.app →
     Server.middleware_step X line req = Server.PassOn) →
  (∀ line method path,
     Server.Route line method path ∈ Server.before_terminal Server.app →
     Server.route_matches X method path req = false) →
  Server.handler_raises X 803 req = false →
  Server.handle X Server.app req = [350; 357; 365; 803]%nat.
Proof.
  intros Hpass Hroutes Hfine.
  assert (∀ layer, layer ∈ Server.before_terminal Server.app →
            match layer with
            | Server.Middleware line => Server.middleware_step X line req = Server.PassOn
            | Server.Route _ method path => Server.route_matches X method path req = false
            | _ => True
            end) as Hall.
  { intros [line|line method path|line|line] Hin; [|by eapply Hroutes|done..].
    apply Hpass. cbv [Server.app Server.before_terminal] in Hin. unfold Server.app.
    repeat (apply elem_of_cons in Hin as [Heq|Hin];
            [first [discriminate Heq
                   |injection Heq as ->; repeat first [apply list_elem_of_here
                                                       |apply list_elem_of_further]]|]).
    by apply elem_of_nil in Hin. }
  apply Forall_forall in Hall. cbv [Server.app Server.before_terminal] in Hall.
  cbn [Server.handle Server.app].
  repeat (apply Forall_cons in Hall as [Hhead Hall]; cbv beta iota in Hhead;
          rewrite Hhead; clear Hhead).
  by rewrite Hfine.
Qed.

End Further.

(** ** The claims at work in the sample deployment *)

(** The Tamil request of the scenario: the provider fails, nothing is stored. *)
Lemma failed_translation_is_not_stored_witness :
  let run := translateText sample_world sample_config "Hello everyone" "en" "ta"
               (Some "t-1") scenario_state in
  run.1 = Return "Hello everyone"
  ∧ meeting_translations run.2 = []
  ∧ NodeCache.data (translationCache run.2) ⊆ ∅.
Proof.
  intros run.
  apply (failed_translation_is_not_stored sample_world sample_config
           "Hello everyone" "en" "ta" (Some "t-1") scenario_state run.1 run.2).
  - vm_compute. reflexivity.
  - vm_compute. reflexivity.
Defined.

(** The Spanish request of the scenario, asked again half an hour later. *)
Lemma repeated_translation_is_served_from_cache_witness :
  let st1 := (translateText sample_world sample_config "Hello everyone" "en" "es"
                (Some "t-1") scenario_state).2 in
  ∃ stored,
    1000 ≤ stored ∧ stored ≤ clock st1
    ∧ ∀ st2,
        NodeCache.data (translationCache st2) !! cacheKey "Hello everyone" "en" "es"
        = NodeCache.data (translationCache st1) !! cacheKey "Hello everyone" "en" "es" →
        clock st2 ≤ stored + 3600 * 1000 →
        ∃ st3,
          translateText sample_world sample_config "Hello everyone" "en" "es" None st2
          = (Return "es:Hello everyone", st3)
          ∧ provider_responses (trace st3) = provider_responses (trace st2)
          ∧ requests st3 = requests st2.
Proof.
  intros st1.
  apply (repeated_translation_is_served_from_cache sample_world sample_config
           "Hello everyone" "en" "es" (Some "t-1") None scenario_state st1
           "es:Hello everyone").
  - reflexivity.
  - discriminate.
  - reflexivity.
  - vm_compute. reflexivity.
  - vm_compute. reflexivity.
Defined.

(** After the agent has joined the meeting of speaker A: the state, in
    which connection 2 is A's recognizer connection. *)
Lemma started_meeting :
  startTranscription meeting_world sample_config "m-1" "room-1" "token" scenario_state
  = (Return {| success := true; message := "Transcription started" |},
     (startTranscription meeting_world sample_config "m-1" "room-1" "token"
        scenario_state).2)
  ∧ connections_opened
      (trace (startTranscription meeting_world sample_config "m-1" "room-1" "token"
                scenario_state).2) = [2%nat].
Proof. split; vm_compute; reflexivity. Qed.

(** A second start of the same meeting, after an interim caption has gone
    out in between. *)
Lemma second_start_is_rejected_witness :
  let st1 := (startTranscription meeting_world sample_config "m-1" "room-1" "token"
                scenario_state).2 in
  let later := (connection_emit meeting_world sample_config 2
                  (OnTranscript interim_event) st1).2 in
  ∃ st2,
    startTranscription meeting_world sample_config "m-1" "room-1" "token-2" later
    = (Return {| success := false; message := "Already transcribing" |}, st2)
    ∧ activeSessions st2 = activeSessions later
    ∧ rooms st2 = rooms later
    ∧ activeSessions st2 !! "m-1" = Some {| room := 0; s_meetingId := "m-1" |}
    ∧ size (filter (λ entry, entry.1 = "m-1") (activeSessions st2)) = 1%nat.
Proof.
  intros st1 later.
  apply (second_start_is_rejected meeting_world sample_config
           "m-1" "room-1" "token" "room-1" "token-2" scenario_state st1 later
           {| success := true; message := "Transcription started" |}).
  - vm_compute. reflexivity.
  - reflexivity.
  - vm_compute. reflexivity.
Defined.

(** Connection 2 closes and reports an error. *)
Lemma disconnect_is_only_logged_witness :
  let st1 := (startTranscription meeting_world sample_config "m-1" "room-1" "token"
                scenario_state).2 in
  ∃ st',
    for_of [OnClose; OnError] (connection_emit meeting_world sample_config 2) st1
    = (Return tt, st')
    ∧ delivered st1 st' []
    ∧ clock st' = clock st1
    ∧ requests st' = requests st1.
Proof.
  intros st1.
  apply (disconnect_is_only_logged meeting_world sample_config 2 [OnClose; OnError] st1).
  constructor; [by right|]. constructor; [by left|]. constructor.
Defined.

(** An interim event on connection 2. *)
Lemma interim_transcripts_are_only_broadcast_witness :
  let st1 := (startTranscription meeting_world sample_config "m-1" "room-1" "token"
                scenario_state).2 in
  ∃ st' new,
    connection_emit meeting_world sample_config 2 (OnTranscript interim_event) st1
    = (Return tt, st')
    ∧ delivered st1 st' new
    ∧ (new = []
       ∨ ∃ msg, new = [(CaptionPayload msg, None)]
                ∧ translatedText msg = Some (originalText msg)
                ∧ msg_isFinal msg = false).
Proof.
  intros st1.
  apply (proj2 (interim_transcripts_are_only_broadcast meeting_world sample_config)
           2%nat interim_event st1).
  reflexivity.
Defined.

(** The final transcript of the scenario while the database is down. *)
Lemma final_transcript_is_broadcast_without_preferences_witness :
  ∃ st' msg,
    handleFinalTranscript outage_world sample_config scenario_session "A" "Alice"
      hello_everyone scenario_state = (Return tt, st')
    ∧ published (trace st') = (CaptionPayload msg, None) :: published (trace scenario_state)
    ∧ originalText msg = "Hello everyone"
    ∧ translatedText msg = Some "Hello everyone"
    ∧ msg_isFinal msg = true
    ∧ provider_responses (trace st') = provider_responses (trace scenario_state).
Proof.
  apply (final_transcript_is_broadcast_without_preferences outage_world sample_config
           scenario_session "A" "Alice" hello_everyone scenario_state).
  right. left. reflexivity.
Defined.

(** The final transcript of the scenario with every collaborator but the
    Tamil translation working: B gets the original text, C (same language)
    too, D the Spanish translation. *)
Lemma scenario_delivery :
  ∃ st' b c d,
    handleFinalTranscript sample_world sample_config scenario_session "A" "Alice"
      hello_everyone scenario_state = (Return tt, st')
    ∧ published (trace st')
      = [(CaptionPayload d, Some ["D"]); (CaptionPayload c, Some ["C"]);
         (CaptionPayload b, Some ["B"])]
    ∧ translatedText b = Some "Hello everyone" ∧ targetLanguage b = Some "ta"
    ∧ translatedText c = Some "Hello everyone" ∧ targetLanguage c = Some "en"
    ∧ translatedText d = Some "es:Hello everyone" ∧ targetLanguage d = Some "es".
Proof.
  destruct (final_transcript_reaches_listeners sample_world sample_config
              scenario_session "A" "Alice" hello_everyone scenario_state
              (λ lang, if String.eqb lang "es" then "es:Hello everyone" else "Hello everyone"))
    as (st' & new & Hrun & Hpub & Hall).
  - reflexivity.
  - reflexivity.
  - reflexivity.
  - discriminate.
  - intros p transcriptId Hp.
    assert (Hcases : p = {| userId := "B"; pref_language := "ta" |}
                     ∨ p = {| userId := "C"; pref_language := "en" |}
                     ∨ p = {| userId := "D"; pref_language := "es" |}).
    { change (listeners scenario_state (s_meetingId scenario_session))
        with [ {| userId := "B"; pref_language := "ta" |};
               {| userId := "C"; pref_language := "en" |};
               {| userId := "D"; pref_language := "es" |} ] in Hp.
      apply elem_of_cons in Hp as [->|Hp]; [by left|].
      apply elem_of_cons in Hp as [->|Hp]; [by right; left|].
      apply elem_of_cons in Hp as [->|Hp]; [by right; right|].
      by apply elem_of_nil in Hp. }
    assert (Hnone : ∀ lang value,
              agrees scenario_state "Hello everyone" "en" lang transcriptId value).
    { intros lang value. apply nothing_cached_agrees.
      split; [reflexivity|]. intros id row _ Hin. by apply elem_of_nil in Hin. }
    destruct Hcases as [->|[->| ->]].
    + right. split; [discriminate|]. split; [|apply Hnone]. by left.
    + by left.
    + right. split; [discriminate|]. split; [|apply Hnone].
      right. split; [done|]. intros H. discriminate H.
  - change (listeners scenario_state (s_meetingId scenario_session))
      with [ {| userId := "B"; pref_language := "ta" |};
             {| userId := "C"; pref_language := "en" |};
             {| userId := "D"; pref_language := "es" |} ] in Hall.
    destruct (rev new) as [|pb [|pc [|pd [|? ?]]]] eqn:Hrev;
      try (exfalso; apply Forall2_length in Hall; discriminate Hall).
    apply Forall2_cons in Hall as [(b & -> & _ & Hb & Hbl & _) Hall].
    apply Forall2_cons in Hall as [(c & -> & _ & Hc & Hcl & _) Hall].
    apply Forall2_cons in Hall as [(d & -> & _ & Hd & Hdl & _) _].
    exists st', b, c, d. split; [done|]. split.
    + rewrite Hpub. apply (f_equal (@rev _)) in Hrev. rewrite rev_involutive in Hrev.
      by rewrite Hrev.
    + repeat split; assumption.
Qed.

(** What that run leaves in the tables: the transcript, and the one
    translation the provider delivered; nothing for Tamil. *)
Lemma scenario_persistence :
  let st' := (handleFinalTranscript sample_world sample_config scenario_session
                "A" "Alice" hello_everyone scenario_state).2 in
  tr_id <$> meeting_transcripts st' = ["t-1"; "row-0"]
  ∧ meeting_translations st'
    = [ {| tl_transcript_id := "row-0"; tl_target_language := "es";
           tl_translated_text := "es:Hello everyone";
           tl_translation_service := "libretranslate" |} ].
Proof. split; vm_compute; reflexivity. Qed.


(** Two texts share a key when they are the same text. *)
Lemma cacheKey_equal_iff_text_equal_witness :
  cacheKey "Hello everyone" "en" "es" = cacheKey "Hello everyone" "en" "es".
Proof.
  apply (cacheKey_equal_iff_text_equal "Hello everyone" "Hello everyone" "en" "es").
  reflexivity.
Defined.

(** A translation stored in the empty cache at time 1000. *)
Lemma translationCache_expiry_only_witness :
  ∃ c', NodeCache.set translationCache_options 1000 "Hello everyone_en_es" "Hola" NodeCache.create
        = Some c'
    ∧ (∀ later, later ≤ 1000 + 3600 * 1000 →
         (NodeCache.get translationCache_options later "Hello everyone_en_es" c').1 = Some "Hola")
    ∧ (∀ later, 1000 + 3600 * 1000 < later →
         (NodeCache.get translationCache_options later "Hello everyone_en_es" c').1 = None)
    ∧ (∀ other, other ≠ "Hello everyone_en_es" →
         NodeCache.data c' !! other = NodeCache.data NodeCache.create !! other)
    ∧ (NodeCache.data NodeCache.create !! "Hello everyone_en_es" = None →
         size (NodeCache.data c') = S (size (NodeCache.data NodeCache.create))).
Proof.
  apply (translationCache_expiry_only 1000 "Hello everyone_en_es" "Hola" NodeCache.create).
Defined.

(** ** What the specification says and the code does not do *)

(** C3 fails as stated: these two texts are equal after trimming and
    collapsing white space, yet they have different cache keys, and a
    translation stored for one is not found for the other: the second
    request goes to the provider again. *)
Lemma normalized_texts_have_different_keys :
  spec_normalize "Hello  everyone " = spec_normalize "Hello everyone"
  ∧ cacheKey "Hello  everyone " "en" "es" ≠ cacheKey "Hello everyone" "en" "es"
  ∧ (let st1 := (translateText sample_world sample_config
                   "Hello everyone" "en" "es" None initial_state).2 in
     let st2 := (translateText sample_world sample_config
                   "Hello  everyone " "en" "es" None st1).2 in
     length (provider_responses (trace st1)) = 1%nat
     ∧ length (provider_responses (trace st2)) = 2%nat).
Proof.
  split; [reflexivity|]. split; [discriminate|]. vm_compute. done.
Qed.

(** C4 fails as stated: no number bounds the live entries.  Whatever the
    bound, storing one translation more than that leaves them all in the
    cache, also after the periodic sweep. *)
Lemma translationCache_has_no_entry_bound :
  ¬ ∃ bound : nat, ∀ (now : N) (entries : list (string * string)),
      (size (NodeCache.data
               (NodeCache.checkData translationCache_options now
                  (store_all now entries NodeCache.create))) ≤ bound)%nat.
Proof.
  intros [bound Hbound].
  pose (entries := (λ i : nat, (pretty i, "x")) <$> seq 0 (S bound)).
  specialize (Hbound 0 entries).
  assert (Hlen : length entries = S bound).
  { unfold entries. by rewrite length_fmap, length_seq. }
  assert (Hnd : NoDup entries.*1).
  { unfold entries. rewrite <- list_fmap_compose.
    apply NoDup_fmap_2; [|apply NoDup_seq].
    intros i j Hij. by apply (inj pretty). }
  clearbody entries.
  unfold NodeCache.checkData in Hbound.
  change (NodeCache.deleteOnExpire translationCache_options) with true in Hbound.
  cbv iota in Hbound. unfold NodeCache.with_data in Hbound.
  cbn [NodeCache.data] in Hbound.
  rewrite map_filter_id in Hbound.
  - rewrite store_all_size in Hbound; [| done |].
    + rewrite Hlen in Hbound. lia.
    + intros k _. apply lookup_empty.
  - intros k d Hd. cbn [snd].
    eapply store_all_unexpired; [|exact Hd].
    intros k' d'. cbn [NodeCache.data NodeCache.create]. by rewrite lookup_empty.
Qed.

(** C2 fails as stated: after the recognizer connection of speaker A has
    closed, no reconnection is attempted and no notice is sent, however
    long one waits: the only connection ever opened is the first one and
    the only notice is the one sent when transcription started.  So it is
    not the case that five attempts are made and one notice is emitted. *)
Lemma close_starts_no_reconnection :
  let st1 := (startTranscription meeting_world sample_config "m-1" "room-1" "token"
                scenario_state).2 in
  let st2 := (connection_emit meeting_world sample_config 2 OnClose st1).2 in
  connections_opened (trace st2) = [2%nat]
  ∧ system_notices (trace st2) = ["Live transcription started"]
  ∧ JsMap.get "A" (default [] (transcriptionSessions st2 !! 0%nat)) = Some 2%nat
  ∧ ¬ (length (connections_opened (trace st2))
       = (length (connections_opened (trace st1)) + 5)%nat
       ∧ length (system_notices (trace st2)) = S (length (system_notices (trace st1)))).
Proof.
  vm_compute. repeat split; try reflexivity. intros [H _]. discriminate H.
Qed.

(** C8 fails as stated: with CACHE_TRANSLATIONS=false the second request
    for the same text and languages, made right after the first one had
    succeeded, goes to the provider again. *)
Lemma without_caching_the_provider_is_asked_again :
  let run1 := translateText sample_world no_cache_config "Hello everyone" "en" "es"
                None initial_state in
  let run2 := translateText sample_world no_cache_config "Hello everyone" "en" "es"
                None run1.2 in
  run1.1 = Return "es:Hello everyone"
  ∧ provider_responses (trace run1.2) = [Some "es:Hello everyone"]
  ∧ clock run1.2 ≤ clock initial_state + 3600 * 1000
  ∧ provider_responses (trace run2.2)
    = [Some "es:Hello everyone"; Some "es:Hello everyone"].
Proof.
  vm_compute. repeat split; try reflexivity. intros H. discriminate H.
Qed.

(** ** The further properties at work in the sample deployment *)

(** The Spanish translation of transcript t-1 is stored and then looked up. *)
Lemma saved_translation_is_found_witness :
  ∃ later',
    getTranslation sample_world "t-1" "es" translated_state
    = (Return (Some "Hola a todos"), later').
Proof.
  apply (saved_translation_is_found sample_world "t-1" "es" "Hola a todos" "libretranslate"
           scenario_state translated_state translated_state
           {| tl_transcript_id := "t-1"; tl_target_language := "es";
              tl_translated_text := "Hola a todos";
              tl_translation_service := "libretranslate" |}).
  - vm_compute. reflexivity.
  - reflexivity.
  - reflexivity.
Defined.

(** A second transcript of the meeting is saved and then listed. *)
Lemma saved_transcript_is_listed_witness :
  let row := {| tr_id := "row-0"; tr_meeting_id := "m-1"; tr_speaker_id := "A";
                tr_speaker_name := "Alice"; tr_original_text := "Good morning";
                tr_detected_language := "en"; tr_confidence := (9 # 10)%Q;
                tr_timestamp_ms := 1000 |} in
  let st1 := (saveTranscript sample_world "m-1" "A" "Alice" "Good morning" "en" (9 # 10)%Q
                scenario_state).2 in
  tr_meeting_id row = "m-1"
  ∧ tr_speaker_id row = "A"
  ∧ tr_original_text row = "Good morning"
  ∧ tr_timestamp_ms row = clock scenario_state
  ∧ ∃ rows later',
      getMeetingTranscripts sample_world "m-1" st1 = (Return rows, later')
      ∧ row ∈ rows.
Proof.
  intros row st1.
  apply (saved_transcript_is_listed sample_world "m-1" "A" "Alice" "Good morning" "en"
           (9 # 10)%Q scenario_state st1 st1 row).
  - vm_compute. reflexivity.
  - reflexivity.
  - reflexivity.
Defined.

(** Listener B switches from Tamil to French. *)
Lemma updated_language_is_read_back_witness :
  let st1 := (updateUserLanguage sample_world "B" "fr" scenario_state).2 in
  ∃ later', getUserLanguage sample_world "B" st1 = (Return "fr", later').
Proof.
  intros st1.
  apply (updated_language_is_read_back sample_world "B" "fr" scenario_state st1 st1).
  - vm_compute. reflexivity.
  - vm_compute. lia.
  - reflexivity.
  - reflexivity.
Defined.

(** ... and the next lookup for meeting m-1 gives B French. *)
Lemma updated_language_is_used_for_the_meeting_witness :
  let st1 := (updateUserLanguage sample_world "B" "fr" scenario_state).2 in
  ∃ langs later',
    getMeetingLanguages sample_world "m-1" st1 = (Return langs, later')
    ∧ {| userId := "B"; pref_language := "fr" |} ∈ langs
    ∧ ∀ p, p ∈ langs → userId p = "B" → pref_language p = "fr".
Proof.
  intros st1.
  apply (updated_language_is_used_for_the_meeting sample_world "B" "fr" "m-1"
           scenario_state st1 st1).
  - vm_compute. reflexivity.
  - reflexivity.
  - reflexivity.
  - exists {| mp_meeting_id := "m-1"; mp_user_id := "B" |}. split; [by left|done].
  - reflexivity.
  - reflexivity.
Defined.

(** The stored Spanish translation of t-1 is served without the provider. *)
Lemma stored_translation_is_served_witness :
  ∃ st',
    translateText sample_world sample_config "Hello everyone" "en" "es" (Some "t-1")
      translated_state = (Return "Hola a todos", st')
    ∧ provider_responses (trace st') = provider_responses (trace translated_state)
    ∧ meeting_translations st' = meeting_translations translated_state
    ∧ NodeCache.data (translationCache st') !! cacheKey "Hello everyone" "en" "es"
      = Some {| NodeCache.t := clock st' + 3600 * 1000; NodeCache.v := "Hola a todos" |}.
Proof.
  apply (stored_translation_is_served sample_world sample_config "Hello everyone" "en" "es"
           "t-1" translated_state
           {| tl_transcript_id := "t-1"; tl_target_language := "es";
              tl_translated_text := "Hola a todos";
              tl_translation_service := "libretranslate" |}).
  - discriminate.
  - reflexivity.
  - reflexivity.
  - reflexivity.
  - reflexivity.
  - vm_compute. reflexivity.
  - reflexivity.
Defined.

(** Google selected, no key: the Spanish request comes back untranslated. *)
Lemma google_without_key_is_never_asked_witness :
  ∃ r st',
    translateText sample_world google_config "Hello everyone" "en" "es" (Some "t-1")
      scenario_state = (Return r, st')
    ∧ provider_responses (trace st') = provider_responses (trace scenario_state)
    ∧ meeting_translations st' = meeting_translations scenario_state
    ∧ (nothing_cached scenario_state "Hello everyone" "en" "es" (Some "t-1") →
       r = "Hello everyone").
Proof.
  apply (google_without_key_is_never_asked sample_world google_config
           "Hello everyone" "en" "es" (Some "t-1") scenario_state).
  - reflexivity.
  - reflexivity.
Defined.

(** CACHE_TRANSLATIONS=false: the Spanish request goes to the provider. *)
Lemma uncached_translation_skips_the_cache_witness :
  ∃ r st',
    translateText sample_world no_cache_config "Hello everyone" "en" "es" (Some "t-1")
      scenario_state = (Return r, st')
    ∧ translationCache st' = translationCache scenario_state
    ∧ meeting_translations st' = meeting_translations scenario_state
    ∧ ∃ response,
        provider_responses (trace st') = response :: provider_responses (trace scenario_state)
        ∧ r = default "Hello everyone" response
        ∧ requests st' = S (requests scenario_state).
Proof.
  apply (uncached_translation_skips_the_cache sample_world no_cache_config
           "Hello everyone" "en" "es" (Some "t-1") scenario_state).
  - reflexivity.
  - discriminate.
Defined.

(** The meeting of the scenario is stopped. *)
Lemma stop_ends_the_session_witness :
  ∃ st',
    stopTranscription meeting_world "m-1" joined_state
    = (Return {| success := true; message := "Transcription stopped" |}, st')
    ∧ activeSessions st' = delete "m-1" (activeSessions joined_state)
    ∧ isTranscribing "m-1" st' = (Return false, st')
    ∧ system_notices (trace st')
      = "Live transcription stopped" :: system_notices (trace joined_state)
    ∧ ((∀ n, connection_throws meeting_world n = false) →
       ∀ participantId connection,
         JsMap.get participantId (default [] (transcriptionSessions joined_state !! 0%nat))
         = Some connection →
         connection ∈ connections_finished (trace st'))
    ∧ stopTranscription meeting_world "m-1" st'
      = (Return {| success := false; message := "No active session" |}, st').
Proof.
  apply (stop_ends_the_session meeting_world "m-1" scenario_session joined_state).
  - vm_compute. reflexivity.
  - reflexivity.
Defined.

(** The same stop in a world in which the room cannot be left. *)
Lemma failed_disconnect_leaves_the_session_witness :
  let st := (startTranscription stuck_world sample_config "m-1" "room-1" "token"
               scenario_state).2 in
  ∃ st',
    stopTranscription stuck_world "m-1" st
    = (Return {| success := false; message := "could not leave the room" |}, st')
    ∧ activeSessions st' = activeSessions st
    ∧ isTranscribing "m-1" st' = (Return true, st')
    ∧ system_notices (trace st') = "Live transcription stopped" :: system_notices (trace st)
    ∧ (features_transcription sample_config = true →
       ∀ livekitRoomName token, ∃ st2,
         startTranscription stuck_world sample_config "m-1" livekitRoomName token st'
         = (Return {| success := false; message := "Already transcribing" |}, st2)).
Proof.
  intros st.
  apply (failed_disconnect_leaves_the_session stuck_world sample_config "m-1"
           scenario_session st "could not leave the room").
  - vm_compute. reflexivity.
  - reflexivity.
Defined.

(** The agent is disconnected from the room of the scenario. *)
Lemma disconnected_room_is_cleaned_up_witness :
  ∃ r st',
    room_on_Disconnected meeting_world scenario_session joined_state = (r, st')
    ∧ match room_disconnect_throws meeting_world
              (requests joined_state
               + length (default [] (transcriptionSessions joined_state !! 0%nat)))
      with
      | Some error_message =>
          r = Throw error_message ∧ activeSessions st' = activeSessions joined_state
      | None =>
          r = Return tt ∧ activeSessions st' = delete "m-1" (activeSessions joined_state)
      end.
Proof.
  apply (disconnected_room_is_cleaned_up meeting_world scenario_session joined_state).
  vm_compute. reflexivity.
Defined.

(** Speaker A's audio track in the scenario. *)
Lemma audio_track_gets_a_recognizer_witness :
  ∃ st' connection c cb,
    handleAudioTrack sample_world sample_config scenario_session 7 alice scenario_state
    = (Return tt, st')
    ∧ connections_opened (trace st') = connection :: connections_opened (trace scenario_state)
    ∧ connections st' !! connection = Some c
    ∧ conn_language c = Some "en"
    ∧ conn_onTranscript c = Some cb ∧ conn_onFinalTranscript c = Some cb
    ∧ cb_session cb = scenario_session ∧ cb_participantId cb = "A"
    ∧ JsMap.get "A" (default [] (transcriptionSessions st' !! 0%nat)) = Some connection
    ∧ (∀ other, other ≠ "A" →
         JsMap.get other (default [] (transcriptionSessions st' !! 0%nat))
         = JsMap.get other (default [] (transcriptionSessions scenario_state !! 0%nat)))
    ∧ connections_finished (trace st') = connections_finished (trace scenario_state).
Proof.
  apply (audio_track_gets_a_recognizer sample_world sample_config scenario_session 7 alice
           scenario_state).
  - right. reflexivity.
  - reflexivity.
Defined.

(** Speaker A's track is unsubscribed in the joined meeting. *)
Lemma participant_recognizer_is_closed_witness :
  ∃ st',
    stopTranscriptionForParticipant meeting_world scenario_session "A" joined_state
    = (Return tt, st')
    ∧ JsMap.get "A" (default [] (transcriptionSessions st' !! 0%nat)) = None
    ∧ (∀ other, other ≠ "A" →
         JsMap.get other (default [] (transcriptionSessions st' !! 0%nat))
         = JsMap.get other (default [] (transcriptionSessions joined_state !! 0%nat)))
    ∧ activeSessions st' = activeSessions joined_state
    ∧ match JsMap.get "A" (default [] (transcriptionSessions joined_state !! 0%nat)) with
      | None => st' = joined_state
      | Some connection =>
          requests st' = S (requests joined_state)
          ∧ connections_finished (trace st')
            = if connection_throws meeting_world (requests joined_state)
              then connections_finished (trace joined_state)
              else connection :: connections_finished (trace joined_state)
      end.
Proof.
  apply (participant_recognizer_is_closed meeting_world scenario_session "A" joined_state).
  vm_compute. apply NoDup_singleton.
Defined.

(** Speaker A joins the meeting after the agent. *)
Lemma joining_participant_gets_recognizers_witness :
  ∃ st' opened,
    room_on_ParticipantConnected sample_world sample_config scenario_session alice
      scenario_state = (Return tt, st')
    ∧ connections_opened (trace st')
      = (opened ++ connections_opened (trace scenario_state))%list
    ∧ length opened = length (audio_tracks alice)
    ∧ connections_finished (trace st') = connections_finished (trace scenario_state)
    ∧ (audio_tracks alice ≠ [] →
       ∃ connection,
         head opened = Some connection
         ∧ JsMap.get "A" (default [] (transcriptionSessions st' !! 0%nat)) = Some connection).
Proof.
  apply (joining_participant_gets_recognizers sample_world sample_config scenario_session
           alice scenario_state).
  - right. reflexivity.
  - intros n. reflexivity.
Defined.

(** The meeting of the scenario is started without a Deepgram key. *)
Lemma start_without_recognizer_still_succeeds_witness :
  ∃ st',
    startTranscription meeting_world no_key_config "m-1" "room-1" "token" scenario_state
    = (Return {| success := true; message := "Transcription started" |}, st')
    ∧ isTranscribing "m-1" st' = (Return true, st')
    ∧ connections_opened (trace st') = connections_opened (trace scenario_state)
    ∧ connections st' = connections scenario_state
    ∧ transcriptionSessions st' = transcriptionSessions scenario_state
    ∧ checkDeepgramHealth no_key_config st'
      = (Return {| healthy := false; health_message := "Deepgram client not initialized";
                   health_model := None |}, st').
Proof.
  apply (start_without_recognizer_still_succeeds meeting_world no_key_config
           "m-1" "room-1" "token" scenario_state [alice]).
  - reflexivity.
  - reflexivity.
  - reflexivity.
  - reflexivity.
  - reflexivity.
Defined.

(** The recognizer of speaker A delivers the final result "Hello everyone". *)
Lemma final_recognizer_result_is_stored_witness :
  ∃ st' row new,
    connection_emit meeting_world sample_config 2 (OnTranscript final_event) joined_state
    = (Return tt, st')
    ∧ meeting_transcripts st' = (meeting_transcripts joined_state ++ [row])%list
    ∧ tr_original_text row = "Hello everyone"
    ∧ tr_meeting_id row = "m-1"
    ∧ tr_speaker_id row = "A"
    ∧ tr_speaker_name row = "Alice"
    ∧ tr_detected_language row = "en"
    ∧ tr_timestamp_ms row = clock joined_state
    ∧ published (trace st') = (new ++ published (trace joined_state))%list
    ∧ new ≠ [].
Proof.
  apply (final_recognizer_result_is_stored meeting_world sample_config 2 final_event
           joined_state
           {| conn_meetingId := "m-1"; conn_language := Some "en";
              conn_onTranscript :=
                Some {| cb_session := scenario_session; cb_participantId := "A";
                        cb_participantName := "Alice" |};
              conn_onFinalTranscript :=
                Some {| cb_session := scenario_session; cb_participantId := "A";
                        cb_participantName := "Alice" |} |}
           {| cb_session := scenario_session; cb_participantId := "A";
              cb_participantName := "Alice" |}
           "Hello everyone").
  - vm_compute. reflexivity.
  - reflexivity.
  - reflexivity.
  - reflexivity.
  - reflexivity.
  - reflexivity.
  - intros r Hin. apply list_elem_of_In in Hin. vm_compute in Hin.
    destruct Hin as [<-|[]]. vm_compute. intros H. discriminate H.
Defined.

(** LOG_LEVEL=error *)
Lemma warnings_are_always_printed_witness :
  prints (config_logLevel (Some "error")) LError = true
  ∧ prints (config_logLevel (Some "error")) LWarn = true
  ∧ (prints (config_logLevel (Some "error")) LInfo = false ↔ Some "error" = Some "warn")
  ∧ (prints (config_logLevel (Some "error")) LDebug = true ↔ Some "error" = Some "debug").
Proof.
  apply (warnings_are_always_printed (Some "error")).
  reflexivity.
Defined.

(** PUT /user-settings/u-1 in the sample deployment: no route registered
    before the 404 handler has that method and those segments. *)
Lemma unrouted_request_is_not_found_witness :
  Server.handle Server.sample_express Server.app
    {| Server.req_method := Server.PUT; Server.req_path := "/user-settings/u-1" |}
  = [350; 357; 365; 803]%nat.
Proof.
  apply (unrouted_request_is_not_found Server.sample_express).
  - intros line _. reflexivity.
  - intros line method path Hin. cbv [Server.app Server.before_terminal] in Hin.
    repeat (apply elem_of_cons in Hin as [Heq|Hin];
            [first [discriminate Heq|injection Heq as -> -> ->; reflexivity]|]).
    by apply elem_of_nil in Hin.
  - reflexivity.
Defined.
